(** * godrop: the IRC client of [client.go]

    A shallow embedding of package [godrop] (file [client.go]): the
    [Client] struct, its connection life cycle, the read / dispatch loop
    and the senders, followed by the properties of the specification that
    concern them.

    What lies outside the package is taken as an interface:
    - the frame codec of [github.com/horgh/irc] ([irc.ParseMessage],
      [Message.Encode], the sentinel [irc.ErrTruncated]) is class [Codec];
    - the connection ([net.Conn]) and its buffered reader and writer
      ([bufio.ReadWriter]) are class [Transport], acting on a world [W];
    - the hooks of the process-wide [Hooks] slice are functions on the
      client and the world.
    Every call that crosses one of these borders is recorded, in order, in
    the [trace] of the state: the properties speak about that trace. *)

From Stdlib Require Import ZArith String Ascii List Lia Bool.
From Stdlib Require Import DecimalString.
From stdpp Require Import base option list gmap strings.
Import ListNotations.

Local Open Scope string_scope.
Local Open Scope Z_scope.

(** ** Go values *)

(** [int] is 64 bits wide on the platforms the client runs on; the
    arithmetic of Go wraps around silently. *)
Definition int_wrap (z : Z) : Z := (z + 2 ^ 63) mod 2 ^ 64 - 2 ^ 63.
Definition int_add (a b : Z) : Z := int_wrap (a + b).
Definition int_sub (a b : Z) : Z := int_wrap (a - b).
Definition MaxInt : Z := 2 ^ 63 - 1.

(** [len(s)] of a string, a number of bytes. *)
Definition len (s : string) : Z := Z.of_nat (String.length s).

(** [s[lo:hi]] panics unless [0 <= lo <= hi <= len(s)]. *)
Definition slice (s : string) (lo hi : Z) : option string :=
  if (0 <=? lo) && (lo <=? hi) && (hi <=? len s)
  then Some (substring (Z.to_nat lo) (Z.to_nat (hi - lo)) s)
  else None.

(** [strings.TrimRight(s, cutset)]: [s] without its trailing bytes that
    belong to [cutset]. *)
Fixpoint contains_byte (cutset : string) (a : ascii) : bool :=
  match cutset with
  | EmptyString => false
  | String b rest => Ascii.eqb a b || contains_byte rest a
  end.

Fixpoint TrimRight (s cutset : string) : string :=
  match s with
  | EmptyString => EmptyString
  | String a rest =>
      match TrimRight rest cutset with
      | EmptyString => if contains_byte cutset a then EmptyString
                       else String a EmptyString
      | t => String a t
      end
  end.

Definition CRLF : string := String "013" (String "010" EmptyString).
Definition LF : ascii := "010"%char.

(** An [error] value is either the sentinel [irc.ErrTruncated], which the
    client recognises with [==], or an error known by its text (what
    [fmt.Errorf] and the network return). *)
Inductive error : Type :=
| ErrTruncated
| errorString (text : string).

#[global] Instance error_eq_dec : EqDecision error.
Proof. solve_decision. Defined.

(** ** Package [irc]: frames and their codec *)

Module irc.

(** [irc.Message], as far as the client looks into it. *)
Record Message : Type := mkMessage {
  Command : string;
  Params : list string
}.

#[global] Instance Message_eq_dec : EqDecision Message.
Proof. solve_decision. Defined.

(** [irc.Message{}] *)
Definition zeroMessage : Message := mkMessage "" [].

Class Codec : Type := {
  (** [irc.ParseMessage(line)] *)
  ParseMessage : string -> Message * option error;
  (** [m.Encode()] *)
  Encode : Message -> string * option error;
  (** [irc.ErrTruncated.Error()] *)
  ErrTruncatedText : string
}.

End irc.

(** [err.Error()], which the verb [%s] prints. *)
Definition Error `{irc.Codec} (e : error) : string :=
  match e with
  | ErrTruncated => irc.ErrTruncatedText
  | errorString text => text
  end.

(** ** The network *)

(** Handles of a connection and of the [bufio.ReadWriter] around it. *)
Definition Conn : Type := nat.
Definition ReadWriter : Type := nat.

Class Transport (W : Type) : Type := {
  (** [dialer.Dial("tcp", address)], or [tls.DialWithDialer] with
      [InsecureSkipVerify] when [useTLS]: the dialer's [Timeout] and
      [KeepAlive], [useTLS], the address *)
  net_Dial : Z -> Z -> bool -> string -> W -> (Conn * option error) * W;
  (** [bufio.NewReadWriter(bufio.NewReader(conn), bufio.NewWriter(conn))] *)
  bufio_NewReadWriter : Conn -> W -> ReadWriter * W;
  (** [conn.SetDeadline(time.Now().Add(d))] *)
  conn_SetDeadline : Conn -> Z -> W -> option error * W;
  (** [conn.Close()] *)
  conn_Close : Conn -> W -> option error * W;
  (** [rw.ReadString(delim)] *)
  rw_ReadString : ReadWriter -> ascii -> W -> (string * option error) * W;
  (** [rw.WriteString(s)] *)
  rw_WriteString : ReadWriter -> string -> W -> (Z * option error) * W;
  (** [rw.Flush()] *)
  rw_Flush : ReadWriter -> W -> option error * W
}.

(** The calls the client makes to the outside, as the trace keeps them. *)
Inductive Event : Type :=
| EvDial (useTLS : bool) (address : string)
| EvNewReadWriter (c : Conn)
| EvSetDeadline (c : Conn) (d : Z)
| EvConnClose (c : Conn)
| EvReadString (rw : ReadWriter) (delim : ascii)
| EvWriteString (rw : ReadWriter) (s : string)
| EvFlush (rw : ReadWriter)
| EvParseMessage (line : string)
| EvEncode (m : irc.Message)
| EvLog (line : string)
| EvHook (i : nat) (m : irc.Message).

(** ** The client *)

Record Client : Type := mkClient {
  conn : option Conn;
  rw : option ReadWriter;
  nick : string;
  name : string;
  ident : string;
  host : string;
  port : Z;
  tls : bool;
  Config : gmap string string;
  registered : bool;
  timeoutTime : Z
}.

Definition second : Z := 1000000000.
Definition minute : Z := 60 * second.

Definition timeoutConnect : Z := 30 * second.
Definition defaultTimeoutTime : Z := 5 * minute.
Definition keepAliveDuration : Z := 30 * second.

(** [New]: no connection yet, an empty [Config] (a nil map). *)
Definition New (nick name ident host : string) (port : Z) (tls : bool)
  : Client :=
  {| conn := None; rw := None;
     nick := nick; name := name; ident := ident;
     host := host; port := port; tls := tls;
     Config := ∅; registered := false;
     timeoutTime := defaultTimeoutTime |}.

Definition set_conn (v : option Conn) (c : Client) : Client :=
  {| conn := v; rw := rw c; nick := nick c; name := name c;
     ident := ident c; host := host c; port := port c; tls := tls c;
     Config := Config c; registered := registered c;
     timeoutTime := timeoutTime c |}.

Definition set_rw (v : option ReadWriter) (c : Client) : Client :=
  {| conn := conn c; rw := v; nick := nick c; name := name c;
     ident := ident c; host := host c; port := port c; tls := tls c;
     Config := Config c; registered := registered c;
     timeoutTime := timeoutTime c |}.

Definition set_registered (v : bool) (c : Client) : Client :=
  {| conn := conn c; rw := rw c; nick := nick c; name := name c;
     ident := ident c; host := host c; port := port c; tls := tls c;
     Config := Config c; registered := v;
     timeoutTime := timeoutTime c |}.

Definition set_timeoutTime (v : Z) (c : Client) : Client :=
  {| conn := conn c; rw := rw c; nick := nick c; name := name c;
     ident := ident c; host := host c; port := port c; tls := tls c;
     Config := Config c; registered := registered c;
     timeoutTime := v |}.

(** ** Running the client: state, outcomes, sequencing *)

(** How a call ends: it returns, it panics (a nil handle, an index out of
    range), or the fuel given to a loop ran out while it was running. *)
Inductive Res (A : Type) : Type :=
| Ret (a : A)
| Panic (why : string)
| OutOfFuel.
Arguments Ret {A} a.
Arguments Panic {A} why.
Arguments OutOfFuel {A}.

Section Run.
Context {W : Type} `{Transport W} `{irc.Codec}.

Record State : Type := mkState {
  client : Client;
  world : W;
  trace : list Event
}.

Definition M (A : Type) : Type := State -> Res A * State.

Definition ret {A} (a : A) : M A := fun s => (Ret a, s).

Definition bind {A B} (m : M A) (k : A -> M B) : M B :=
  fun s =>
    match m s with
    | (Ret a, s') => k a s'
    | (Panic why, s') => (Panic why, s')
    | (OutOfFuel, s') => (OutOfFuel, s')
    end.

Definition panic {A} (why : string) : M A := fun s => (Panic why, s).

Definition out_of_fuel {A} : M A := fun s => (OutOfFuel, s).

Definition get_client : M Client := fun s => (Ret (client s), s).

Definition modify_client (f : Client -> Client) : M unit :=
  fun s => (Ret tt, {| client := f (client s); world := world s;
                       trace := trace s |}).

(** A call to the outside: recorded, then answered by the world. *)
Definition call {A} (e : Event) (op : W -> A * W) : M A :=
  fun s =>
    let (a, w) := op (world s) in
    (Ret a, {| client := client s; world := w; trace := trace s ++ [e] |}).

(** A call to the outside whose answer the client does not look at. *)
Definition note (e : Event) : M unit :=
  fun s => (Ret tt, {| client := client s; world := world s;
                       trace := trace s ++ [e] |}).

(** Following a handle: a nil one panics. *)
Definition deref {A} (h : option A) : M A :=
  match h with
  | Some a => ret a
  | None => panic "invalid memory address or nil pointer dereference"
  end.

End Run.

Arguments State W : clear implicits.
Arguments M W A : clear implicits.

Declare Scope go_scope.
Delimit Scope go_scope with go.
Notation "x <- m ;; k" := (bind m (fun x => k))
  (at level 100, m at next level, right associativity) : go_scope.
Notation "m ;; k" := (bind m (fun _ => k))
  (at level 100, right associativity) : go_scope.
Open Scope go_scope.

(** ** The methods of [Client] *)

Section Client.
Context {W : Type} `{Transport W} `{irc.Codec}.

(** A hook is a Go function of a [*Client] and an [irc.Message] without
    result: it may change the client it is handed and act on the world.
    The calls followed here are those that return: a hook that panics or
    never returns ends the loop with it. *)
Definition Hook : Type := irc.Message -> Client * W -> Client * W.

(** The package variable [Hooks]. *)
Variable Hooks : list Hook.

(** [SetTimeoutTime] *)
Definition SetTimeoutTime (d : Z) : M W unit :=
  modify_client (set_timeoutTime d).

(** [Close] *)
Definition Close : M W (option error) :=
  modify_client (set_registered false) ;;
  modify_client (set_rw None) ;;
  c <- get_client ;;
  match conn c with
  | Some cn =>
      err <- call (EvConnClose cn) (conn_Close cn) ;;
      modify_client (set_conn None) ;;
      ret err
  | None => ret None
  end.

(** [fmt.Sprintf("%s:%d", c.host, c.port)] *)
Definition address (c : Client) : string :=
  host c ++ ":" ++ NilZero.string_of_int (Z.to_int (port c)).

(** [Connect]: both branches dial, keep the connection and wrap it. *)
Definition Connect : M W (option error) :=
  c <- get_client ;;
  r <- call (EvDial (tls c) (address c))
            (net_Dial timeoutConnect keepAliveDuration (tls c) (address c)) ;;
  match r with
  | (_, Some err) => ret (Some err)
  | (cn, None) =>
      modify_client (set_conn (Some cn)) ;;
      b <- call (EvNewReadWriter cn) (bufio_NewReadWriter cn) ;;
      modify_client (set_rw (Some b)) ;;
      ret None
  end.

(** [read] *)
Definition read : M W (string * option error) :=
  c <- get_client ;;
  cn <- deref (conn c) ;;
  e <- call (EvSetDeadline cn (timeoutTime c))
            (conn_SetDeadline cn (timeoutTime c)) ;;
  match e with
  | Some err =>
      ret ("", Some (errorString ("unable to set deadline: " ++ Error err)))
  | None =>
      b <- deref (rw c) ;;
      r <- call (EvReadString b LF) (rw_ReadString b LF) ;;
      match r with
      | (_, Some err) => ret ("", Some err)
      | (line, None) =>
          note (EvLog ("Read: " ++ TrimRight line CRLF)) ;;
          ret (line, None)
      end
  end.

(** [ReadMessage] *)
Definition ReadMessage : M W (irc.Message * option error) :=
  r <- read ;;
  match r with
  | (_, Some err) => ret (irc.zeroMessage, Some err)
  | (buf, None) =>
      p <- call (EvParseMessage buf) (fun w => (irc.ParseMessage buf, w)) ;;
      match p with
      | (m, Some err) =>
          if decide (err = ErrTruncated) then ret (m, None)
          else ret (irc.zeroMessage,
                    Some (errorString ("unable to parse message: " ++ buf
                                       ++ ": " ++ Error err)))
      | (m, None) => ret (m, None)
      end
  end.

(** [write] *)
Definition write (s : string) : M W (option error) :=
  c <- get_client ;;
  cn <- deref (conn c) ;;
  e <- call (EvSetDeadline cn (timeoutTime c))
            (conn_SetDeadline cn (timeoutTime c)) ;;
  match e with
  | Some err =>
      ret (Some (errorString ("unable to set deadline: " ++ Error err)))
  | None =>
      b <- deref (rw c) ;;
      r <- call (EvWriteString b s) (rw_WriteString b s) ;;
      match r with
      | (_, Some err) => ret (Some err)
      | (sz, None) =>
          if negb (sz =? len s) then ret (Some (errorString "short write"))
          else
            e <- call (EvFlush b) (rw_Flush b) ;;
            match e with
            | Some err =>
                ret (Some (errorString ("flush error: " ++ Error err)))
            | None =>
                note (EvLog ("Sent: " ++ TrimRight s CRLF)) ;;
                ret None
            end
      end
  end.

(** [WriteMessage] *)
Definition WriteMessage (m : irc.Message) : M W (option error) :=
  r <- call (EvEncode m) (fun w => (irc.Encode m, w)) ;;
  match r with
  | (buf, Some err) =>
      if decide (err = ErrTruncated) then write buf
      else ret (Some (errorString ("unable to encode message: "
                                   ++ Error err)))
  | (buf, None) => write buf
  end.

(** [IsConnected], [SetRegistered], [IsRegistered], [GetNick] *)
Definition IsConnected (c : Client) : bool :=
  match conn c with Some _ => true | None => false end.

Definition SetRegistered : M W unit := modify_client (set_registered true).

Definition IsRegistered (c : Client) : bool := registered c.

Definition GetNick (c : Client) : string := nick c.

(** [Nick] *)
Definition Nick : M W (option error) :=
  c <- get_client ;;
  e <- WriteMessage (irc.mkMessage "NICK" [nick c]) ;;
  match e with
  | Some err => ret (Some (errorString ("failed to send NICK: " ++ Error err)))
  | None => ret None
  end.

(** [User] *)
Definition User : M W (option error) :=
  c <- get_client ;;
  e <- WriteMessage (irc.mkMessage "USER" [ident c; "0"; "*"; name c]) ;;
  match e with
  | Some err => ret (Some (errorString ("failed to send USER: " ++ Error err)))
  | None => ret None
  end.

(** [Register] *)
Definition Register : M W (option error) :=
  e <- Nick ;;
  match e with
  | Some err => ret (Some err)
  | None => User
  end.

(** [Pong]: [ping.Params[0]] panics on an empty parameter list. *)
Definition Pong (ping : irc.Message) : M W (option error) :=
  match irc.Params ping !! 0%nat with
  | Some p => WriteMessage (irc.mkMessage "PONG" [p])
  | None => panic "index out of range [0] with length 0"
  end.

(** [Join], [Quit], [Oper], [UserMode] *)
Definition Join (name : string) : M W (option error) :=
  WriteMessage (irc.mkMessage "JOIN" [name]).

Definition Quit (message : string) : M W (option error) :=
  WriteMessage (irc.mkMessage "QUIT" [message]).

Definition Oper (name password : string) : M W (option error) :=
  WriteMessage (irc.mkMessage "OPER" [name; password]).

Definition UserMode (nick modes : string) : M W (option error) :=
  WriteMessage (irc.mkMessage "MODE" [nick; modes]).

(** [Message].  [maxMessage] and [overhead] are the locals of the
    function; the [for] loop runs on fuel, one unit for each test of its
    condition. *)
Definition maxMessage : Z := 412.

Definition overhead : Z :=
  int_add (int_add (len "PRIVMSG ") (len " :")) (len CRLF).

Fixpoint Message_for (fuel : nat) (target message : string) (i : Z)
  : M W (option error) :=
  match fuel with
  | O => out_of_fuel
  | S fuel' =>
      if i <? len message then
        let endIndex := int_sub (int_add i maxMessage) overhead in
        let endIndex :=
          if endIndex >? len message then len message else endIndex in
        match slice message i endIndex with
        | None => panic "slice bounds out of range"
        | Some piece =>
            e <- WriteMessage (irc.mkMessage "PRIVMSG" [target; piece]) ;;
            match e with
            | Some _ => ret None
            | None =>
                Message_for fuel' target message
                  (int_add i (int_sub maxMessage overhead))
            end
        end
      else ret None
  end.

Definition Message (target message : string) : M W (option error) :=
  Message_for (S (String.length message)) target message 0.

(** [hooks]: the [range] over [Hooks], each call recorded with the index
    of the hook. *)
Definition call_hook (i : nat) (hook : Hook) (message : irc.Message)
  : M W unit :=
  fun s =>
    let (c, w) := hook message (client s, world s) in
    (Ret tt, {| client := c; world := w;
                trace := trace s ++ [EvHook i message] |}).

Fixpoint range_hooks (i : nat) (hs : list Hook) (message : irc.Message)
  : M W unit :=
  match hs with
  | [] => ret tt
  | hook :: rest =>
      call_hook i hook message ;; range_hooks (S i) rest message
  end.

Definition hooks (message : irc.Message) : M W unit :=
  range_hooks 0 Hooks message.

(** [Loop].  One turn of the [for] either goes on to the next turn or
    leaves the function with its result. *)
Inductive Flow : Type :=
| Next
| Return (e : option error).

(** What a turn does with the frame it has read: the reply to a probe, the
    end on [ERROR], the hooks. *)
Definition Loop_frame (msg : irc.Message) : M W Flow :=
  e <- (if String.eqb (irc.Command msg) "PING" then Pong msg
        else ret None) ;;
  match e with
  | Some err => ret (Return (Some err))
  | None =>
      if String.eqb (irc.Command msg) "ERROR"
      then (e <- Close ;; ret (Return e))
      else (hooks msg ;; ret Next)
  end.

Definition Loop_body : M W Flow :=
  r <- ReadMessage ;;
  match r with
  | (_, Some err) => ret (Return (Some err))
  | (msg, None) => Loop_frame msg
  end.

Fixpoint Loop (fuel : nat) : M W (option error) :=
  match fuel with
  | O => out_of_fuel
  | S fuel' =>
      f <- Loop_body ;;
      match f with
      | Return e => ret e
      | Next => Loop fuel'
      end
  end.

End Client.

Arguments Hook W : clear implicits.

(** ** Reading a trace *)

(** The frames handed to the codec for sending, oldest first. *)
Definition frames_sent (tr : list Event) : list irc.Message :=
  omap (fun e => match e with EvEncode m => Some m | _ => None end) tr.

(** The hooks called, by index, with the frame each one was given. *)
Definition hook_calls (tr : list Event) : list (nat * irc.Message) :=
  omap (fun e => match e with EvHook i m => Some (i, m) | _ => None end) tr.

(** The connections closed and the lines asked from the reader. *)
Definition closes (tr : list Event) : list Conn :=
  omap (fun e => match e with EvConnClose c => Some c | _ => None end) tr.

Definition reads (tr : list Event) : list ReadWriter :=
  omap (fun e => match e with EvReadString b _ => Some b | _ => None end) tr.

(** Events that are no send of a frame, no call of a hook, no close and
    no read: the deadlines, writes, flushes and log lines of a send. *)
Definition quiet (d : list Event) : Prop :=
  frames_sent d = [] /\ hook_calls d = [] /\ closes d = [] /\ reads d = [].

(** The calls of all hooks, in the order of the slice, with one frame. *)
Definition hook_events {W} (hs : list (Hook W)) (m : irc.Message)
  : list Event :=
  map (fun i => EvHook i m) (seq 0 (length hs)).

(** [sub] occurs in [s]. *)
Definition includes (sub s : string) : Prop :=
  exists before after, s = before ++ sub ++ after.

(** ** The pieces of a long message *)

(** The room left for the text of one line: 412 - 12 bytes. *)
Definition room : nat := 400.

Definition ceil_div (a b : nat) : nat := ((a + (b - 1)) / b)%nat.

(** Piece number [j], counted from 0, is the bytes from [400 * j] up to
    [400 * (j + 1)], or up to the end of the message. *)
Definition piece_at (message : string) (j : nat) : string :=
  substring (room * j) room message.

Definition pieces (message : string) : list string :=
  map (piece_at message) (seq 0 (ceil_div (String.length message) room)).

(** The pieces put together again, first to last. *)
Definition concat_all (ps : list string) : string :=
  fold_right String.append "" ps.

Definition privmsg (target piece : string) : irc.Message :=
  irc.mkMessage "PRIVMSG" [target; piece].

(** Modelled from the spec: the full line of a PRIVMSG frame, command,
    target, chunk and framing, before the limit on a line applies;
    [Message.Encode] of package [irc], which builds the line, is not part
    of this repository. *)
Definition wire_line (target chunk : string) : string :=
  "PRIVMSG " ++ target ++ " :" ++ chunk ++ CRLF.

(** The hard limit of the protocol on a line. *)
Definition MaxLineLength : Z := 512.


Section Sending.
Context {W : Type} `{Transport W} `{irc.Codec}.

(** Sending the pieces one after the other, giving up at the first one
    that does not go out and reporting nothing. *)
Fixpoint send_in_order (target : string) (ps : list string)
  : M W (option error) :=
  match ps with
  | [] => ret None
  | piece :: rest =>
      e <- WriteMessage (privmsg target piece) ;;
      match e with
      | Some _ => ret None
      | None => send_in_order target rest
      end
  end.

(** The index of the first piece whose send does not return nil, when the
    pieces are sent in order from state [s]. *)
Fixpoint first_failure (target : string) (ps : list string) (s : State W)
  : option nat :=
  match ps with
  | [] => None
  | piece :: rest =>
      match WriteMessage (privmsg target piece) s with
      | (Ret None, s') => S <$> first_failure target rest s'
      | _ => Some 0%nat
      end
  end.

(** How far the sending gets: up to and with the first piece that fails,
    or through all of them. *)
Definition attempted (target : string) (ps : list string) (s : State W)
  : nat :=
  match first_failure target ps s with
  | Some j => S j
  | None => length ps
  end.

End Sending.

(** ** A scripted world and a small codec, to run the client on examples *)

Module Scripted.

(** The server's lines still to come, what reached the writer, how many
    writes go through before the link breaks, what [Close] answers, the
    next free handle. *)
Record Wire : Type := mkWire {
  inbox : list string;
  outbox : list string;
  writes_left : nat;
  close_answer : option error;
  next_handle : nat
}.

#[global] Instance transport : Transport Wire := {
  net_Dial _ _ _ _ w :=
    ((next_handle w, None),
     mkWire (inbox w) (outbox w) (writes_left w) (close_answer w)
            (S (next_handle w)));
  bufio_NewReadWriter cn w := (cn, w);
  conn_SetDeadline _ _ w := (None, w);
  conn_Close _ w := (close_answer w, w);
  rw_ReadString _ _ w :=
    match inbox w with
    | [] => (("", Some (errorString "EOF")), w)
    | line :: rest =>
        ((line, None),
         mkWire rest (outbox w) (writes_left w) (close_answer w)
                (next_handle w))
    end;
  rw_WriteString _ s w :=
    match writes_left w with
    | O => ((0, Some (errorString "broken pipe")), w)
    | S n =>
        ((len s, None),
         mkWire (inbox w) (outbox w ++ [s]) n (close_answer w)
                (next_handle w))
    end;
  rw_Flush _ w := (None, w)
}.

(** Words separated by single spaces; after [" :"] the rest is one word. *)
Fixpoint fields (s word : string) : list string :=
  match s with
  | EmptyString => [word]
  | String " " (String ":" rest) => [word; rest]
  | String " " rest => word :: fields rest ""
  | String a rest => fields rest (word ++ String a "")
  end.

Fixpoint unwords (ws : list string) : string :=
  match ws with
  | [] => ""
  | [w] => " :" ++ w
  | w :: rest => " " ++ w ++ unwords rest
  end.

#[global] Instance codec : irc.Codec := {
  irc.ParseMessage line :=
    match fields (TrimRight line CRLF) "" with
    | command :: params =>
        if String.eqb command ""
        then (irc.zeroMessage, Some (errorString "no command"))
        else (irc.mkMessage command params,
              if MaxLineLength <? len line then Some ErrTruncated else None)
    | [] => (irc.zeroMessage, Some (errorString "no command"))
    end;
  irc.Encode m :=
    if String.eqb (irc.Command m) ""
    then ("", Some (errorString "no command"))
    else
      let line := irc.Command m ++ unwords (irc.Params m) ++ CRLF in
      (line, if MaxLineLength <? len line then Some ErrTruncated else None);
  irc.ErrTruncatedText := "message truncated"
}.

(** The codec of the examples with the cut at the limit: a line over the
    limit keeps its first 510 bytes and the line end. *)
Definition cutting : irc.Codec := {|
  irc.ParseMessage := irc.ParseMessage (Codec := codec);
  irc.Encode m :=
    let r := irc.Encode (Codec := codec) m in
    if MaxLineLength <? len (fst r)
    then (substring 0 510 (fst r) ++ CRLF, Some ErrTruncated)
    else r;
  irc.ErrTruncatedText := irc.ErrTruncatedText (Codec := codec)
|}.

(** A client with a connection, in a world with [lines] to read and
    [budget] writes that succeed. *)
Definition connected (lines : list string) (budget : nat)
  (answer : option error) : State Wire :=
  {| client :=
       set_rw (Some 0%nat)
         (set_conn (Some 0%nat)
            (New "godrop" "Godrop Bot" "bot" "irc.example.com" 6667 false));
     world := mkWire lines [] budget answer 1;
     trace := [] |}.

(** A hook that writes down in the world the command of what it sees, and
    one that marks the client as registered. *)
Definition recorder (tag : string) : Hook Wire :=
  fun m cw =>
    let w := snd cw in
    (fst cw,
     mkWire (inbox w) (outbox w ++ [tag ++ irc.Command m]) (writes_left w)
            (close_answer w) (next_handle w)).

Definition registrar : Hook Wire :=
  fun _ cw => (set_registered true (fst cw), snd cw).

(** [n] times the byte [a]. *)
Fixpoint bytes (n : nat) (a : ascii) : string :=
  match n with
  | O => ""
  | S n' => String a (bytes n' a)
  end.

(** Lines of the server and bodies to send, for the examples. *)
Definition ping_line : string := "PING :xyz123" ++ CRLF.
Definition bare_ping_line : string := "PING" ++ CRLF.
Definition notice_line : string :=
  "NOTICE * :*** Looking up your hostname" ++ CRLF.
Definition error_line : string := "ERROR :Closing Link" ++ CRLF.
Definition long_line : string := "NOTICE * :" ++ bytes 600 "y" ++ CRLF.
Definition blank_line : string := CRLF.
Definition long_body : string := bytes 801 "x".
Definition long_target : string := bytes 101 "a".
Definition full_chunk : string := bytes 400 "b".

Definition two_hooks : list (Hook Wire) := [recorder "saw "; registrar].

End Scripted.

(** ** More ways to read a trace *)

(** The lines handed to the codec for decoding, oldest first. *)
Definition parsed (tr : list Event) : list string :=
  omap (fun e => match e with EvParseMessage l => Some l | _ => None end) tr.

(** The lines handed to the writer of the connection, oldest first. *)
Definition written (tr : list Event) : list string :=
  omap (fun e => match e with EvWriteString _ l => Some l | _ => None end) tr.

(** The calls on the connection and the log: what [read] and [write] do. *)
Definition on_wire (e : Event) : bool :=
  match e with
  | EvSetDeadline _ _ | EvReadString _ _ | EvWriteString _ _ | EvFlush _
  | EvLog _ => true
  | _ => false
  end.

(** The hook calls that come from handing each of the frames [ms], one
    after the other, to every hook of [hs]. *)
Definition dispatches {W} (hs : list (Hook W)) (ms : list irc.Message)
  : list (nat * irc.Message) :=
  concat (map (fun m => map (fun i => (i, m)) (seq 0 (length hs))) ms).

(** The reply the loop owes to a frame: a PONG with the first parameter
    of a PING. *)
Definition pong_of (m : irc.Message) : option irc.Message :=
  if String.eqb (irc.Command m) "PING"
  then match irc.Params m with
       | p :: _ => Some (irc.mkMessage "PONG" [p])
       | [] => None
       end
  else None.

(** The reply the loop owes to a line: that of its frame, when the line
    decodes, if only in part. *)
Definition answer_of `{irc.Codec} (line : string) : option irc.Message :=
  match irc.ParseMessage line with
  | (m, None) => pong_of m
  | (m, Some err) => if decide (err = ErrTruncated) then pong_of m else None
  end.

(** What a call on a nil handle panics with. *)
Definition nil_dereference : string :=
  "invalid memory address or nil pointer dereference".

(** * The hooks of the repository *)

(** Package [strings], as far as the hooks use it. *)
Class Strings : Type := {
  (** [strings.Fields(s)] *)
  strings_Fields : string -> list string;
  (** [strings.ToLower(s)] *)
  strings_ToLower : string -> string;
  (** [strings.TrimSpace(s)] *)
  strings_TrimSpace : string -> string
}.

(** [l[i]] on a slice of strings: out of range it panics. *)
Definition index {W} (l : list string) (i : nat) : M W string :=
  match l !! i with
  | Some x => ret x
  | None => panic "index out of range"
  end.

(** ** Package [oper]: becoming an operator *)

Module oper.

(** [irc.ReplyWelcome] and [irc.ReplyYoureOper], numerics of package
    [irc]. *)
Class Replies : Type := {
  ReplyWelcome : string;
  ReplyYoureOper : string
}.

Section Hook.
Context {W : Type} `{Transport W} `{irc.Codec} `{Replies}.

(** [sendUmode] *)
Definition sendUmode : M W (option error) :=
  c <- get_client ;;
  match Config c !! "oper-umodes" with
  | None => ret None
  | Some operUmodes =>
      e <- UserMode (GetNick c) operUmodes ;;
      match e with
      | Some err => ret (Some err)
      | None => note (EvLog "Sent MODE") ;; ret None
      end
  end.

(** [Hook] *)
Definition Hook (message : irc.Message) : M W unit :=
  if String.eqb (irc.Command message) ReplyWelcome then
    c <- get_client ;;
    match Config c !! "oper-name" with
    | None => ret tt
    | Some operName =>
        match Config c !! "oper-password" with
        | None => ret tt
        | Some operPass =>
            if (len operName =? 0) || (len operPass =? 0) then ret tt
            else
              e <- Oper operName operPass ;;
              match e with
              | Some err =>
                  note (EvLog ("Unable to send OPER: " ++ Error err)) ;;
                  ret tt
              | None => note (EvLog "Sent OPER") ;; ret tt
              end
        end
    end
  else if String.eqb (irc.Command message) ReplyYoureOper then
    e <- sendUmode ;;
    match e with
    | Some err =>
        note (EvLog ("Problem sending MODE: " ++ Error err)) ;; ret tt
    | None => ret tt
    end
  else ret tt.

End Hook.

End oper.

(** ** Package [recordips]: keeping the addresses of connecting users *)

Module recordips.

(** [cidrlist.RecordIP(file, ip, comment, time.Now())] of package
    [iptables-manage/cidrlist]. *)
Class CidrList (W : Type) : Type := {
  cidrlist_RecordIP : string -> string -> string -> W -> option error * W
}.

Section Hook.
Context {W : Type} `{CidrList W} `{irc.Codec} `{Strings}.

(** A call to [cidrlist]: the world answers and changes. *)
Definition outside {A} (op : W -> A * W) : M W A :=
  fun s =>
    let (a, w) := op (world s) in
    (Ret a, {| client := client s; world := w; trace := trace s |}).

(** [Hook] *)
Definition Hook (message : irc.Message) : M W unit :=
  if negb (String.eqb (irc.Command message) "NOTICE") then ret tt
  else if negb (Z.of_nat (length (irc.Params message)) =? 2) then ret tt
  else
    notice <- index (irc.Params message) 1 ;;
    let noticePieces := strings_Fields notice in
    if Z.of_nat (length noticePieces) <? 8 then ret tt
    else
      kind <- index noticePieces 3 ;;
      if negb (String.eqb kind "CLICONN") then ret tt
      else
        c <- get_client ;;
        match Config c !! "record-ip-file" with
        | None => ret tt
        | Some ipFile =>
            nick <- index noticePieces 4 ;;
            ip <- index noticePieces 7 ;;
            let comment := "IRC: " ++ nick in
            e <- outside (cidrlist_RecordIP ipFile ip comment) ;;
            match e with
            | Some err =>
                note (EvLog ("recordips: Unable to record IP: "
                             ++ Error err)) ;;
                ret tt
            | None =>
                note (EvLog ("recordips: Recorded IP: " ++ ip ++ " ("
                             ++ nick ++ ")")) ;;
                ret tt
            end
        end.

End Hook.

End recordips.

(** ** Package [twitchstreams]: the users to look up *)

Module twitchstreams.

Section Users.
Context `{Strings}.

(** The inner loop of [getDefaultUsers]: is [u] among [users]? *)
Definition have (users : list string) (u : string) : bool :=
  fold_left (fun have u2 => if String.eqb u2 u then true else have)
            users false.

(** [getDefaultUsers]: a missing key reads as the empty string. *)
Definition getDefaultUsers (config : gmap string string) : list string :=
  fold_left
    (fun users u =>
       let u := strings_ToLower (strings_TrimSpace u) in
       if String.eqb u "" then users
       else if negb (have users u) then (users ++ [u])%list
       else users)
    (strings_Fields (default "" (config !! "twitchstreams-users")))
    [].

End Users.

(** *** Looking streams up *)

(** What [json.Unmarshal] stores in an [interface{}]. *)
#[warnings="-register-all"]
Inductive JSON : Type :=
| JNull
| JBool (b : bool)
| JNumber (f : Z)
| JString (s : string)
| JArray (l : list JSON)
| JObject (m : gmap string JSON).

(** [Stream] *)
Record Stream : Type := mkStream { Title : string }.

(** An instant, as the clock names it. *)
Definition Time : Type := Z.

(** An [*http.Response], as far as [get] looks into it. *)
Record Response : Type := mkResponse {
  StatusCode : Z;
  Status : string;
  Body : nat
}.

(** What the package calls outside: the clock, [regexp], [net/url],
    [net/http], [io/ioutil] and [encoding/json]. *)
Class Outside (W : Type) : Type := {
  (** [time.Now()] *)
  time_Now : W -> Time * W;
  (** [t.Sub(u)] *)
  time_Sub : Time -> Time -> Z;
  (** [time.Time{}] *)
  zeroTime : Time;
  (** [triggerRE.FindStringSubmatch(text)]: nil, or the match and its
      groups *)
  triggerRE_FindStringSubmatch : string -> option (list string);
  (** [vals.Encode()] for the values set in [vals] *)
  url_Encode : list (string * string) -> string;
  (** [http.NewRequest(method, url, nil)]: its error *)
  http_NewRequest : string -> string -> option error;
  (** [client.Do(req)]: the client's [Timeout], the url and the
      [Client-ID] header of the request *)
  client_Do : Z -> string -> string -> W -> (Response * option error) * W;
  (** [ioutil.ReadAll(resp.Body)] *)
  ioutil_ReadAll : nat -> W -> (string * option error) * W;
  (** [resp.Body.Close()] *)
  Body_Close : nat -> W -> option error * W;
  (** [json.Unmarshal(buf, &m)] for [m] a [map[string]interface{}] *)
  json_Unmarshal : string -> gmap string JSON * option error
}.

(** The calls to the clock and the web, as they are kept. *)
Inductive WebCall : Type :=
| CallNow
| CallDo (url clientID : string)
| CallReadAll (body : nat)
| CallClose (body : nat).

(** The variables of the package: [client] (nil, or a client with its
    [Timeout]), [usernameStreaming], [lastPollTime]. *)
Record Globals : Type := mkGlobals {
  http_client : option Z;
  usernameStreaming : gmap string bool;
  lastPollTime : Time
}.

Definition durationBetweenPolls : Z := 10 * minute.

Section Streams.
Context {W : Type} `{Transport W} `{irc.Codec} `{Strings} `{Outside W}.

(** The package runs on its variables, the state of the client it is
    handed, and the calls it has made. *)
Record Prog : Type := mkProg {
  globals : Globals;
  core : State W;
  web : list WebCall
}.

Definition T (A : Type) : Type := Prog -> Res A * Prog.

Definition tret {A} (a : A) : T A := fun p => (Ret a, p).

Definition tbind {A B} (m : T A) (k : A -> T B) : T B :=
  fun p =>
    match m p with
    | (Ret a, p') => k a p'
    | (Panic why, p') => (Panic why, p')
    | (OutOfFuel, p') => (OutOfFuel, p')
    end.

(** A method of the client, or a line for the log. *)
Definition lift {A} (m : M W A) : T A :=
  fun p =>
    let (r, s) := m (core p) in
    (r, {| globals := globals p; core := s; web := web p |}).

Definition get_globals : T Globals := fun p => (Ret (globals p), p).

Definition put_globals (g : Globals) : T unit :=
  fun p => (Ret tt, {| globals := g; core := core p; web := web p |}).

(** A call to the clock or the web: kept, then answered by the world. *)
Definition web_call {A} (e : WebCall) (op : W -> A * W) : T A :=
  fun p =>
    let (a, w) := op (world (core p)) in
    (Ret a,
     {| globals := globals p;
        core := {| client := client (core p); world := w;
                   trace := trace (core p) |};
        web := web p ++ [e] |}).

End Streams.

Arguments Prog W : clear implicits.
Arguments T W A : clear implicits.

Declare Scope twitch_scope.
Notation "x <- m ;; k" := (tbind m (fun x => k))
  (at level 100, m at next level, right associativity) : twitch_scope.
Notation "m ;; k" := (tbind m (fun _ => k))
  (at level 100, right associativity) : twitch_scope.

Section Lookup.
Context {W : Type} `{Transport W} `{irc.Codec} `{Strings} `{Outside W}.
Local Open Scope twitch_scope.

(** [c.Config[key]]: a missing key reads as the empty string. *)
Definition config (c : Client) (key : string) : string :=
  default "" (Config c !! key).

(** [get] *)
Definition get (clientID url : string)
  : T W (gmap string JSON * option error) :=
  if String.eqb clientID "" || String.eqb url ""
  then tret (∅, Some (errorString "missing client ID or url"))
  else
    match http_NewRequest "GET" url with
    | Some err =>
        tret (∅, Some (errorString ("error creating HTTP request: "
                                    ++ Error err)))
    | None =>
        g <- get_globals ;;
        timeout <-
          match http_client g with
          | Some timeout => tret timeout
          | None =>
              put_globals
                {| http_client := Some (30 * second);
                   usernameStreaming := usernameStreaming g;
                   lastPollTime := lastPollTime g |} ;;
              tret (30 * second)
          end ;;
        r <- web_call (CallDo url clientID) (client_Do timeout url clientID) ;;
        match r with
        | (_, Some err) =>
            tret (∅, Some (errorString ("error performing HTTP request: "
                                        ++ Error err)))
        | (resp, None) =>
            b <- web_call (CallReadAll (Body resp))
                          (ioutil_ReadAll (Body resp)) ;;
            match b with
            | (_, Some err) =>
                web_call (CallClose (Body resp)) (Body_Close (Body resp)) ;;
                tret (∅, Some (errorString ("error reading response body: "
                                            ++ Error err)))
            | (buf, None) =>
                e <- web_call (CallClose (Body resp))
                              (Body_Close (Body resp)) ;;
                match e with
                | Some err =>
                    tret (∅, Some (errorString
                                     ("error closing response body: "
                                      ++ Error err)))
                | None =>
                    if negb (StatusCode resp =? 200)
                    then tret (∅, Some (errorString
                                          ("unsuccessful request: "
                                           ++ Status resp ++ ": " ++ buf)))
                    else
                      match json_Unmarshal buf with
                      | (_, Some err) =>
                          tret (∅, Some (errorString
                                           ("error unmarshaling response: "
                                            ++ Error err)))
                      | (m, None) => tret (m, None)
                      end
                end
            end
        end
    end.

(** The loop of [getStreams] over the elements of [data]. *)
Fixpoint titles (data : list JSON) (streams : list Stream)
  : list Stream * option error :=
  match data with
  | [] => (streams, None)
  | si :: rest =>
      match si with
      | JObject s =>
          match s !! "title" with
          | None => ([], Some (errorString "stream title is not present"))
          | Some (JString title) =>
              titles rest (streams ++ [mkStream title])
          | Some _ =>
              ([], Some (errorString "stream title is not a string"))
          end
      | _ =>
          ([], Some (errorString "stream object is not the expected type"))
      end
  end.

(** [getStreams] *)
Definition getStreams (clientID username : string)
  : T W (list Stream * option error) :=
  let clientID := strings_TrimSpace clientID in
  if String.eqb clientID ""
  then tret ([], Some (errorString "no client ID given"))
  else
    let username := strings_ToLower (strings_TrimSpace username) in
    if String.eqb username ""
    then tret ([], Some (errorString "no username given"))
    else
      let u := "https://api.twitch.tv/helix/streams?"
               ++ url_Encode [("user_login", username)] in
      r <- get clientID u ;;
      match r with
      | (_, Some err) =>
          tret ([], Some (errorString ("error looking up streams: "
                                       ++ Error err)))
      | (resp, None) =>
          match resp !! "data" with
          | None =>
              tret ([], Some (errorString "response is missing data key"))
          | Some (JArray data) => tret (titles data [])
          | Some _ =>
              tret ([], Some (errorString "data is not the expected type"))
          end
      end.

(** The inner loop of [outputStreams] and of [pollStreams]: one message
    for every stream. *)
Fixpoint say_streaming (target username : string) (streams : list Stream)
  : T W unit :=
  match streams with
  | [] => tret tt
  | stream :: rest =>
      lift (Message target (username ++ " is streaming: " ++ Title stream)) ;;
      say_streaming target username rest
  end.

(** [outputStreams] *)
Fixpoint outputStreams (target : string) (usernames : list string)
  : T W unit :=
  match usernames with
  | [] => tret tt
  | username :: rest =>
      c <- lift get_client ;;
      r <- getStreams (config c "twitchstreams-client-id") username ;;
      match r with
      | (_, Some err) =>
          lift (Message target ("error retrieving streams for " ++ username
                                ++ ": " ++ Error err)) ;;
          tret tt
      | (streams, None) =>
          if Z.of_nat (length streams) =? 0
          then
            lift (Message target (username ++ " is not streaming")) ;;
            outputStreams target rest
          else
            say_streaming target username streams ;;
            outputStreams target rest
      end
  end.

(** [triggerTwitch] *)
Definition triggerTwitch (target args : string) : T W unit :=
  if negb (String.eqb args "")
  then outputStreams target (strings_Fields args)
  else
    c <- lift get_client ;;
    outputStreams target (getDefaultUsers (Config c)).

(** [usernameStreaming[username] = b] *)
Definition set_streaming (username : string) (b : bool) : T W unit :=
  g <- get_globals ;;
  put_globals {| http_client := http_client g;
                 usernameStreaming := <[username := b]> (usernameStreaming g);
                 lastPollTime := lastPollTime g |}.

(** The loop of [pollStreams] over the channels. *)
Fixpoint notify (channels : list string) (username : string)
    (streams : list Stream) : T W unit :=
  match channels with
  | [] => tret tt
  | ch :: rest =>
      say_streaming ch username streams ;;
      notify rest username streams
  end.

(** The loop of [pollStreams] over the users. *)
Fixpoint poll_users (users : list string) : T W unit :=
  match users with
  | [] => tret tt
  | username :: rest =>
      c <- lift get_client ;;
      r <- getStreams (config c "twitchstreams-client-id") username ;;
      match r with
      | (_, Some err) =>
          lift (note (EvLog ("error retrieving streams for " ++ username
                             ++ ": " ++ Error err))) ;;
          tret tt
      | (streams, None) =>
          if Z.of_nat (length streams) =? 0
          then set_streaming username false ;; poll_users rest
          else
            g <- get_globals ;;
            match usernameStreaming g !! username with
            | None => set_streaming username true ;; poll_users rest
            | Some true => poll_users rest
            | Some false =>
                set_streaming username true ;;
                c <- lift get_client ;;
                notify (strings_Fields (config c "twitchstreams-channels"))
                       username streams ;;
                poll_users rest
            end
      end
  end.

(** [pollStreams] *)
Definition pollStreams : T W unit :=
  now <- web_call CallNow time_Now ;;
  g <- get_globals ;;
  if time_Sub now (lastPollTime g) <? durationBetweenPolls then tret tt
  else
    put_globals {| http_client := http_client g;
                   usernameStreaming := usernameStreaming g;
                   lastPollTime := now |} ;;
    c <- lift get_client ;;
    poll_users (getDefaultUsers (Config c)).

(** [Hook] *)
Definition Hook (m : irc.Message) : T W unit :=
  pollStreams ;;
  if negb (String.eqb (irc.Command m) "PRIVMSG") then tret tt
  else
    target <- lift (index (irc.Params m) 0) ;;
    text <- lift (index (irc.Params m) 1) ;;
    match triggerRE_FindStringSubmatch text with
    | Some matches =>
        args <-
          (if 1 <? Z.of_nat (length matches)
           then (x <- lift (index matches 1) ;;
                 tret (strings_ToLower (strings_TrimSpace x)))
           else tret "") ;;
        triggerTwitch target args
    | None => tret tt
    end.

(** The variables of the package when the program starts. *)
Definition start : Globals :=
  {| http_client := None; usernameStreaming := ∅; lastPollTime := zeroTime |}.

End Lookup.

End twitchstreams.

(** ** Reading what [twitchstreams] did *)

Section TwitchReading.
Context {W : Type}.

(** The state after [get] has made its request: the package holds a
    client, the world is [w], and the calls [d] have been made. *)
Definition after_get (p : twitchstreams.Prog W) (w : W)
    (d : list twitchstreams.WebCall) : twitchstreams.Prog W :=
  {| twitchstreams.globals :=
       {| twitchstreams.http_client :=
            Some (default (30 * second)
                    (twitchstreams.http_client (twitchstreams.globals p)));
          twitchstreams.usernameStreaming :=
            twitchstreams.usernameStreaming (twitchstreams.globals p);
          twitchstreams.lastPollTime :=
            twitchstreams.lastPollTime (twitchstreams.globals p) |};
     twitchstreams.core :=
       {| client := client (twitchstreams.core p); world := w;
          trace := trace (twitchstreams.core p) |};
     twitchstreams.web := (twitchstreams.web p ++ d)%list |}.

(** What an answer to a request in [target] may do: [p'] differs from [p]
    by chat lines to [target] at most; the record of who is streaming, the
    time of the last poll and the client are those of [p]. *)
Definition answers (target : string) (p p' : twitchstreams.Prog W) : Prop :=
  twitchstreams.usernameStreaming (twitchstreams.globals p')
  = twitchstreams.usernameStreaming (twitchstreams.globals p) /\
  twitchstreams.lastPollTime (twitchstreams.globals p')
  = twitchstreams.lastPollTime (twitchstreams.globals p) /\
  client (twitchstreams.core p') = client (twitchstreams.core p) /\
  exists texts,
    frames_sent (trace (twitchstreams.core p'))
    = (frames_sent (trace (twitchstreams.core p))
       ++ map (privmsg target) texts)%list.

End TwitchReading.

(** An element of [data] that [getStreams] accepts, and its title. *)
Definition stream_of (si : twitchstreams.JSON) (title : string) : Prop :=
  exists obj, si = twitchstreams.JObject obj /\
              obj !! "title" = Some (twitchstreams.JString title).

(** ** Examples for the hooks *)

Module ScriptedHooks.

Import Scripted.

#[global] Instance replies : oper.Replies := {
  oper.ReplyWelcome := "001";
  oper.ReplyYoureOper := "381"
}.

(** The white space of ASCII. *)
Definition is_space (a : ascii) : bool :=
  contains_byte (String " " (String "009" (String "010" (String "011"
                  (String "012" (String "013" EmptyString)))))) a.

(** The fields of a line of ASCII: [word] is the field being read. *)
Fixpoint ascii_fields (s word : string) : list string :=
  match s with
  | EmptyString => if String.eqb word "" then [] else [word]
  | String a rest =>
      if is_space a
      then (if String.eqb word "" then ascii_fields rest ""
            else word :: ascii_fields rest "")
      else ascii_fields rest (word ++ String a "")
  end.

Definition ascii_lower (a : ascii) : ascii :=
  let n := nat_of_ascii a in
  if (65 <=? n)%nat && (n <=? 90)%nat then ascii_of_nat (n + 32) else a.

Fixpoint lower (s : string) : string :=
  match s with
  | EmptyString => EmptyString
  | String a rest => String (ascii_lower a) (lower rest)
  end.

Fixpoint trim_left (s : string) : string :=
  match s with
  | EmptyString => EmptyString
  | String a rest => if is_space a then trim_left rest else s
  end.

#[global] Instance ascii_strings : Strings := {
  strings_Fields s := ascii_fields s "";
  strings_ToLower := lower;
  strings_TrimSpace s :=
    trim_left (TrimRight s (String " " (String "009" (String "010"
                 (String "011" (String "012" (String "013" EmptyString)))))))
}.

(** Recording an address: a line in the outbox of the scripted world. *)
#[global] Instance cidrlist : recordips.CidrList Wire := {
  recordips.cidrlist_RecordIP file ip comment w :=
    (None,
     mkWire (inbox w) (outbox w ++ [file ++ ": " ++ ip ++ " # " ++ comment])
            (writes_left w) (close_answer w) (next_handle w))
}.

(** The notice of a connecting client, as ircd-ratbox sends it. *)
Definition cliconn_notice : irc.Message :=
  irc.mkMessage "NOTICE"
    ["*";
     "*** Notice -- CLICONN will will example.com 192.168.1.2 opers will "
     ++ "192.168.1.2 0 will"].

(** A configuration with everything the hooks read. *)
Definition config : gmap string string :=
  <["oper-name" := "root"]>
    (<["oper-password" := "hunter2"]>
       (<["oper-umodes" := "+s"]>
          (<["record-ip-file" := "/etc/ips"]>
             (<["twitchstreams-users" := "Alice bob  ALICE"]>
                (<["twitchstreams-client-id" := "abc"]>
                   (<["twitchstreams-channels" := "#godrop"]> ∅)))))).

Definition configured (budget : nat) : State Wire :=
  {| client :=
       {| conn := Some 0%nat; rw := Some 0%nat; nick := "godrop";
          name := "Godrop Bot"; ident := "bot"; host := "irc.example.com";
          port := 6667; tls := false; Config := config;
          registered := false; timeoutTime := defaultTimeoutTime |};
     world := mkWire [] [] budget None 1;
     trace := [] |}.

(** A scripted clock and web.  The clock reads as many minutes as the
    next free handle says; a request is answered with 200 while a write
    is left in the budget and fails otherwise; the body of an answer is
    the next line of the inbox; a body is the title of the one stream of
    the answer, and an empty body is an answer without streams. *)
Fixpoint has_prefix (prefix s : string) : option string :=
  match prefix, s with
  | EmptyString, _ => Some s
  | String a p, String b rest =>
      if Ascii.eqb a b then has_prefix p rest else None
  | String _ _, EmptyString => None
  end.

Fixpoint query (values : list (string * string)) : string :=
  match values with
  | [] => ""
  | [(k, v)] => k ++ "=" ++ v
  | (k, v) :: rest => k ++ "=" ++ v ++ "&" ++ query rest
  end.

#[global] Instance outside : twitchstreams.Outside Wire := {
  twitchstreams.time_Now w := (Z.of_nat (next_handle w) * minute, w);
  twitchstreams.time_Sub t u := t - u;
  twitchstreams.zeroTime := - (1000 * minute);
  twitchstreams.triggerRE_FindStringSubmatch text :=
    match has_prefix "!twitch" text with
    | Some rest => Some [text; rest]
    | None => None
    end;
  twitchstreams.url_Encode := query;
  twitchstreams.http_NewRequest _ _ := None;
  twitchstreams.client_Do _ _ _ w :=
    match writes_left w with
    | O => ((twitchstreams.mkResponse 0 "" 0,
             Some (errorString "no route to host")), w)
    | S _ => ((twitchstreams.mkResponse 200 "200 OK" 7, None), w)
    end;
  twitchstreams.ioutil_ReadAll _ w :=
    match inbox w with
    | [] => (("", None), w)
    | body :: rest =>
        ((body, None),
         mkWire rest (outbox w) (writes_left w) (close_answer w)
                (next_handle w))
    end;
  twitchstreams.Body_Close _ w := (close_answer w, w);
  twitchstreams.json_Unmarshal buf :=
    if String.eqb buf ""
    then ({["data" := twitchstreams.JArray []]}, None)
    else ({["data" :=
              twitchstreams.JArray
                [twitchstreams.JObject
                   {["title" := twitchstreams.JString buf]}]]}, None)
}.

(** The package as the program starts, beside a configured client in a
    world whose web answers with the [bodies]; and the package one minute
    after a poll. *)
Definition fresh (bodies : list string) : twitchstreams.Prog Wire :=
  {| twitchstreams.globals := twitchstreams.start;
     twitchstreams.core :=
       {| client := client (configured 9);
          world := mkWire bodies [] 9 None 1;
          trace := [] |};
     twitchstreams.web := [] |}.

Definition polled : twitchstreams.Prog Wire :=
  {| twitchstreams.globals :=
       {| twitchstreams.http_client := None;
          twitchstreams.usernameStreaming := ∅;
          twitchstreams.lastPollTime := 0 |};
     twitchstreams.core := configured 9;
     twitchstreams.web := [] |}.

End ScriptedHooks.

(** ** Proof steps *)

(** Taking apart a [match] of the goal whose subject holds no other. *)
Ltac step :=
  match goal with
  | |- context [match ?x with _ => _ end] =>
      lazymatch x with
      | context [match _ with _ => _ end] => fail
      | _ => destruct x eqn:?
      end
  end.

Ltac run := repeat (simpl in *; try step).

(** Opening the hook of [recordips] down to its tests. *)
Ltac hook_open :=
  cbv beta iota zeta delta
    [recordips.Hook bind ret index panic get_client recordips.outside note].

(** * Properties *)

(** ** Reading traces piecewise *)

Lemma frames_sent_app (a b : list Event) :
  frames_sent (a ++ b) = (frames_sent a ++ frames_sent b)%list.
Proof. apply omap_app. Qed.

Lemma hook_calls_app (a b : list Event) :
  hook_calls (a ++ b) = (hook_calls a ++ hook_calls b)%list.
Proof. apply omap_app. Qed.

Lemma closes_app (a b : list Event) :
  closes (a ++ b) = (closes a ++ closes b)%list.
Proof. apply omap_app. Qed.

Lemma reads_app (a b : list Event) :
  reads (a ++ b) = (reads a ++ reads b)%list.
Proof. apply omap_app. Qed.


Lemma quiet_nil : quiet [].
Proof. repeat split. Qed.

Lemma quiet_app (a b : list Event) : quiet a -> quiet b -> quiet (a ++ b).
Proof.
  unfold quiet. intros (Ha1 & Ha2 & Ha3 & Ha4) (Hb1 & Hb2 & Hb3 & Hb4).
  rewrite frames_sent_app, hook_calls_app, closes_app, reads_app.
  rewrite Ha1, Ha2, Ha3, Ha4, Hb1, Hb2, Hb3, Hb4. repeat split.
Qed.

Section Properties.
Context {W : Type} `{Transport W} `{irc.Codec}.
Variable Hooks : list (Hook W).

(** ** The write path *)

Lemma write_trace (buf : string) (s : State W) :
  exists d, trace (snd (write buf s)) = (trace s ++ d)%list /\ quiet d /\
            client (snd (write buf s)) = client s.
Proof.
  unfold write, bind, get_client, deref, call, note, ret, panic.
  run; rewrite <- ?app_assoc;
    try (eexists; split; [reflexivity | split; [repeat split | reflexivity]]).
  all: exists []; rewrite app_nil_r; repeat split.
Qed.

Lemma write_connected (buf : string) (s : State W) (cn : Conn)
    (b : ReadWriter) :
  conn (client s) = Some cn -> rw (client s) = Some b ->
  exists e, fst (write buf s) = Ret e.
Proof.
  intros Hc Hb.
  unfold write, bind, get_client, deref, call, note, ret, panic.
  simpl. rewrite Hc. simpl.
  destruct (conn_SetDeadline _ _ _) as [[err|] w1]; simpl; [eauto |].
  rewrite Hb. simpl.
  destruct (rw_WriteString _ _ _) as [[sz [err|]] w2]; simpl; [eauto |].
  destruct (negb _); simpl; [eauto |].
  destruct (rw_Flush _ _) as [[err|] w3]; simpl; eauto.
Qed.

Lemma WriteMessage_trace (m : irc.Message) (s : State W) :
  exists d, trace (snd (WriteMessage m s)) = (trace s ++ EvEncode m :: d)%list
            /\ quiet d /\ client (snd (WriteMessage m s)) = client s.
Proof.
  unfold WriteMessage, bind, call. simpl.
  destruct (irc.Encode m) as [buf [err|]]; simpl.
  - destruct (decide (err = ErrTruncated)).
    + destruct (write_trace buf
        {| client := client s; world := world s;
           trace := trace s ++ [EvEncode m] |}) as (d & Ht & Hq & Hc).
      exists d. simpl in *. rewrite Ht, <- app_assoc. auto.
    + exists []. simpl. split; [reflexivity | split; [apply quiet_nil | auto]].
  - destruct (write_trace buf
      {| client := client s; world := world s;
         trace := trace s ++ [EvEncode m] |}) as (d & Ht & Hq & Hc).
    exists d. simpl in *. rewrite Ht, <- app_assoc. auto.
Qed.

Lemma WriteMessage_connected (m : irc.Message) (s : State W) (cn : Conn)
    (b : ReadWriter) :
  conn (client s) = Some cn -> rw (client s) = Some b ->
  exists e, fst (WriteMessage m s) = Ret e.
Proof.
  intros Hc Hb. unfold WriteMessage, bind, call. simpl.
  destruct (irc.Encode m) as [buf [err|]]; simpl.
  - destruct (decide (err = ErrTruncated)); [| simpl; eauto].
    eapply write_connected; simpl; eauto.
  - eapply write_connected; simpl; eauto.
Qed.

Lemma write_fuel (buf : string) (s : State W) :
  fst (write buf s) <> OutOfFuel.
Proof.
  unfold write, bind, get_client, deref, call, note, ret, panic.
  run; discriminate.
Qed.

Lemma WriteMessage_fuel (m : irc.Message) (s : State W) :
  fst (WriteMessage m s) <> OutOfFuel.
Proof.
  unfold WriteMessage, bind, call. simpl.
  destruct (irc.Encode m) as [buf [err|]]; simpl;
    [destruct (decide (err = ErrTruncated)); [| discriminate] |];
    apply write_fuel.
Qed.

Lemma WriteMessage_frames (m : irc.Message) (s : State W) :
  frames_sent (trace (snd (WriteMessage m s)))
  = (frames_sent (trace s) ++ [m])%list.
Proof.
  destruct (WriteMessage_trace m s) as (d & Ht & (Hq & _) & _).
  rewrite Ht, frames_sent_app.
  change (frames_sent (EvEncode m :: d)) with (m :: frames_sent d).
  now rewrite Hq.
Qed.

(** ** The read path *)

Lemma read_ok (s s1 : State W) (buf : string) :
  read s = (Ret (buf, None), s1) ->
  exists cn b,
    conn (client s) = Some cn /\ rw (client s) = Some b /\
    client s1 = client s /\
    trace s1 = (trace s ++ [EvSetDeadline cn (timeoutTime (client s));
                            EvReadString b LF;
                            EvLog ("Read: " ++ TrimRight buf CRLF)])%list.
Proof.
  unfold read, bind, get_client, deref, call, note, ret, panic.
  simpl. destruct (conn (client s)) as [cn|]; simpl; [| discriminate].
  destruct (conn_SetDeadline _ _ _) as [[err|] w1]; simpl; [discriminate |].
  destruct (rw (client s)) as [b|]; simpl; [| discriminate].
  destruct (rw_ReadString _ _ _) as [[line [err|]] w2]; simpl;
    [discriminate |].
  intros E. inversion E; subst. exists cn, b. simpl.
  rewrite <- !app_assoc. auto.
Qed.

Lemma ReadMessage_ok (s s1 : State W) (msg : irc.Message) :
  ReadMessage s = (Ret (msg, None), s1) ->
  exists cn b buf s0,
    read s = (Ret (buf, None), s0) /\
    conn (client s1) = Some cn /\ rw (client s1) = Some b /\
    client s1 = client s /\ world s1 = world s0 /\
    trace s1 = (trace s0 ++ [EvParseMessage buf])%list.
Proof.
  unfold ReadMessage, bind at 1.
  destruct (read s) as [[[buf [err|]]|why|] s0] eqn:Hr; simpl;
    try discriminate.
  destruct (read_ok _ _ _ Hr) as (cn & b & Hc & Hb & Hcl & _).
  unfold bind, call, ret. simpl.
  destruct (irc.ParseMessage buf) as [m [err|]]; simpl.
  - destruct (decide (err = ErrTruncated)); [| discriminate].
    intros E. inversion E; subst. exists cn, b, buf, s0. simpl.
    rewrite Hcl. auto 10.
  - intros E. inversion E; subst. exists cn, b, buf, s0. simpl.
    rewrite Hcl. auto 10.
Qed.

(** ** [Connect] *)

(** A [Connect] that returns nil leaves a client with a connection and a
    reader and writer around it. *)
Lemma Connect_connected (s : State W) :
  fst (Connect s) = Ret None ->
  IsConnected (client (snd (Connect s))) = true /\
  exists b, rw (client (snd (Connect s))) = Some b.
Proof.
  unfold Connect, bind, get_client, call, modify_client, ret. simpl.
  destruct (net_Dial _ _ _ _ _) as [[cn [err|]] w1]; simpl;
    [discriminate |].
  destruct (bufio_NewReadWriter cn w1) as [b w2]. simpl. eauto.
Qed.

(** ** [Close] and the hooks, in closed form *)

Lemma Close_eq (s : State W) :
  Close s =
  match conn (client s) with
  | Some cn =>
      (Ret (fst (conn_Close cn (world s))),
       {| client :=
            set_conn None (set_rw None (set_registered false (client s)));
          world := snd (conn_Close cn (world s));
          trace := trace s ++ [EvConnClose cn] |})
  | None =>
      (Ret None,
       {| client := set_rw None (set_registered false (client s));
          world := world s; trace := trace s |})
  end.
Proof.
  unfold Close, bind, modify_client, get_client, call, ret. simpl.
  destruct (conn (client s)) as [cn|]; simpl; [| reflexivity].
  destruct (conn_Close cn (world s)); reflexivity.
Qed.

Lemma range_hooks_eq (hs : list (Hook W)) (m : irc.Message) (i : nat)
    (s : State W) :
  range_hooks i hs m s =
  (Ret tt,
   {| client := fst (fold_left (fun cw hook => hook m cw) hs
                               (client s, world s));
      world := snd (fold_left (fun cw hook => hook m cw) hs
                              (client s, world s));
      trace := trace s ++ map (fun j => EvHook j m) (seq i (length hs)) |}).
Proof.
  revert i s. induction hs as [|hook rest IH]; intros i s; simpl.
  - unfold ret. rewrite app_nil_r. now destruct s.
  - unfold bind, call_hook.
    destruct (hook m (client s, world s)) as [c w] eqn:Hh.
    rewrite IH. simpl. now rewrite <- app_assoc.
Qed.

Lemma hook_calls_events (m : irc.Message) :
  hook_calls (hook_events Hooks m)
  = map (fun i => (i, m)) (seq 0 (length Hooks)).
Proof.
  unfold hook_events, hook_calls. generalize (seq 0 (length Hooks)).
  induction l as [|i l IH]; simpl; [reflexivity | f_equal; exact IH].
Qed.

Lemma hooks_eq (m : irc.Message) (s : State W) :
  hooks Hooks m s =
  (Ret tt,
   {| client := fst (fold_left (fun cw hook => hook m cw) Hooks
                               (client s, world s));
      world := snd (fold_left (fun cw hook => hook m cw) Hooks
                              (client s, world s));
      trace := trace s ++ hook_events Hooks m |}).
Proof. apply range_hooks_eq. Qed.

(** ** One turn of the loop *)

Lemma Loop_body_read (s s1 : State W) (msg : irc.Message) :
  ReadMessage s = (Ret (msg, None), s1) ->
  Loop_body Hooks s = Loop_frame Hooks msg s1.
Proof. intros Hr. unfold Loop_body, bind. now rewrite Hr. Qed.

Lemma Loop_S (fuel : nat) (s : State W) :
  Loop Hooks (S fuel) s =
  match Loop_body Hooks s with
  | (Ret (Return e), s') => (Ret e, s')
  | (Ret Next, s') => Loop Hooks fuel s'
  | (Panic why, s') => (Panic why, s')
  | (OutOfFuel, s') => (OutOfFuel, s')
  end.
Proof.
  simpl. unfold bind.
  destruct (Loop_body Hooks s) as [[[|e]|why|] s']; reflexivity.
Qed.

Lemma Loop_frame_plain (msg : irc.Message) (s : State W) :
  irc.Command msg <> "PING" -> irc.Command msg <> "ERROR" ->
  Loop_frame Hooks msg s =
  (Ret Next,
   {| client := fst (fold_left (fun cw hook => hook msg cw) Hooks
                               (client s, world s));
      world := snd (fold_left (fun cw hook => hook msg cw) Hooks
                              (client s, world s));
      trace := trace s ++ hook_events Hooks msg |}).
Proof.
  intros Hp He. unfold Loop_frame.
  apply String.eqb_neq in Hp. apply String.eqb_neq in He.
  rewrite Hp. unfold bind at 1. unfold ret at 1. rewrite He.
  unfold bind. now rewrite hooks_eq.
Qed.

(** C9.  [Close] is idempotent: a second call, made when the connection
    has already been cleared, returns no error and leaves the connection
    alone; [IsConnected] is false after the first call and after the
    second; every call clears the registered flag and the buffered reader
    and writer. *)
Theorem Close_idempotent (s : State W) :
  let s1 := snd (Close s) in
  let s2 := snd (Close s1) in
  (exists e, fst (Close s) = Ret e) /\
  fst (Close s1) = Ret None /\
  IsConnected (client s1) = false /\ IsConnected (client s2) = false /\
  registered (client s1) = false /\ rw (client s1) = None /\
  registered (client s2) = false /\ rw (client s2) = None /\
  trace s2 = trace s1 /\ world s2 = world s1.
Proof.
  cbv zeta. rewrite (Close_eq s).
  destruct (conn (client s)) as [cn|] eqn:Hc; cbn [fst snd];
    rewrite Close_eq; unfold IsConnected; cbn; rewrite ?Hc; cbn;
    repeat split; eauto; now rewrite Hc.
Qed.

(** C10.  [Pong] reads [ping.Params[0]].  For a PING frame with at least
    one parameter the index is in bounds and [Pong] is the send of a PONG
    with that parameter; for a PING frame without parameters the index is
    out of bounds: [Pong], and with it the loop's handling of the frame,
    panics. *)
Theorem Pong_bounds (ping : irc.Message) (s : State W) :
  irc.Command ping = "PING" ->
  match irc.Params ping with
  | p :: _ =>
      irc.Params ping !! 0%nat = Some p /\
      Pong ping s = WriteMessage (irc.mkMessage "PONG" [p]) s
  | [] =>
      irc.Params ping !! 0%nat = None /\
      Pong ping s = (Panic "index out of range [0] with length 0", s) /\
      Loop_frame Hooks ping s
      = (Panic "index out of range [0] with length 0", s)
  end.
Proof.
  intros Hc. unfold Loop_frame, Pong. rewrite Hc.
  destruct (irc.Params ping) as [|p ps]; simpl; auto.
Qed.

(** C4.  When the loop has read a frame whose command is ERROR it closes
    the connection, once, and returns what [conn.Close] answered; nothing
    else is called after the read: no other line is asked for. *)
Theorem Loop_ERROR (s s1 : State W) (msg : irc.Message) (fuel : nat) :
  ReadMessage s = (Ret (msg, None), s1) ->
  irc.Command msg = "ERROR" ->
  exists cn,
    conn (client s1) = Some cn /\
    Loop Hooks (S fuel) s = Close s1 /\
    fst (Close s1) = Ret (fst (conn_Close cn (world s1))) /\
    trace (snd (Close s1)) = (trace s1 ++ [EvConnClose cn])%list /\
    closes (trace (snd (Close s1))) = (closes (trace s1) ++ [cn])%list /\
    reads (trace (snd (Close s1))) = reads (trace s1) /\
    conn (client (snd (Close s1))) = None.
Proof.
  intros Hr Hc.
  destruct (ReadMessage_ok _ _ _ Hr) as (cn & b & buf & s0 & _ & Hcn & _).
  exists cn. split; [exact Hcn |].
  rewrite Loop_S, (Loop_body_read _ _ _ Hr).
  unfold Loop_frame. rewrite Hc. cbn [String.eqb Ascii.eqb Bool.eqb].
  unfold bind at 1. unfold ret at 1. cbn iota.
  unfold bind at 1. rewrite Close_eq, Hcn. cbn.
  rewrite closes_app, reads_app. cbn. rewrite app_nil_r. auto 10.
Qed.

(** C7.  When the loop has read a frame whose command is neither PING nor
    ERROR, it calls every hook of [Hooks] once, in the order of the slice,
    each with the client and that same frame, and goes on to the next
    turn. *)
Theorem Loop_dispatch (s s1 : State W) (msg : irc.Message) (fuel : nat) :
  ReadMessage s = (Ret (msg, None), s1) ->
  irc.Command msg <> "PING" -> irc.Command msg <> "ERROR" ->
  let s2 := snd (Loop_body Hooks s) in
  fst (Loop_body Hooks s) = Ret Next /\
  trace s2 = (trace s1 ++ hook_events Hooks msg)%list /\
  hook_calls (trace s2)
  = (hook_calls (trace s1)
     ++ map (fun i => (i, msg)) (seq 0 (length Hooks)))%list /\
  (client s2, world s2)
  = fold_left (fun cw hook => hook msg cw) Hooks (client s1, world s1) /\
  Loop Hooks (S fuel) s = Loop Hooks fuel s2.
Proof.
  intros Hr Hp He. cbv zeta.
  rewrite Loop_S, (Loop_body_read _ _ _ Hr), (Loop_frame_plain _ _ Hp He).
  cbn [fst snd trace client world].
  rewrite hook_calls_app, hook_calls_events.
  rewrite <- surjective_pairing. auto.
Qed.

Lemma frames_sent_hook_events (m : irc.Message) :
  frames_sent (hook_events Hooks m) = [].
Proof.
  unfold hook_events, frames_sent. generalize (seq 0 (length Hooks)).
  induction l as [|i l IH]; simpl; [reflexivity | exact IH].
Qed.

(** C3.  When the loop has read a PING frame, it sends one PONG whose only
    parameter is the first parameter of the probe, and nothing else; the
    send comes before the call of any hook; when the send fails, the loop
    returns that error and no hook is called. *)
Theorem Loop_PING (s s1 : State W) (ping : irc.Message) (p : string)
    (ps : list string) (fuel : nat) :
  ReadMessage s = (Ret (ping, None), s1) ->
  irc.Command ping = "PING" ->
  irc.Params ping = p :: ps ->
  let pong := irc.mkMessage "PONG" [p] in
  let s2 := snd (WriteMessage pong s1) in
  let s3 := snd (Loop_body Hooks s) in
  exists d e,
    fst (WriteMessage pong s1) = Ret e /\
    trace s2 = (trace s1 ++ EvEncode pong :: d)%list /\ quiet d /\
    frames_sent (trace s3) = (frames_sent (trace s1) ++ [pong])%list /\
    match e with
    | Some err =>
        Loop Hooks (S fuel) s = (Ret (Some err), s2) /\
        hook_calls (trace s2) = hook_calls (trace s1)
    | None =>
        fst (Loop_body Hooks s) = Ret Next /\
        trace s3
        = (trace s1 ++ EvEncode pong :: d ++ hook_events Hooks ping)%list /\
        Loop Hooks (S fuel) s = Loop Hooks fuel s3
    end.
Proof.
  intros Hr Hc Hp. cbv zeta.
  destruct (ReadMessage_ok _ _ _ Hr) as (cn & b & buf & s0 & _ & Hcn & Hb & _).
  destruct (WriteMessage_connected (irc.mkMessage "PONG" [p]) s1 cn b Hcn Hb)
    as (e & He).
  destruct (WriteMessage_trace (irc.mkMessage "PONG" [p]) s1)
    as (d & Ht & Hq & _).
  exists d, e. split; [exact He |]. split; [exact Ht |]. split; [exact Hq |].
  rewrite Loop_S, (Loop_body_read _ _ _ Hr).
  unfold Loop_frame, Pong. rewrite Hc, Hp.
  cbn [String.eqb Ascii.eqb Bool.eqb lookup list_lookup].
  destruct (WriteMessage (irc.mkMessage "PONG" [p]) s1) as [r s2] eqn:Hw.
  cbn [fst snd] in *. subst r.
  destruct e as [err|]; unfold bind; rewrite Hw; cbn.
  - rewrite Ht, frames_sent_app, hook_calls_app.
    change (frames_sent (EvEncode (irc.mkMessage "PONG" [p]) :: d))
      with (irc.mkMessage "PONG" [p] :: frames_sent d).
    change (hook_calls (EvEncode (irc.mkMessage "PONG" [p]) :: d))
      with (hook_calls d).
    destruct Hq as (Hq1 & Hq2 & _). rewrite Hq1, Hq2, app_nil_r. auto.
  - rewrite hooks_eq. cbn.
    rewrite Ht, <- app_assoc. cbn.
    rewrite !frames_sent_app.
    change (frames_sent (EvEncode (irc.mkMessage "PONG" [p])
                           :: d ++ hook_events Hooks ping))
      with (irc.mkMessage "PONG" [p]
              :: frames_sent (d ++ hook_events Hooks ping)).
    rewrite frames_sent_app, frames_sent_hook_events.
    destruct Hq as (Hq1 & _). rewrite Hq1. auto.
Qed.

(** C6.  When the loop has read a raw line and the codec reports an error
    for it: if the error is [irc.ErrTruncated], the turn hands the partly
    decoded frame on like any other frame (a frame that is neither PING nor
    ERROR goes to the hooks and the loop goes on); for any other error the
    loop returns an error whose text holds the raw line. *)
Theorem Loop_decode_error (s s0 : State W) (buf : string) (m : irc.Message)
    (err : error) (fuel : nat) :
  read s = (Ret (buf, None), s0) ->
  irc.ParseMessage buf = (m, Some err) ->
  let s1 := {| client := client s0; world := world s0;
               trace := trace s0 ++ [EvParseMessage buf] |} in
  if decide (err = ErrTruncated)
  then
    ReadMessage s = (Ret (m, None), s1) /\
    Loop_body Hooks s = Loop_frame Hooks m s1 /\
    (if String.eqb (irc.Command m) "PING"
        || String.eqb (irc.Command m) "ERROR"
     then True
     else fst (Loop_body Hooks s) = Ret Next /\
          trace (snd (Loop_body Hooks s))
          = (trace s1 ++ hook_events Hooks m)%list /\
          Loop Hooks (S fuel) s = Loop Hooks fuel (snd (Loop_body Hooks s)))
  else
    let text := "unable to parse message: " ++ buf ++ ": " ++ Error err in
    Loop Hooks (S fuel) s = (Ret (Some (errorString text)), s1) /\
    includes buf text.
Proof.
  intros Hr Hp. cbv zeta.
  assert (HR : ReadMessage s =
    (if decide (err = ErrTruncated) then Ret (m, None)
     else Ret (irc.zeroMessage,
               Some (errorString ("unable to parse message: " ++ buf
                                  ++ ": " ++ Error err))),
     {| client := client s0; world := world s0;
        trace := trace s0 ++ [EvParseMessage buf] |})).
  { unfold ReadMessage, bind at 1. rewrite Hr. cbn iota.
    unfold bind, call, ret. cbn. rewrite Hp.
    destruct (decide (err = ErrTruncated)); reflexivity. }
  destruct (decide (err = ErrTruncated)) as [Heq|Hne].
  - split; [exact HR |]. rewrite Loop_S, (Loop_body_read _ _ _ HR).
    split; [reflexivity |].
    destruct (String.eqb (irc.Command m) "PING") eqn:E1; [exact I |].
    destruct (String.eqb (irc.Command m) "ERROR") eqn:E2; [exact I |].
    apply String.eqb_neq in E1. apply String.eqb_neq in E2.
    rewrite (Loop_frame_plain _ _ E1 E2). cbn. auto.
  - split.
    + rewrite Loop_S. unfold Loop_body, bind. rewrite HR. reflexivity.
    + exists "unable to parse message: ", (": " ++ Error err). reflexivity.
Qed.

(** C8.  [Register] sends NICK first and USER second.  When the send of
    NICK fails, USER is not sent and the error returned names NICK; when
    the send of USER fails, the error returned names USER. *)
Theorem Register_order (s : State W) :
  let n := irc.mkMessage "NICK" [nick (client s)] in
  let u := irc.mkMessage "USER" [ident (client s); "0"; "*";
                                 name (client s)] in
  let s1 := snd (WriteMessage n s) in
  match fst (WriteMessage n s) with
  | Ret (Some err) =>
      Register s
      = (Ret (Some (errorString ("failed to send NICK: " ++ Error err))), s1)
      /\ frames_sent (trace s1) = (frames_sent (trace s) ++ [n])%list
  | Ret None =>
      snd (Register s) = snd (WriteMessage u s1) /\
      frames_sent (trace (snd (Register s)))
      = (frames_sent (trace s) ++ [n; u])%list /\
      match fst (WriteMessage u s1) with
      | Ret (Some err) =>
          fst (Register s)
          = Ret (Some (errorString ("failed to send USER: " ++ Error err)))
      | r => fst (Register s) = r
      end
  | r => Register s = (r, s1)
  end.
Proof.
  cbv zeta. unfold Register, Nick, User, bind, get_client, ret.
  cbn -[WriteMessage].
  pose proof (WriteMessage_frames (irc.mkMessage "NICK" [nick (client s)]) s)
    as Hn.
  pose proof (WriteMessage_trace (irc.mkMessage "NICK" [nick (client s)]) s)
    as (d & _ & _ & Hcl).
  destruct (WriteMessage (irc.mkMessage "NICK" [nick (client s)]) s)
    as [[[err|]|why|] s1]; cbn -[WriteMessage] in *; auto.
  rewrite Hcl.
  pose proof (WriteMessage_frames
    (irc.mkMessage "USER" [ident (client s); "0"; "*"; name (client s)]) s1)
    as Hu.
  destruct (WriteMessage
    (irc.mkMessage "USER" [ident (client s); "0"; "*"; name (client s)]) s1)
    as [[[err|]|why|] s2]; cbn -[WriteMessage] in *;
    rewrite Hu, Hn, <- app_assoc; auto.
Qed.

End Properties.

(** ** Strings as lists of bytes *)

Lemma bytes_length (s : string) :
  length (list_ascii_of_string s) = String.length s.
Proof. induction s as [|a s IH]; simpl; [reflexivity | now rewrite IH]. Qed.

Lemma bytes_append (a b : string) :
  list_ascii_of_string (a ++ b)
  = (list_ascii_of_string a ++ list_ascii_of_string b)%list.
Proof. induction a as [|c a IH]; simpl; [reflexivity | now rewrite IH]. Qed.

Lemma bytes_inj (a b : string) :
  list_ascii_of_string a = list_ascii_of_string b -> a = b.
Proof.
  intros E. rewrite <- (string_of_list_ascii_of_string a),
    <- (string_of_list_ascii_of_string b). now rewrite E.
Qed.

Lemma bytes_substring (n m : nat) (s : string) :
  list_ascii_of_string (substring n m s)
  = take m (drop n (list_ascii_of_string s)).
Proof.
  revert n m. induction s as [|a s IH]; intros [|n] [|m]; simpl;
    try reflexivity; try apply IH.
  - now rewrite (IH 0%nat m).
Qed.

Lemma bytes_concat_all (ps : list string) :
  list_ascii_of_string (concat_all ps)
  = concat (map list_ascii_of_string ps).
Proof.
  induction ps as [|p ps IH]; simpl; [reflexivity |].
  now rewrite bytes_append, IH.
Qed.


(** Asking for more bytes than are left gives the bytes that are left. *)
Lemma substring_to_end (n m : nat) (s : string) :
  (String.length s - n <= m)%nat ->
  substring n m s = substring n (String.length s - n) s.
Proof.
  intros Hm. apply bytes_inj. rewrite !bytes_substring.
  rewrite !take_ge; [reflexivity | |];
    rewrite length_drop, bytes_length; lia.
Qed.

(** ** The pieces *)

Lemma ceil_div_room (L j : nat) :
  (room * j < L <-> j < ceil_div L room)%nat.
Proof.
  unfold ceil_div, room.
  pose proof (Nat.div_mod_eq (L + (400 - 1)) 400).
  pose proof (Nat.mod_upper_bound (L + (400 - 1)) 400). lia.
Qed.

Lemma ceil_div_room_le (L : nat) : (ceil_div L room <= L)%nat.
Proof.
  unfold ceil_div, room.
  pose proof (Nat.div_mod_eq (L + (400 - 1)) 400).
  pose proof (Nat.mod_upper_bound (L + (400 - 1)) 400). lia.
Qed.

Lemma pieces_length (message : string) :
  length (pieces message) = ceil_div (String.length message) room.
Proof. unfold pieces. now rewrite length_map, length_seq. Qed.

Lemma concat_windows {A} (l : list A) (c n : nat) :
  concat (map (fun j => take c (drop (c * j) l)) (seq 0 n)) = take (c * n) l.
Proof.
  induction n as [|n IH].
  - now rewrite Nat.mul_0_r.
  - rewrite seq_S, map_app, concat_app, IH. simpl. rewrite app_nil_r.
    rewrite take_take_drop. f_equal. lia.
Qed.

Lemma pieces_concat (message : string) :
  concat_all (pieces message) = message.
Proof.
  apply bytes_inj. rewrite bytes_concat_all. unfold pieces.
  rewrite map_map.
  rewrite (map_ext _ (fun j => take room
                                 (drop (room * j)
                                    (list_ascii_of_string message)))).
  - rewrite concat_windows. apply take_ge. rewrite bytes_length.
    pose proof (ceil_div_room (String.length message)
                  (ceil_div (String.length message) room)). lia.
  - intros j. apply bytes_substring.
Qed.



(** ** [Message] sends the pieces in order *)

Lemma int_wrap_small (z : Z) : - 2 ^ 63 <= z < 2 ^ 63 -> int_wrap z = z.
Proof. intros Hz. unfold int_wrap. rewrite Z.mod_small; lia. Qed.

Lemma overhead_eq : overhead = 12.
Proof. reflexivity. Qed.

Lemma room_eq : room = Z.to_nat (maxMessage - overhead).
Proof. reflexivity. Qed.

Section Splitting.
Context {W : Type} `{Transport W} `{irc.Codec}.

Lemma Message_for_eq (target message : string) (fuel j : nat) (s : State W) :
  len message + maxMessage <= MaxInt ->
  (j <= ceil_div (String.length message) room)%nat ->
  (ceil_div (String.length message) room - j < fuel)%nat ->
  Message_for fuel target message (Z.of_nat (room * j)) s
  = send_in_order target
      (map (piece_at message)
           (seq j (ceil_div (String.length message) room - j))) s.
Proof.
  intros Hlen. revert j s.
  induction fuel as [|fuel IH]; intros j s Hj Hfuel; [lia |].
  pose proof (ceil_div_room (String.length message) j) as Hlt.
  unfold len, maxMessage, MaxInt in Hlen.
  cbn [Message_for]. rewrite overhead_eq. unfold len, maxMessage.
  destruct (Z.ltb_spec (Z.of_nat (room * j))
                       (Z.of_nat (String.length message))) as [Hin|Hout].
  - assert (Hjn : (j < ceil_div (String.length message) room)%nat)
      by (apply Hlt; lia).
    replace (ceil_div (String.length message) room - j)%nat
      with (S (ceil_div (String.length message) room - S j)) by lia.
    cbn [seq map send_in_order].
    unfold int_sub, int_add.
    rewrite (int_wrap_small (Z.of_nat (room * j) + 412)) by lia.
    rewrite (int_wrap_small (Z.of_nat (room * j) + 412 - 12)) by lia.
    rewrite (int_wrap_small (412 - 12)) by lia.
    rewrite (int_wrap_small (Z.of_nat (room * j) + (412 - 12))) by lia.
    replace (Z.of_nat (room * j) + (412 - 12))
      with (Z.of_nat (room * S j)) by (unfold room; lia).
    assert (Hslice :
      slice message (Z.of_nat (room * j))
        (if Z.of_nat (room * j) + 412 - 12
            >? Z.of_nat (String.length message)
         then Z.of_nat (String.length message)
         else Z.of_nat (room * j) + 412 - 12)
      = Some (piece_at message j)).
    { unfold slice, len, piece_at.
      destruct (Z.gtb_spec (Z.of_nat (room * j) + 412 - 12)
                           (Z.of_nat (String.length message))) as [Hg|Hg].
      - replace ((0 <=? Z.of_nat (room * j))
                 && (Z.of_nat (room * j)
                     <=? Z.of_nat (String.length message))
                 && (Z.of_nat (String.length message)
                     <=? Z.of_nat (String.length message))) with true
          by (symmetry; rewrite !andb_true_iff, !Z.leb_le; lia).
        rewrite Nat2Z.id. f_equal.
        replace (Z.to_nat (Z.of_nat (String.length message)
                           - Z.of_nat (room * j)))
          with (String.length message - room * j)%nat by lia.
        symmetry. apply substring_to_end. unfold room in *. lia.
      - replace ((0 <=? Z.of_nat (room * j))
                 && (Z.of_nat (room * j) <=? Z.of_nat (room * j) + 412 - 12)
                 && (Z.of_nat (room * j) + 412 - 12
                     <=? Z.of_nat (String.length message))) with true
          by (symmetry; rewrite !andb_true_iff, !Z.leb_le; lia).
        rewrite Nat2Z.id. f_equal. f_equal. unfold room. lia. }
    rewrite Hslice. unfold bind.
    destruct (WriteMessage
                (irc.mkMessage "PRIVMSG" [target; piece_at message j]) s)
      as [[[err|]|why|] s1] eqn:Hw;
      unfold privmsg; rewrite Hw; try reflexivity.
    apply IH; lia.
  - assert (Hjn : j = ceil_div (String.length message) room) by lia.
    rewrite Hjn, Nat.sub_diag. reflexivity.
Qed.

(** [Message] is the sending, in order, of the pieces of the message. *)
Lemma Message_eq (target message : string) (s : State W) :
  len message + maxMessage <= MaxInt ->
  Message target message s = send_in_order target (pieces message) s.
Proof.
  intros Hlen. unfold Message, pieces.
  pose proof (ceil_div_room_le (String.length message)).
  rewrite <- (Nat.sub_0_r (ceil_div (String.length message) room)) at 1.
  change 0 with (Z.of_nat (room * 0)).
  apply Message_for_eq; [exact Hlen | lia | lia].
Qed.

Lemma send_in_order_frames (target : string) (ps : list string)
    (s : State W) :
  frames_sent (trace (snd (send_in_order target ps s)))
  = (frames_sent (trace s)
     ++ map (privmsg target) (take (attempted target ps s) ps))%list.
Proof.
  unfold attempted. revert s.
  induction ps as [|piece rest IH]; intros s.
  - simpl. now rewrite app_nil_r.
  - cbn [send_in_order first_failure]. unfold bind.
    pose proof (WriteMessage_frames (privmsg target piece) s) as Hf.
    destruct (WriteMessage (privmsg target piece) s)
      as [[[err|]|why|] s1]; cbn [fst snd] in *;
      try (unfold ret; cbn [snd]; rewrite Hf; reflexivity).
    rewrite IH, Hf, <- app_assoc.
    destruct (first_failure target rest s1); reflexivity.
Qed.

Lemma first_failure_lt (target : string) (ps : list string) (s : State W)
    (j : nat) :
  first_failure target ps s = Some j -> (j < length ps)%nat.
Proof.
  revert s j. induction ps as [|piece rest IH]; intros s j;
    cbn [first_failure]; [discriminate |].
  destruct (WriteMessage (privmsg target piece) s) as [[[err|]|why|] s1];
    try (intros E; inversion E; simpl; lia).
  destruct (first_failure target rest s1) as [k|] eqn:Hk;
    cbn; [| discriminate].
  intros E. inversion E. specialize (IH _ _ Hk). simpl. lia.
Qed.

(** The piece at the index of the first failure is sent after all the
    earlier ones went out, and its send does not return nil. *)
Lemma first_failure_fails (target : string) (ps : list string)
    (s : State W) (j : nat) :
  first_failure target ps s = Some j ->
  exists piece,
    ps !! j = Some piece /\
    fst (send_in_order target (take j ps) s) = Ret None /\
    fst (WriteMessage (privmsg target piece)
           (snd (send_in_order target (take j ps) s))) <> Ret None.
Proof.
  revert s j. induction ps as [|piece rest IH]; intros s j;
    cbn [first_failure]; [discriminate |].
  destruct (WriteMessage (privmsg target piece) s)
    as [r s1] eqn:Hw.
  assert (Hcase : r = Ret None \/ r <> Ret None).
  { destruct r as [[e|]|w|]; auto; right; discriminate. }
  destruct Hcase as [-> | Hne].
  - destruct (first_failure target rest s1) as [k|] eqn:Hk;
      cbn; [| discriminate].
    intros E. inversion E; subst j.
    destruct (IH _ _ Hk) as (q & Hq & Hok & Hbad).
    exists q. change (take (S k) (piece :: rest)) with (piece :: take k rest).
    cbn [send_in_order]. unfold bind. rewrite Hw.
    split; [exact Hq | split; [exact Hok | exact Hbad]].
  - intros E.
    assert (j = 0%nat) as ->
      by (destruct r as [[e|]|w|]; try congruence; inversion E; auto).
    exists piece. change (take 0 (piece :: rest)) with (@nil string).
    cbn [send_in_order]. unfold ret. cbn [fst snd]. rewrite Hw.
    split; [reflexivity | split; [reflexivity | exact Hne]].
Qed.

Lemma send_in_order_connected (target : string) (ps : list string)
    (s : State W) (cn : Conn) (b : ReadWriter) :
  conn (client s) = Some cn -> rw (client s) = Some b ->
  fst (send_in_order target ps s) = Ret None.
Proof.
  revert s. induction ps as [|piece rest IH]; intros s Hc Hb;
    [reflexivity |].
  cbn [send_in_order]. unfold bind.
  destruct (WriteMessage_connected (privmsg target piece) s cn b Hc Hb)
    as (e & He).
  destruct (WriteMessage_trace (privmsg target piece) s) as (d & _ & _ & Hcl).
  destruct (WriteMessage (privmsg target piece) s) as [r s1].
  cbn [fst snd] in *. subst r. destruct e as [err|]; [reflexivity |].
  apply IH; now rewrite Hcl.
Qed.

Lemma send_in_order_all (target : string) (ps : list string) (s : State W) :
  first_failure target ps s = None ->
  fst (send_in_order target ps s) = Ret None.
Proof.
  revert s. induction ps as [|piece rest IH]; intros s; [reflexivity |].
  cbn [send_in_order first_failure]. unfold bind.
  destruct (WriteMessage (privmsg target piece) s) as [[[err|]|why|] s1];
    try discriminate.
  destruct (first_failure target rest s1) eqn:Hk; [discriminate |].
  intros _. now apply IH.
Qed.


(** C1.  When every piece goes out, [Message] hands to the codec, front to
    back, the pieces of the body, each in a PRIVMSG to the target: there
    are ceil(L / (412 - 12)) of them for a body of L bytes (none for an
    empty body), and put together in the order sent they are the body.
    The body is one whose length leaves the 64-bit indices of the loop
    below [MaxInt], as every string in memory does. *)
Theorem Message_splits (target message : string) (s : State W) :
  len message + maxMessage <= MaxInt ->
  first_failure target (pieces message) s = None ->
  let s' := snd (Message target message s) in
  fst (Message target message s) = Ret None /\
  frames_sent (trace s')
  = (frames_sent (trace s) ++ map (privmsg target) (pieces message))%list /\
  length (pieces message)
  = ceil_div (String.length message) (Z.to_nat (maxMessage - overhead)) /\
  concat_all (pieces message) = message.
Proof.
  intros Hlen Hok. cbv zeta. rewrite (Message_eq _ _ _ Hlen).
  split; [now apply send_in_order_all |].
  split; [| split; [apply pieces_length | apply pieces_concat]].
  rewrite send_in_order_frames. unfold attempted. rewrite Hok.
  now rewrite firstn_all.
Qed.






(** C5.  On a client that has a connection, [Message] returns nil
    whatever happens to the sends.  When the send of a piece fails, the
    pieces before it have gone out, that piece is the last one handed to
    the codec, and no later piece is tried. *)
Theorem Message_returns_nil (target message : string) (s : State W)
    (cn : Conn) (b : ReadWriter) :
  conn (client s) = Some cn -> rw (client s) = Some b ->
  len message + maxMessage <= MaxInt ->
  let s' := snd (Message target message s) in
  fst (Message target message s) = Ret None /\
  match first_failure target (pieces message) s with
  | Some j =>
      (exists piece err,
         pieces message !! j = Some piece /\
         fst (send_in_order target (take j (pieces message)) s) = Ret None /\
         fst (WriteMessage (privmsg target piece)
                (snd (send_in_order target (take j (pieces message)) s)))
         = Ret (Some err)) /\
      frames_sent (trace s')
      = (frames_sent (trace s)
         ++ map (privmsg target) (take (S j) (pieces message)))%list
  | None =>
      frames_sent (trace s')
      = (frames_sent (trace s) ++ map (privmsg target) (pieces message))%list
  end.
Proof.
  intros Hc Hb Hlen. cbv zeta. rewrite (Message_eq _ _ _ Hlen).
  split; [eapply send_in_order_connected; eauto |].
  rewrite send_in_order_frames. unfold attempted.
  destruct (first_failure target (pieces message) s) as [j|] eqn:Hf.
  - split; [| reflexivity].
    destruct (first_failure_fails _ _ _ _ Hf) as (piece & Hp & Hok & Hbad).
    assert (Hcl : forall ps, client (snd (send_in_order target ps s))
                             = client s).
    { clear. intros ps. revert s.
      induction ps as [|q rest IH]; intros s; [reflexivity |].
      cbn [send_in_order]. unfold bind.
      destruct (WriteMessage_trace (privmsg target q) s)
        as (d & _ & _ & Hcl).
      destruct (WriteMessage (privmsg target q) s) as [[[err|]|why|] s1];
        cbn [snd] in *; try exact Hcl.
      now rewrite IH. }
    destruct (WriteMessage_connected (privmsg target piece)
                (snd (send_in_order target (take j (pieces message)) s))
                cn b) as (e & He); [now rewrite Hcl | now rewrite Hcl |].
    destruct e as [err|]; [| congruence].
    exists piece, err. auto.
  - now rewrite firstn_all.
Qed.

(** [Message] never hands an error back, connected or not. *)
Lemma send_in_order_no_error (target : string) (ps : list string)
    (s : State W) (err : error) :
  fst (send_in_order target ps s) <> Ret (Some err).
Proof.
  revert s. induction ps as [|piece rest IH]; intros s; [discriminate |].
  cbn [send_in_order]. unfold bind.
  destruct (WriteMessage (privmsg target piece) s) as [[[e|]|why|] s1];
    try discriminate. apply IH.
Qed.

Lemma Message_no_error (target message : string) (s : State W)
    (err : error) :
  len message + maxMessage <= MaxInt ->
  fst (Message target message s) <> Ret (Some err).
Proof.
  intros Hlen. rewrite (Message_eq _ _ _ Hlen).
  apply send_in_order_no_error.
Qed.

(** The fuel of [Message] is enough: the loop ends before it runs out. *)
Lemma send_in_order_fuel (target : string) (ps : list string)
    (s : State W) :
  fst (send_in_order target ps s) <> OutOfFuel.
Proof.
  revert s. induction ps as [|piece rest IH]; intros s; [discriminate |].
  cbn [send_in_order]. unfold bind.
  pose proof (WriteMessage_fuel (privmsg target piece) s) as Hf.
  destruct (WriteMessage (privmsg target piece) s) as [[[err|]|why|] s1];
    cbn [fst] in *; try discriminate; [apply IH | congruence].
Qed.

Lemma Message_fuel (target message : string) (s : State W) :
  len message + maxMessage <= MaxInt ->
  fst (Message target message s) <> OutOfFuel.
Proof.
  intros Hlen. rewrite (Message_eq _ _ _ Hlen). apply send_in_order_fuel.
Qed.

End Splitting.

(** * The properties on examples *)

Import Scripted.

Lemma Message_splits_witness :
  len long_body + maxMessage <= MaxInt /\
  first_failure "#godrop" (pieces long_body) (connected [] 3 None) = None /\
  frames_sent (trace (snd (Message "#godrop" long_body (connected [] 3 None))))
  = (frames_sent (trace (connected [] 3 None))
     ++ map (privmsg "#godrop") (pieces long_body))%list /\
  length (pieces long_body)
  = ceil_div (String.length long_body) (Z.to_nat (maxMessage - overhead)) /\
  concat_all (pieces long_body) = long_body.
Proof.
  assert (h1 : len long_body + maxMessage <= MaxInt)
    by (apply Z.leb_le; vm_compute; reflexivity).
  assert (h2 : first_failure "#godrop" (pieces long_body)
                 (connected [] 3 None) = None)
    by (vm_compute; reflexivity).
  split; [exact h1 | split; [exact h2 |]].
  exact (proj2 (Message_splits "#godrop" long_body (connected [] 3 None)
                  h1 h2)).
Defined.








(** A target of 101 bytes and a body of 400 bytes: the full line of the
    one chunk has 513 bytes, the codec cuts it, and the line that reaches
    the writer has 512 bytes and is not the full line. *)
Example Message_long_target_cut :
  let s' := snd (Message (H0 := cutting) long_target full_chunk
                   (connected [] 3 None)) in
  frames_sent (trace s') = [privmsg long_target full_chunk] /\
  len (wire_line long_target full_chunk) = 513 /\
  written (trace s')
  = [substring 0 510 (wire_line long_target full_chunk) ++ CRLF] /\
  Forall (fun line => len line = 512) (written (trace s')).
Proof.
  cbv zeta. split; [vm_compute; reflexivity |].
  split; [vm_compute; reflexivity |].
  split; [vm_compute; reflexivity |].
  vm_compute. repeat constructor.
Qed.

Lemma Loop_PING_witness :
  ReadMessage (connected [ping_line] 5 None)
  = (Ret (irc.mkMessage "PING" ["xyz123"], None),
     snd (ReadMessage (connected [ping_line] 5 None))) /\
  frames_sent (trace (snd (Loop_body two_hooks (connected [ping_line] 5 None))))
  = (frames_sent (trace (snd (ReadMessage (connected [ping_line] 5 None))))
     ++ [irc.mkMessage "PONG" ["xyz123"]])%list.
Proof.
  assert (h1 : ReadMessage (connected [ping_line] 5 None)
               = (Ret (irc.mkMessage "PING" ["xyz123"], None),
                  snd (ReadMessage (connected [ping_line] 5 None))))
    by (vm_compute; reflexivity).
  split; [exact h1 |].
  destruct (Loop_PING two_hooks _ _ _ "xyz123" [] 0%nat h1 eq_refl eq_refl)
    as (d & e & _ & _ & _ & Hf & _).
  exact Hf.
Defined.

Lemma Loop_ERROR_witness :
  ReadMessage (connected [error_line] 5 (Some (errorString "reset by peer")))
  = (Ret (irc.mkMessage "ERROR" ["Closing Link"], None),
     snd (ReadMessage
            (connected [error_line] 5 (Some (errorString "reset by peer")))))
  /\
  exists cn,
    Loop two_hooks 1
      (connected [error_line] 5 (Some (errorString "reset by peer")))
    = Close (snd (ReadMessage
                    (connected [error_line] 5
                       (Some (errorString "reset by peer"))))) /\
    fst (Close (snd (ReadMessage
                       (connected [error_line] 5
                          (Some (errorString "reset by peer"))))))
    = Ret (fst (conn_Close cn
                  (world (snd (ReadMessage
                                 (connected [error_line] 5
                                    (Some (errorString "reset by peer")))))))).
Proof.
  assert (h1 : ReadMessage
                 (connected [error_line] 5
                    (Some (errorString "reset by peer")))
               = (Ret (irc.mkMessage "ERROR" ["Closing Link"], None),
                  snd (ReadMessage
                         (connected [error_line] 5
                            (Some (errorString "reset by peer"))))))
    by (vm_compute; reflexivity).
  split; [exact h1 |].
  destruct (Loop_ERROR two_hooks _ _ _ 0%nat h1 eq_refl)
    as (cn & _ & HL & HC & _).
  exists cn. split; [exact HL | exact HC].
Defined.

Lemma Message_returns_nil_witness :
  len long_body + maxMessage <= MaxInt /\
  first_failure "#godrop" (pieces long_body) (connected [] 1 None)
  = Some 1%nat /\
  fst (Message "#godrop" long_body (connected [] 1 None)) = Ret None.
Proof.
  assert (h1 : len long_body + maxMessage <= MaxInt)
    by (apply Z.leb_le; vm_compute; reflexivity).
  split; [exact h1 |]. split; [vm_compute; reflexivity |].
  exact (proj1 (Message_returns_nil "#godrop" long_body (connected [] 1 None)
                  0%nat 0%nat eq_refl eq_refl h1)).
Defined.

Lemma Loop_decode_error_witness :
  (read (connected [long_line] 5 None)
   = (Ret (long_line, None), snd (read (connected [long_line] 5 None))) /\
   irc.ParseMessage long_line
   = (irc.mkMessage "NOTICE" ["*"; bytes 600 "y"], Some ErrTruncated) /\
   Loop_body two_hooks (connected [long_line] 5 None)
   = Loop_frame two_hooks (irc.mkMessage "NOTICE" ["*"; bytes 600 "y"])
       (snd (ReadMessage (connected [long_line] 5 None)))) /\
  (read (connected [blank_line] 5 None)
   = (Ret (blank_line, None), snd (read (connected [blank_line] 5 None))) /\
   irc.ParseMessage blank_line
   = (irc.zeroMessage, Some (errorString "no command")) /\
   fst (Loop two_hooks 1 (connected [blank_line] 5 None))
   = Ret (Some (errorString ("unable to parse message: " ++ blank_line
                             ++ ": no command")))).
Proof.
  split.
  - assert (h1 : read (connected [long_line] 5 None)
                 = (Ret (long_line, None),
                    snd (read (connected [long_line] 5 None))))
      by (vm_compute; reflexivity).
    assert (h2 : irc.ParseMessage long_line
                 = (irc.mkMessage "NOTICE" ["*"; bytes 600 "y"],
                    Some ErrTruncated))
      by (vm_compute; reflexivity).
    split; [exact h1 | split; [exact h2 |]].
    pose proof (Loop_decode_error two_hooks _ _ _ _ _ 0%nat h1 h2) as Hd.
    cbv zeta in Hd.
    destruct (decide (ErrTruncated = ErrTruncated)) as [_|Hne];
      [| exfalso; apply Hne; reflexivity].
    destruct Hd as (HR & HL & _). rewrite HR. exact HL.
  - assert (h1 : read (connected [blank_line] 5 None)
                 = (Ret (blank_line, None),
                    snd (read (connected [blank_line] 5 None))))
      by (vm_compute; reflexivity).
    assert (h2 : irc.ParseMessage blank_line
                 = (irc.zeroMessage, Some (errorString "no command")))
      by (vm_compute; reflexivity).
    split; [exact h1 | split; [exact h2 |]].
    pose proof (Loop_decode_error two_hooks _ _ _ _ _ 0%nat h1 h2) as Hd.
    cbv zeta in Hd.
    destruct (decide (errorString "no command" = ErrTruncated)) as [Heq|_];
      [discriminate Heq |].
    destruct Hd as (HL & _). rewrite HL. reflexivity.
Defined.

Lemma Loop_dispatch_witness :
  ReadMessage (connected [notice_line] 5 None)
  = (Ret (irc.mkMessage "NOTICE" ["*"; "*** Looking up your hostname"], None),
     snd (ReadMessage (connected [notice_line] 5 None))) /\
  hook_calls (trace (snd (Loop_body two_hooks
                            (connected [notice_line] 5 None))))
  = (hook_calls (trace (snd (ReadMessage (connected [notice_line] 5 None))))
     ++ map (fun i =>
               (i, irc.mkMessage "NOTICE"
                     ["*"; "*** Looking up your hostname"]))
            (seq 0 (length two_hooks)))%list.
Proof.
  assert (h1 : ReadMessage (connected [notice_line] 5 None)
               = (Ret (irc.mkMessage "NOTICE"
                         ["*"; "*** Looking up your hostname"], None),
                  snd (ReadMessage (connected [notice_line] 5 None))))
    by (vm_compute; reflexivity).
  split; [exact h1 |].
  assert (h2 : irc.Command (irc.mkMessage "NOTICE"
                              ["*"; "*** Looking up your hostname"])
               <> "PING") by (simpl; discriminate).
  assert (h3 : irc.Command (irc.mkMessage "NOTICE"
                              ["*"; "*** Looking up your hostname"])
               <> "ERROR") by (simpl; discriminate).
  destruct (Loop_dispatch two_hooks _ _ _ 0%nat h1 h2 h3)
    as (_ & _ & Hh & _).
  exact Hh.
Defined.

Lemma Register_order_witness :
  Register (connected [] 0 None)
  = (Ret (Some (errorString "failed to send NICK: broken pipe")),
     snd (WriteMessage (irc.mkMessage "NICK" ["godrop"])
            (connected [] 0 None))).
Proof.
  pose proof (Register_order (connected [] 0 None)) as Hr.
  cbv zeta in Hr.
  change (nick (client (connected [] 0 None))) with "godrop" in Hr.
  assert (h : fst (WriteMessage (irc.mkMessage "NICK" ["godrop"])
                     (connected [] 0 None))
              = Ret (Some (errorString "broken pipe")))
    by (vm_compute; reflexivity).
  rewrite h in Hr. exact (proj1 Hr).
Defined.

Lemma Close_idempotent_witness :
  fst (Close (snd (Close (connected [] 0
                            (Some (errorString "reset by peer"))))))
  = Ret None.
Proof.
  exact (proj1 (proj2 (Close_idempotent
                         (connected [] 0
                            (Some (errorString "reset by peer")))))).
Defined.

Lemma Pong_bounds_witness :
  irc.Command (irc.mkMessage "PING" []) = "PING" /\
  Loop_frame two_hooks (irc.mkMessage "PING" []) (connected [] 5 None)
  = (Panic "index out of range [0] with length 0", connected [] 5 None).
Proof.
  split; [reflexivity |].
  exact (proj2 (proj2 (Pong_bounds two_hooks (irc.mkMessage "PING" [])
                         (connected [] 5 None) eq_refl))).
Defined.

(** * More of the client *)

(** ** What reads and writes leave in the trace *)

Lemma parsed_app (a b : list Event) :
  parsed (a ++ b) = (parsed a ++ parsed b)%list.
Proof. apply omap_app. Qed.

Lemma on_wire_silent (d : list Event) :
  Forall (fun e => on_wire e = true) d ->
  parsed d = [] /\ hook_calls d = [] /\ frames_sent d = [] /\ closes d = [].
Proof.
  induction 1 as [|e d He _ IH]; [repeat split |].
  destruct e; try discriminate He; exact IH.
Qed.

Section Wire.
Context {W : Type} `{Transport W} `{irc.Codec}.

Lemma write_wire (buf : string) (s : State W) :
  exists d, trace (snd (write buf s)) = (trace s ++ d)%list /\
            Forall (fun e => on_wire e = true) d.
Proof.
  unfold write, bind, get_client, deref, call, note, ret, panic.
  run; rewrite <- ?app_assoc;
    try (eexists; split; [reflexivity | repeat constructor]).
  all: exists []; rewrite app_nil_r; split; [reflexivity | constructor].
Qed.

Lemma read_wire (s : State W) :
  exists d, trace (snd (read s)) = (trace s ++ d)%list /\
            Forall (fun e => on_wire e = true) d /\
            client (snd (read s)) = client s.
Proof.
  unfold read, bind, get_client, deref, call, note, ret, panic.
  run; rewrite <- ?app_assoc;
    try (eexists; split; [reflexivity | split;
                          [repeat constructor | reflexivity]]).
  all: exists []; rewrite app_nil_r; split;
    [reflexivity | split; [constructor | reflexivity]].
Qed.

Lemma WriteMessage_wire (m : irc.Message) (s : State W) :
  exists d, trace (snd (WriteMessage m s)) = (trace s ++ EvEncode m :: d)%list
            /\ Forall (fun e => on_wire e = true) d.
Proof.
  unfold WriteMessage, bind, call. simpl.
  destruct (irc.Encode m) as [buf [err|]]; simpl.
  - destruct (decide (err = ErrTruncated)).
    + destruct (write_wire buf
        {| client := client s; world := world s;
           trace := trace s ++ [EvEncode m] |}) as (d & Ht & Hq).
      exists d. simpl in *. rewrite Ht, <- app_assoc. auto.
    + exists []. simpl. split; [reflexivity | constructor].
  - destruct (write_wire buf
      {| client := client s; world := world s;
         trace := trace s ++ [EvEncode m] |}) as (d & Ht & Hq).
    exists d. simpl in *. rewrite Ht, <- app_assoc. auto.
Qed.

Lemma WriteMessage_parsed (m : irc.Message) (s : State W) :
  parsed (trace (snd (WriteMessage m s))) = parsed (trace s) /\
  hook_calls (trace (snd (WriteMessage m s))) = hook_calls (trace s) /\
  closes (trace (snd (WriteMessage m s))) = closes (trace s).
Proof.
  destruct (WriteMessage_wire m s) as (d & Ht & Hd).
  destruct (on_wire_silent d Hd) as (Hp & Hh & _ & Hc).
  rewrite Ht, parsed_app, hook_calls_app, closes_app.
  change (parsed (EvEncode m :: d)) with (parsed d).
  change (hook_calls (EvEncode m :: d)) with (hook_calls d).
  change (closes (EvEncode m :: d)) with (closes d).
  rewrite Hp, Hh, Hc, !app_nil_r. auto.
Qed.

End Wire.

Section MoreClient.
Context {W : Type} `{Transport W} `{irc.Codec}.
Variable Hooks : list (Hook W).

(** ** Sends *)

Lemma write_nil (buf : string) (s : State W) :
  fst (write buf s) = Ret None ->
  exists cn b w1 w2 w3,
    conn (client s) = Some cn /\ rw (client s) = Some b /\
    conn_SetDeadline cn (timeoutTime (client s)) (world s) = (None, w1) /\
    rw_WriteString b buf w1 = ((len buf, None), w2) /\
    rw_Flush b w2 = (None, w3) /\
    snd (write buf s)
    = {| client := client s; world := w3;
         trace := trace s ++ [EvSetDeadline cn (timeoutTime (client s));
                              EvWriteString b buf; EvFlush b;
                              EvLog ("Sent: " ++ TrimRight buf CRLF)] |}.
Proof.
  unfold write, bind, get_client, deref, call, note, ret, panic. simpl.
  destruct (conn (client s)) as [cn|]; simpl; [| discriminate].
  destruct (conn_SetDeadline _ _ _) as [[err|] w1] eqn:Hd; simpl;
    [discriminate |].
  destruct (rw (client s)) as [b|]; simpl; [| discriminate].
  destruct (rw_WriteString _ _ _) as [[sz [err|]] w2] eqn:Hw; simpl;
    [discriminate |].
  destruct (Z.eqb_spec sz (len buf)) as [->|Hne]; simpl; [| discriminate].
  destruct (rw_Flush _ _) as [[err|] w3] eqn:Hf; simpl; [discriminate |].
  intros _. exists cn, b, w1, w2, w3. rewrite <- !app_assoc. simpl.
  auto 10.
Qed.

(** X1.  A send that returns nil has gone all the way: the frame encoded (in
    full, or cut short by the codec), the deadline was set, the writer took
    every byte of the line and was flushed; these calls, in this order and
    no others, are what the send adds to the trace. *)
Theorem WriteMessage_nil (m : irc.Message) (s : State W) :
  fst (WriteMessage m s) = Ret None ->
  exists cn b w1 w2 w3,
    conn (client s) = Some cn /\ rw (client s) = Some b /\
    (snd (irc.Encode m) = None \/ snd (irc.Encode m) = Some ErrTruncated) /\
    conn_SetDeadline cn (timeoutTime (client s)) (world s) = (None, w1) /\
    rw_WriteString b (fst (irc.Encode m)) w1
    = ((len (fst (irc.Encode m)), None), w2) /\
    rw_Flush b w2 = (None, w3) /\
    world (snd (WriteMessage m s)) = w3 /\
    trace (snd (WriteMessage m s))
    = (trace s
       ++ [EvEncode m; EvSetDeadline cn (timeoutTime (client s));
           EvWriteString b (fst (irc.Encode m)); EvFlush b;
           EvLog ("Sent: " ++ TrimRight (fst (irc.Encode m)) CRLF)])%list.
Proof.
  unfold WriteMessage, bind, call. simpl.
  destruct (irc.Encode m) as [buf o] eqn:He. simpl.
  assert (Hw : fst (write buf {| client := client s; world := world s;
                                 trace := trace s ++ [EvEncode m] |})
               = Ret None ->
               (o = None \/ o = Some ErrTruncated) ->
          exists cn b w1 w2 w3,
            conn (client s) = Some cn /\ rw (client s) = Some b /\
            (o = None \/ o = Some ErrTruncated) /\
            conn_SetDeadline cn (timeoutTime (client s)) (world s)
            = (None, w1) /\
            rw_WriteString b buf w1 = ((len buf, None), w2) /\
            rw_Flush b w2 = (None, w3) /\
            world (snd (write buf {| client := client s; world := world s;
                                     trace := trace s ++ [EvEncode m] |}))
            = w3 /\
            trace (snd (write buf {| client := client s; world := world s;
                                     trace := trace s ++ [EvEncode m] |}))
            = (trace s
               ++ [EvEncode m; EvSetDeadline cn (timeoutTime (client s));
                   EvWriteString b buf; EvFlush b;
                   EvLog ("Sent: " ++ TrimRight buf CRLF)])%list).
  { intros Hn Ho.
    destruct (write_nil _ _ Hn) as (cn & b & w1 & w2 & w3 & Hc & Hb & Hd
                                    & Hws & Hf & Hs).
    exists cn, b, w1, w2, w3. simpl in *. rewrite Hs. simpl.
    rewrite <- app_assoc. auto 10. }
  destruct o as [err|]; simpl.
  - destruct (decide (err = ErrTruncated)) as [->|Hne]; [| discriminate].
    intros Hn. apply Hw; auto.
  - intros Hn. apply Hw; auto.
Qed.

Lemma Message_for_client (fuel : nat) (target message : string) (i : Z)
    (s : State W) :
  client (snd (Message_for fuel target message i s)) = client s.
Proof.
  revert i s. induction fuel as [|fuel IH]; intros i s; [reflexivity |].
  cbn [Message_for]. destruct (i <? len message); [| reflexivity].
  destruct (slice message i _) as [piece|]; [| reflexivity].
  unfold bind.
  destruct (WriteMessage_trace (irc.mkMessage "PRIVMSG" [target; piece]) s)
    as (d & _ & _ & Hcl).
  destruct (WriteMessage (irc.mkMessage "PRIVMSG" [target; piece]) s)
    as [[[err|]|why|] s1]; cbn [snd] in *; try exact Hcl.
  now rewrite IH.
Qed.

(** X2.  Sending never changes the client: neither a single frame nor
    [Register] (which leaves the registered flag alone) nor [Message]. *)
Theorem senders_keep_client (s : State W) :
  (forall m, client (snd (WriteMessage m s)) = client s) /\
  client (snd (Register s)) = client s /\
  (forall target message,
     client (snd (Message target message s)) = client s).
Proof.
  split; [intros m; now destruct (WriteMessage_trace m s) as (d & _ & _ & ?) |].
  split; [| intros; apply Message_for_client].
  unfold Register, Nick, User, bind, get_client, ret.
  cbn -[WriteMessage].
  destruct (WriteMessage_trace (irc.mkMessage "NICK" [nick (client s)]) s)
    as (d & _ & _ & Hcl).
  destruct (WriteMessage (irc.mkMessage "NICK" [nick (client s)]) s)
    as [[[err|]|why|] s1]; cbn -[WriteMessage] in *; try exact Hcl.
  destruct (WriteMessage_trace
    (irc.mkMessage "USER" [ident (client s1); "0"; "*"; name (client s1)])
    s1) as (d2 & _ & _ & Hcl2).
  destruct (WriteMessage
    (irc.mkMessage "USER" [ident (client s1); "0"; "*"; name (client s1)])
    s1) as [[[err|]|why|] s2]; cbn -[WriteMessage] in *; congruence.
Qed.

End MoreClient.

Section MoreLoop.
Context {W : Type} `{Transport W} `{irc.Codec}.
Variable Hooks : list (Hook W).

(** ** The loop over several turns *)

Lemma read_returns (s : State W) (r : string * option error) :
  fst (read s) = Ret r -> exists cn, conn (client s) = Some cn.
Proof.
  unfold read, bind, get_client, deref, panic. simpl.
  destruct (conn (client s)) as [cn|]; simpl; [eauto | discriminate].
Qed.

Lemma ReadMessage_read_error (s : State W) (line : string) (err : error) :
  fst (read s) = Ret (line, Some err) ->
  ReadMessage s = (Ret (irc.zeroMessage, Some err), snd (read s)).
Proof.
  intros Hr. unfold ReadMessage, bind.
  destruct (read s) as [r s1]. cbn [fst snd] in *. now subst r.
Qed.

(** X3.  When the read of a line fails, the loop returns that error as it
    is; it has parsed nothing, called no hook, sent nothing and closed
    nothing: the client is as it was and still holds its connection. *)
Theorem Loop_read_error (s : State W) (line : string) (err : error)
    (fuel : nat) :
  fst (read s) = Ret (line, Some err) ->
  let s1 := snd (read s) in
  Loop Hooks (S fuel) s = (Ret (Some err), s1) /\
  client s1 = client s /\ IsConnected (client s1) = true /\
  parsed (trace s1) = parsed (trace s) /\
  hook_calls (trace s1) = hook_calls (trace s) /\
  frames_sent (trace s1) = frames_sent (trace s) /\
  closes (trace s1) = closes (trace s).
Proof.
  intros Hr. cbv zeta.
  destruct (read_returns _ _ Hr) as (cn & Hcn).
  destruct (read_wire s) as (d & Ht & Hd & Hcl).
  destruct (on_wire_silent d Hd) as (Hp & Hh & Hf & Hc).
  split.
  - rewrite Loop_S. unfold Loop_body, bind.
    now rewrite (ReadMessage_read_error _ _ _ Hr).
  - rewrite Ht, parsed_app, hook_calls_app, frames_sent_app, closes_app.
    rewrite Hp, Hh, Hf, Hc, !app_nil_r, Hcl. unfold IsConnected.
    rewrite Hcn. auto 10.
Qed.

Lemma Loop_body_return_nil (s s' : State W) :
  Loop_body Hooks s = (Ret (Return None), s') ->
  conn (client s') = None /\ rw (client s') = None /\
  registered (client s') = false /\
  exists tr cn, trace s' = (tr ++ [EvConnClose cn])%list.
Proof.
  unfold Loop_body, bind at 1.
  destruct (ReadMessage s) as [[[msg [err|]]|why|] s1] eqn:Hr;
    try discriminate.
  destruct (ReadMessage_ok _ _ _ Hr) as (cn & b & buf & s0 & _ & Hcn & _).
  unfold Loop_frame.
  destruct (String.eqb (irc.Command msg) "PING") eqn:Hp.
  - apply String.eqb_eq in Hp. rewrite Hp. cbn [String.eqb Ascii.eqb Bool.eqb].
    unfold bind.
    destruct (Pong msg s1) as [[[e|]|w|] s2]; try discriminate.
    rewrite hooks_eq. unfold ret. cbv beta iota. discriminate.
  - unfold bind at 1. unfold ret at 1.
    destruct (String.eqb (irc.Command msg) "ERROR").
    + unfold bind. rewrite Close_eq, Hcn. unfold ret.
      intros E. inversion E; subst. cbn. eauto 10.
    + unfold bind. rewrite hooks_eq. unfold ret. cbv beta iota.
      discriminate.
Qed.

(** X4.  The loop returns nil in one way only: it has read ERROR and closed
    the connection.  So after a nil result the client has no connection and
    no reader and writer, is not registered, and the close is the last thing
    the loop did. *)
Theorem Loop_nil_closed (fuel : nat) (s s' : State W) :
  Loop Hooks fuel s = (Ret None, s') ->
  conn (client s') = None /\ rw (client s') = None /\
  registered (client s') = false /\
  exists tr cn, trace s' = (tr ++ [EvConnClose cn])%list.
Proof.
  revert s. induction fuel as [|fuel IH]; intros s; [discriminate |].
  rewrite Loop_S.
  destruct (Loop_body Hooks s) as [[[|[e|]]|why|] s1] eqn:Hb;
    try discriminate.
  - apply IH.
  - intros E. inversion E; subst. now apply Loop_body_return_nil with s.
Qed.

Lemma dispatches_cons (m : irc.Message) (ms : list irc.Message) :
  dispatches Hooks (m :: ms)
  = (map (fun i => (i, m)) (seq 0 (length Hooks))
     ++ dispatches Hooks ms)%list.
Proof. reflexivity. Qed.

Lemma parsed_hook_events (m : irc.Message) :
  parsed (hook_events Hooks m) = [].
Proof.
  unfold hook_events, parsed. generalize (seq 0 (length Hooks)).
  induction l as [|i l IH]; simpl; [reflexivity | exact IH].
Qed.

(** What a turn does with its frame: it parses nothing more; it calls the
    hooks, each once, when it goes on to the next turn, and no hook when
    it ends the loop. *)
Lemma Loop_frame_turn (m : irc.Message) (s1 s' : State W) (r : Res Flow) :
  Loop_frame Hooks m s1 = (r, s') ->
  parsed (trace s') = parsed (trace s1) /\
  ((r = Ret Next /\
    hook_calls (trace s')
    = (hook_calls (trace s1) ++ dispatches Hooks [m])%list)
   \/ (r <> Ret Next /\ hook_calls (trace s') = hook_calls (trace s1))).
Proof.
  assert (Hgo : forall s2 : State W,
    parsed (trace s2) = parsed (trace s1) ->
    hook_calls (trace s2) = hook_calls (trace s1) ->
    (hooks Hooks m ;; ret Next) s2 = (r, s') ->
    parsed (trace s') = parsed (trace s1) /\
    ((r = Ret Next /\
      hook_calls (trace s')
      = (hook_calls (trace s1) ++ dispatches Hooks [m])%list)
     \/ (r <> Ret Next /\ hook_calls (trace s') = hook_calls (trace s1)))).
  { intros s2 Hp2 Hh2. unfold bind. rewrite hooks_eq. unfold ret.
    intros E. inversion E; subst. cbn [trace].
    rewrite parsed_app, hook_calls_app, hook_calls_events,
      parsed_hook_events, Hp2, Hh2, app_nil_r.
    split; [reflexivity |]. left. split; [reflexivity |].
    rewrite dispatches_cons. cbn. now rewrite app_nil_r. }
  unfold Loop_frame.
  destruct (String.eqb (irc.Command m) "PING") eqn:Hping.
  - unfold bind at 1. unfold Pong.
    destruct (irc.Params m !! 0%nat) as [p|].
    + destruct (WriteMessage_parsed (irc.mkMessage "PONG" [p]) s1)
        as (Hwp & Hwh & _).
      destruct (WriteMessage (irc.mkMessage "PONG" [p]) s1)
        as [[[e|]|w|] s2]; cbn [fst snd] in *.
      * unfold ret. intros E. inversion E; subst.
        split; [exact Hwp |]. right. split; [discriminate | exact Hwh].
      * apply String.eqb_eq in Hping. rewrite Hping.
        cbn [String.eqb Ascii.eqb Bool.eqb]. now apply Hgo.
      * intros E. inversion E; subst.
        split; [exact Hwp |]. right. split; [discriminate | exact Hwh].
      * intros E. inversion E; subst.
        split; [exact Hwp |]. right. split; [discriminate | exact Hwh].
    + unfold panic. intros E. inversion E; subst.
      split; [reflexivity |]. right. split; [discriminate | reflexivity].
  - unfold bind at 1. unfold ret at 1.
    destruct (String.eqb (irc.Command m) "ERROR").
    + unfold bind. rewrite Close_eq.
      destruct (conn (client s1)) as [cn|]; unfold ret;
        intros E; inversion E; subst; cbn [trace];
        rewrite ?parsed_app, ?hook_calls_app; cbn; rewrite ?app_nil_r;
        (split; [reflexivity |]); right;
        (split; [discriminate | reflexivity]).
    + now apply Hgo.
Qed.

(** One turn: a line is parsed at most once; the hooks are called for the
    frame of that line when the turn goes on to the next one, and not at
    all when it ends the loop. *)
Lemma Loop_body_turn (s s' : State W) (r : Res Flow) :
  Loop_body Hooks s = (r, s') ->
  exists ls ms,
    parsed (trace s') = (parsed (trace s) ++ ls)%list /\
    hook_calls (trace s') = (hook_calls (trace s) ++ dispatches Hooks ms)%list
    /\ ((r = Ret Next /\
          exists l, ls = [l] /\ ms = [fst (irc.ParseMessage l)])
         \/ (r <> Ret Next /\ ms = [] /\ (ls = [] \/ exists l, ls = [l]))).
Proof.
  unfold Loop_body, bind at 1. unfold ReadMessage, bind at 1.
  destruct (read_wire s) as (d & Ht & Hd & Hcl).
  destruct (on_wire_silent d Hd) as (Hp & Hh & _ & _).
  assert (Hquit : forall r0 : Res Flow, r0 <> Ret Next ->
    (r0, snd (read s)) = (r, s') ->
    exists ls ms,
      parsed (trace s') = (parsed (trace s) ++ ls)%list /\
      hook_calls (trace s')
      = (hook_calls (trace s) ++ dispatches Hooks ms)%list /\
      ((r = Ret Next /\
        exists l, ls = [l] /\ ms = [fst (irc.ParseMessage l)])
       \/ (r <> Ret Next /\ ms = [] /\ (ls = [] \/ exists l, ls = [l])))).
  { intros r0 Hr0 E. inversion E; subst. exists [], [].
    rewrite Ht, parsed_app, hook_calls_app, Hp, Hh. cbn.
    split; [reflexivity | split; [reflexivity |]]. right. auto. }
  destruct (read s) as [[[buf [err|]]|why|] s0]; cbn [fst snd] in *.
  - unfold ret. apply Hquit. discriminate.
  - unfold bind at 1, call. cbn [fst snd world client trace].
    assert (Hbase :
      parsed (trace s0 ++ [EvParseMessage buf])
      = (parsed (trace s) ++ [buf])%list /\
      hook_calls (trace s0 ++ [EvParseMessage buf]) = hook_calls (trace s)).
    { rewrite Ht, !parsed_app, !hook_calls_app, Hp, Hh. cbn.
      now rewrite !app_nil_r. }
    destruct Hbase as (Hbp & Hbh).
    assert (Hframe : forall m, m = fst (irc.ParseMessage buf) ->
      Loop_frame Hooks m
        {| client := client s0; world := world s0;
           trace := trace s0 ++ [EvParseMessage buf] |} = (r, s') ->
      exists ls ms,
        parsed (trace s') = (parsed (trace s) ++ ls)%list /\
        hook_calls (trace s')
        = (hook_calls (trace s) ++ dispatches Hooks ms)%list /\
        ((r = Ret Next /\
          exists l, ls = [l] /\ ms = [fst (irc.ParseMessage l)])
         \/ (r <> Ret Next /\ ms = [] /\
             (ls = [] \/ exists l, ls = [l])))).
    { intros m Hm E.
      destruct (Loop_frame_turn _ _ _ _ E) as (Hp1 & [(Hr & Hh1)|(Hr & Hh1)]);
        cbn [trace] in *.
      - exists [buf], [m]. rewrite Hp1, Hh1, Hbp, Hbh.
        split; [reflexivity | split; [reflexivity |]].
        left. split; [exact Hr |]. exists buf. now subst m.
      - exists [buf], []. rewrite Hp1, Hh1, Hbp, Hbh. cbn.
        rewrite app_nil_r. split; [reflexivity | split; [reflexivity |]].
        right. eauto. }
    destruct (irc.ParseMessage buf) as [m [e|]] eqn:Hpm.
    + destruct (decide (e = ErrTruncated)).
      * unfold ret at 1. apply Hframe. reflexivity.
      * unfold ret. intros E. inversion E; subst. exists [buf], [].
        cbn [trace]. rewrite Hbp, Hbh. cbn. rewrite app_nil_r.
        split; [reflexivity | split; [reflexivity |]].
        right. split; [discriminate | eauto].
    + unfold ret at 1. apply Hframe. reflexivity.
  - apply Hquit. discriminate.
  - apply Hquit. discriminate.
Qed.

(** X5.  Frames reach the hooks in the order of arrival.  Over a whole run
    of the loop, the lines [ls] it had decoded and the hook calls it made
    are related so: the calls are those of handing the frames of the lines,
    one frame after the other, each to every hook in the order of the slice;
    only the frame of the last line may have gone without (the loop ended on
    it). *)
Theorem Loop_arrival_order (fuel : nat) (s : State W) :
  let s' := snd (Loop Hooks fuel s) in
  exists ls ms,
    parsed (trace s') = (parsed (trace s) ++ ls)%list /\
    hook_calls (trace s') = (hook_calls (trace s) ++ dispatches Hooks ms)%list
    /\ (ms = map (fun l => fst (irc.ParseMessage l)) ls
         \/ exists ls' l,
              ls = (ls' ++ [l])%list /\
              ms = map (fun l => fst (irc.ParseMessage l)) ls').
Proof.
  cbv zeta. revert s. induction fuel as [|fuel IH]; intros s.
  - exists [], []. cbn. rewrite !app_nil_r. auto.
  - rewrite Loop_S.
    destruct (Loop_body Hooks s) as [r s1] eqn:Hb.
    destruct (Loop_body_turn _ _ _ Hb)
      as (ls & ms & Hp & Hh & [(Hr & l & Hl & Hm)|(Hr & Hm & Hl)]).
    + subst r ls ms. destruct (IH s1) as (ls2 & ms2 & Hp2 & Hh2 & Hrel).
      exists (l :: ls2), (fst (irc.ParseMessage l) :: ms2).
      rewrite Hp2, Hh2, Hp, Hh, <- !app_assoc.
      split; [reflexivity |]. split.
      * unfold dispatches. cbn. rewrite app_nil_r. reflexivity.
      * destruct Hrel as [-> | (ls' & l' & -> & ->)];
          [left; reflexivity |].
        right. exists (l :: ls'), l'. split; reflexivity.
    + subst ms.
      assert (Hend : snd (match r with
                          | Ret Next => Loop Hooks fuel s1
                          | Ret (Return e) => (Ret e, s1)
                          | Panic why => (Panic why, s1)
                          | OutOfFuel => (OutOfFuel, s1)
                          end) = s1).
      { destruct r as [[|e]|why|]; try reflexivity. now destruct Hr. }
      cbn [fst snd] in *.
      replace (let (r0, s'0) := (r, s1) in
               match r0 with
               | Ret Next => Loop Hooks fuel s'0
               | Ret (Return e) => (Ret e, s'0)
               | Panic why => (Panic why, s'0)
               | OutOfFuel => (OutOfFuel, s'0)
               end)
        with (match r with
              | Ret Next => Loop Hooks fuel s1
              | Ret (Return e) => (Ret e, s1)
              | Panic why => (Panic why, s1)
              | OutOfFuel => (OutOfFuel, s1)
              end) by reflexivity.
      rewrite Hend. exists ls, []. split; [exact Hp |].
      split; [exact Hh |].
      destruct Hl as [-> | (l & ->)]; [left; reflexivity |].
      right. exists [], l. split; reflexivity.
Qed.

End MoreLoop.

Section Lifecycle.
Context {W : Type} `{Transport W} `{irc.Codec}.
Variable Hooks : list (Hook W).

(** ** Connecting, closing, and what a closed client does *)

(** X6.  A client that has been closed has no connection to set a deadline
    on: a read panics before anything is asked from the network, and so does
    the loop; a send panics as soon as the frame has encoded (a frame that
    does not encode returns the encode error as on any client). *)
Theorem closed_client_panics (s : State W) (m : irc.Message) (fuel : nat) :
  let s1 := snd (Close s) in
  ReadMessage s1 = (Panic nil_dereference, s1) /\
  Loop Hooks (S fuel) s1 = (Panic nil_dereference, s1) /\
  fst (WriteMessage m s1)
  = match snd (irc.Encode m) with
    | Some err =>
        if decide (err = ErrTruncated) then Panic nil_dereference
        else Ret (Some (errorString ("unable to encode message: "
                                     ++ Error err)))
    | None => Panic nil_dereference
    end.
Proof.
  cbv zeta.
  assert (Hc : conn (client (snd (Close s))) = None).
  { rewrite Close_eq. destruct (conn (client s)) eqn:E; cbn;
      [reflexivity | exact E]. }
  assert (Hr : ReadMessage (snd (Close s))
               = (Panic nil_dereference, snd (Close s))).
  { unfold ReadMessage, read, bind, get_client, deref, panic. simpl.
    now rewrite Hc. }
  split; [exact Hr |]. split.
  - rewrite Loop_S. unfold Loop_body, bind. now rewrite Hr.
  - unfold WriteMessage, write, bind, call, get_client, deref, panic, ret.
    simpl. destruct (irc.Encode m) as [buf [err|]]; simpl.
    + destruct (decide (err = ErrTruncated)); simpl; [| reflexivity].
      now rewrite Hc.
    + now rewrite Hc.
Qed.

(** X7.  [Connect] never panics and never closes anything, not even the
    connection the client may already hold.  When the dial fails, the error
    of the dial is returned as it is, no reader and writer is made and the
    client stays as it was; when it succeeds, the client holds the dialled
    connection and a reader and writer made around it. *)
Theorem Connect_outcome (s : State W) :
  let d := net_Dial timeoutConnect keepAliveDuration (tls (client s))
             (address (client s)) (world s) in
  let s1 := snd (Connect s) in
  closes (trace s1) = closes (trace s) /\
  match snd (fst d) with
  | Some err =>
      Connect s
      = (Ret (Some err),
         {| client := client s; world := snd d;
            trace := trace s ++ [EvDial (tls (client s))
                                   (address (client s))] |})
  | None =>
      fst (Connect s) = Ret None /\
      conn (client s1) = Some (fst (fst d)) /\
      rw (client s1)
      = Some (fst (bufio_NewReadWriter (fst (fst d)) (snd d))) /\
      registered (client s1) = registered (client s) /\
      trace s1 = (trace s ++ [EvDial (tls (client s)) (address (client s));
                              EvNewReadWriter (fst (fst d))])%list
  end.
Proof.
  cbv zeta. unfold Connect, bind, get_client, call, modify_client, ret.
  simpl. destruct (net_Dial _ _ _ _ _) as [[cn [err|]] w1]; simpl.
  - rewrite closes_app. cbn. rewrite app_nil_r. auto.
  - destruct (bufio_NewReadWriter cn w1) as [b w2]. simpl.
    rewrite <- app_assoc, closes_app. cbn. rewrite app_nil_r. auto 10.
Qed.

(** X8.  [Connect] then [Close]: the connection that is closed is the one
    that was dialled, [Close] returns what closing it answered, and the
    client is not connected afterwards. *)
Theorem Connect_Close (s : State W) :
  fst (Connect s) = Ret None ->
  let cn := fst (fst (net_Dial timeoutConnect keepAliveDuration
                        (tls (client s)) (address (client s)) (world s))) in
  let s1 := snd (Connect s) in
  let s2 := snd (Close s1) in
  IsConnected (client s1) = true /\
  fst (Close s1) = Ret (fst (conn_Close cn (world s1))) /\
  closes (trace s2) = (closes (trace s) ++ [cn])%list /\
  IsConnected (client s2) = false.
Proof.
  cbv zeta. rewrite Close_eq.
  unfold Connect, bind, get_client, call, modify_client, ret, IsConnected.
  simpl. destruct (net_Dial _ _ _ _ _) as [[cn [err|]] w1]; simpl;
    [discriminate |].
  destruct (bufio_NewReadWriter cn w1) as [b w2]. simpl. intros _.
  rewrite !closes_app. cbn. rewrite !app_nil_r. auto.
Qed.

(** X9.  [SetTimeoutTime] is what the next read and the next write set as
    their deadline. *)
Theorem SetTimeoutTime_arms (d : Z) (buf : string) (s : State W)
    (cn : Conn) :
  conn (client s) = Some cn ->
  let s1 := snd (SetTimeoutTime d s) in
  (exists rest,
     trace (snd (read s1)) = (trace s ++ EvSetDeadline cn d :: rest)%list)
  /\
  (exists rest,
     trace (snd (write buf s1)) = (trace s ++ EvSetDeadline cn d :: rest)%list).
Proof.
  intros Hc. cbv zeta. split.
  - unfold read, SetTimeoutTime, modify_client, bind, get_client, deref,
      call, note, ret, panic. simpl. rewrite Hc. simpl.
    run; rewrite <- ?app_assoc; eexists; reflexivity.
  - unfold write, SetTimeoutTime, modify_client, bind, get_client, deref,
      call, note, ret, panic. simpl. rewrite Hc. simpl.
    run; rewrite <- ?app_assoc; eexists; reflexivity.
Qed.

End Lifecycle.

(** ** The sizes of the pieces *)

Lemma piece_at_length_exact (message : string) (j : nat) :
  String.length (piece_at message j)
  = Nat.min room (String.length message - room * j).
Proof.
  unfold piece_at.
  now rewrite <- bytes_length, bytes_substring, length_take, length_drop,
    bytes_length.
Qed.

Lemma pieces_lookup (message : string) (j : nat) (chunk : string) :
  pieces message !! j = Some chunk ->
  chunk = piece_at message j /\
  (j < ceil_div (String.length message) room)%nat.
Proof.
  unfold pieces.
  change (map (piece_at message)
              (seq 0 (ceil_div (String.length message) room)))
    with (piece_at message <$> seq 0 (ceil_div (String.length message) room)).
  rewrite list_lookup_fmap.
  destruct (seq 0 (ceil_div (String.length message) room) !! j) as [k|] eqn:E;
    simpl; [| discriminate].
  apply lookup_seq in E. destruct E as (-> & Hj).
  intros E. inversion E. auto.
Qed.

Section Sizes.
Context {W : Type} `{Transport W} `{irc.Codec}.

(** X10.  [Message] never sends an empty PRIVMSG, and it cuts the body at
    every 400th byte and nowhere else: each chunk handed to the codec has
    between 1 and 400 bytes, and each one that is not the last chunk of the
    body has exactly 400. *)
Theorem Message_chunk_sizes (target message : string) (s : State W) :
  len message + maxMessage <= MaxInt ->
  let s' := snd (Message target message s) in
  exists sent,
    frames_sent (trace s')
    = (frames_sent (trace s) ++ map (privmsg target) sent)%list /\
    forall j chunk,
      sent !! j = Some chunk ->
      1 <= len chunk <= 400 /\
      (Z.of_nat (S j) < Z.of_nat (length (pieces message)) ->
       len chunk = 400).
Proof.
  intros Hlen. cbv zeta. rewrite (Message_eq _ _ _ Hlen).
  exists (take (attempted target (pieces message) s) (pieces message)).
  split; [apply send_in_order_frames |].
  intros j chunk Hj. apply lookup_take_Some in Hj. destruct Hj as (Hj & _).
  apply pieces_lookup in Hj. destruct Hj as (-> & Hj).
  pose proof (ceil_div_room (String.length message) j) as Hin.
  pose proof (ceil_div_room (String.length message) (S j)) as Hnext.
  rewrite pieces_length. unfold len.
  rewrite piece_at_length_exact. unfold room in *. lia.
Qed.

End Sizes.

(** * The hooks *)

(** ** Package [oper] *)

Section OperHook.
Context {W : Type} `{Transport W} `{irc.Codec} `{oper.Replies}.

Lemma string_len_zero (x : string) : (len x =? 0) = true <-> x = "".
Proof.
  unfold len. destruct x; simpl; split; intros E;
    try reflexivity; try discriminate.
Qed.

(** X11.  On the welcome reply, with a name and a password in the
    configuration and neither of them empty, the hook sends one frame, [OPER
    name password], and leaves the client as it was. *)
Theorem oper_Hook_welcome (message : irc.Message) (s : State W)
    (operName operPass : string) :
  irc.Command message = oper.ReplyWelcome ->
  Config (client s) !! "oper-name" = Some operName ->
  Config (client s) !! "oper-password" = Some operPass ->
  operName <> "" -> operPass <> "" ->
  let s' := snd (oper.Hook message s) in
  frames_sent (trace s')
  = (frames_sent (trace s)
     ++ [irc.mkMessage "OPER" [operName; operPass]])%list /\
  client s' = client s.
Proof.
  intros Hc Hn Hp Hne Hpe. cbv zeta.
  destruct (oper.Hook message s) as [r s'] eqn:E. cbn [snd]. revert E.
  unfold oper.Hook.
  rewrite Hc, String.eqb_refl. unfold bind at 1, get_client at 1.
  rewrite Hn, Hp.
  destruct (len operName =? 0) eqn:E1;
    [apply string_len_zero in E1; contradiction |].
  destruct (len operPass =? 0) eqn:E2;
    [apply string_len_zero in E2; contradiction |].
  cbn [orb]. unfold Oper, bind, note, ret.
  pose proof (WriteMessage_frames
                (irc.mkMessage "OPER" [operName; operPass]) s) as Hf.
  destruct (WriteMessage_trace
              (irc.mkMessage "OPER" [operName; operPass]) s)
    as (d & _ & _ & Hcl).
  destruct (WriteMessage (irc.mkMessage "OPER" [operName; operPass]) s)
    as [[[err|]|why|] s1]; cbn [fst snd trace client] in *;
    intros E; inversion E; subst; cbn [trace client];
    rewrite ?frames_sent_app; cbn; rewrite ?app_nil_r; auto.
Qed.

(** X12.  The hook sends at most one frame and never changes the client.  A
    frame it sends is either [OPER name password], in answer to the welcome
    reply and with the name and the password of the configuration, both not
    empty, or [MODE nick umodes], in answer to the reply that the client is
    an operator, with the client's own nick and the modes of the
    configuration.  In particular the password goes out in answer to the
    welcome reply only. *)
Theorem oper_Hook_guarded (message : irc.Message) (s : State W) :
  let s' := snd (oper.Hook message s) in
  client s' = client s /\
  exists sent,
    frames_sent (trace s') = (frames_sent (trace s) ++ sent)%list /\
    (sent = [] \/
     (exists operName operPass,
        sent = [irc.mkMessage "OPER" [operName; operPass]] /\
        irc.Command message = oper.ReplyWelcome /\
        Config (client s) !! "oper-name" = Some operName /\
        Config (client s) !! "oper-password" = Some operPass /\
        operName <> "" /\ operPass <> "") \/
     (exists operUmodes,
        sent = [irc.mkMessage "MODE" [nick (client s); operUmodes]] /\
        irc.Command message <> oper.ReplyWelcome /\
        irc.Command message = oper.ReplyYoureOper /\
        Config (client s) !! "oper-umodes" = Some operUmodes)).
Proof.
  cbv zeta.
  destruct (oper.Hook message s) as [r s'] eqn:E. cbn [snd]. revert E.
  unfold oper.Hook.
  assert (Hquiet : @ret W unit tt s = (r, s') -> client s' = client s /\
    exists sent,
      frames_sent (trace s') = (frames_sent (trace s) ++ sent)%list /\
      (sent = [] \/
       (exists operName operPass,
          sent = [irc.mkMessage "OPER" [operName; operPass]] /\
          irc.Command message = oper.ReplyWelcome /\
          Config (client s) !! "oper-name" = Some operName /\
          Config (client s) !! "oper-password" = Some operPass /\
          operName <> "" /\ operPass <> "") \/
       (exists operUmodes,
          sent = [irc.mkMessage "MODE" [nick (client s); operUmodes]] /\
          irc.Command message <> oper.ReplyWelcome /\
          irc.Command message = oper.ReplyYoureOper /\
          Config (client s) !! "oper-umodes" = Some operUmodes))).
  { unfold ret. intros E. inversion E; subst.
    split; [reflexivity |]. exists []. rewrite app_nil_r. auto. }
  destruct (String.eqb (irc.Command message) oper.ReplyWelcome) eqn:Ew.
  - apply String.eqb_eq in Ew.
    unfold bind at 1, get_client at 1.
    destruct (Config (client s) !! "oper-name") as [operName|] eqn:Hn;
      [| exact Hquiet].
    destruct (Config (client s) !! "oper-password") as [operPass|] eqn:Hp;
      [| exact Hquiet].
    destruct (len operName =? 0) eqn:E1; [exact Hquiet |].
    destruct (len operPass =? 0) eqn:E2; [exact Hquiet |].
    cbn [orb]. unfold Oper, bind, note, ret.
    pose proof (WriteMessage_frames
                  (irc.mkMessage "OPER" [operName; operPass]) s) as Hf.
    destruct (WriteMessage_trace
                (irc.mkMessage "OPER" [operName; operPass]) s)
      as (d & _ & _ & Hcl).
    assert (Hne : operName <> "")
      by (intros E; apply string_len_zero in E; congruence).
    assert (Hpe : operPass <> "")
      by (intros E; apply string_len_zero in E; congruence).
    destruct (WriteMessage (irc.mkMessage "OPER" [operName; operPass]) s)
      as [[[err|]|why|] s1]; cbn [fst snd trace client] in *;
      intros E; inversion E; subst; cbn [trace client];
      (split; [exact Hcl |]);
      exists [irc.mkMessage "OPER" [operName; operPass]];
      rewrite ?frames_sent_app; cbn; rewrite ?app_nil_r;
      (split; [exact Hf |]); right; left; exists operName, operPass;
      auto 10.
  - apply String.eqb_neq in Ew.
    destruct (String.eqb (irc.Command message) oper.ReplyYoureOper) eqn:Ey;
      [| exact Hquiet].
    apply String.eqb_eq in Ey.
    unfold oper.sendUmode, bind at 1 2, get_client at 1.
    destruct (Config (client s) !! "oper-umodes") as [operUmodes|] eqn:Hu;
      [| exact Hquiet].
    unfold UserMode, GetNick, bind, note, ret.
    pose proof (WriteMessage_frames
                  (irc.mkMessage "MODE" [nick (client s); operUmodes]) s)
      as Hf.
    destruct (WriteMessage_trace
                (irc.mkMessage "MODE" [nick (client s); operUmodes]) s)
      as (d & _ & _ & Hcl).
    destruct (WriteMessage
                (irc.mkMessage "MODE" [nick (client s); operUmodes]) s)
      as [[[err|]|why|] s1]; cbn [fst snd trace client] in *;
      intros E; inversion E; subst; cbn [trace client];
      (split; [exact Hcl |]);
      exists [irc.mkMessage "MODE" [nick (client s); operUmodes]];
      rewrite ?frames_sent_app; cbn; rewrite ?app_nil_r;
      (split; [exact Hf |]); right; right; exists operUmodes; auto 10.
Qed.

(** X13.  On the reply that the client is an operator (and unless that
    numeric is the welcome reply's), with modes in the configuration, the
    hook sends one frame, [MODE] with the client's own nick and those modes.
    *)
Theorem oper_Hook_modes (message : irc.Message) (s : State W)
    (operUmodes : string) :
  irc.Command message <> oper.ReplyWelcome ->
  irc.Command message = oper.ReplyYoureOper ->
  Config (client s) !! "oper-umodes" = Some operUmodes ->
  let s' := snd (oper.Hook message s) in
  frames_sent (trace s')
  = (frames_sent (trace s)
     ++ [irc.mkMessage "MODE" [GetNick (client s); operUmodes]])%list.
Proof.
  intros Hw Hy Hu. cbv zeta.
  destruct (oper.Hook message s) as [r s'] eqn:E. cbn [snd]. revert E.
  unfold oper.Hook.
  apply String.eqb_neq in Hw. rewrite Hw, Hy, String.eqb_refl.
  unfold oper.sendUmode, bind at 1 2, get_client at 1. rewrite Hu.
  unfold UserMode, GetNick, bind, note, ret.
  pose proof (WriteMessage_frames
                (irc.mkMessage "MODE" [nick (client s); operUmodes]) s)
    as Hf.
  destruct (WriteMessage
              (irc.mkMessage "MODE" [nick (client s); operUmodes]) s)
    as [[[err|]|why|] s1]; cbn [fst snd trace client] in *;
    intros E; inversion E; subst; cbn [trace client];
    rewrite ?frames_sent_app; cbn; rewrite ?app_nil_r; auto.
Qed.

End OperHook.

(** ** Package [recordips] *)

Section RecordHook.
Context {W : Type} `{recordips.CidrList W} `{irc.Codec} `{Strings}.

(** Frames the hook passes by: no NOTICE, not two parameters, or fewer
    than eight fields. *)
Lemma recordips_Hook_other (message : irc.Message) (s : State W) :
  irc.Command message <> "NOTICE" \/ length (irc.Params message) <> 2%nat ->
  recordips.Hook message s = (Ret tt, s).
Proof.
  intros Hor. hook_open.
  destruct (String.eqb_spec (irc.Command message) "NOTICE") as [Hc|Hc];
    cbn [negb]; [| reflexivity].
  destruct (Z.eqb_spec (Z.of_nat (length (irc.Params message))) 2)
    as [Hl|Hl]; cbn [negb]; [| reflexivity].
  destruct Hor as [Hor|Hor]; [contradiction | lia].
Qed.

Lemma recordips_Hook_short (message : irc.Message) (s : State W)
    (star notice : string) :
  irc.Command message = "NOTICE" ->
  irc.Params message = [star; notice] ->
  (length (strings_Fields notice) < 8)%nat ->
  recordips.Hook message s = (Ret tt, s).
Proof.
  intros Hc Hp Hlen. hook_open. rewrite Hc, Hp.
  change (negb (Z.of_nat (length [star; notice]) =? 2)) with false.
  cbn [String.eqb Ascii.eqb Bool.eqb negb lookup list_lookup].
  cbv beta iota.
  destruct (Z.ltb_spec (Z.of_nat (length (strings_Fields notice))) 8);
    [reflexivity | lia].
Qed.

(** The hook in closed form, for a NOTICE with two parameters whose
    second one has eight fields or more. *)
Lemma recordips_Hook_notice (message : irc.Message) (s : State W)
    (star notice : string) :
  irc.Command message = "NOTICE" ->
  irc.Params message = [star; notice] ->
  (8 <= length (strings_Fields notice))%nat ->
  exists kind nick ip,
    strings_Fields notice !! 3%nat = Some kind /\
    strings_Fields notice !! 4%nat = Some nick /\
    strings_Fields notice !! 7%nat = Some ip /\
    recordips.Hook message s =
    if negb (String.eqb kind "CLICONN") then (Ret tt, s)
    else
      match Config (client s) !! "record-ip-file" with
      | None => (Ret tt, s)
      | Some ipFile =>
          let a := recordips.cidrlist_RecordIP ipFile ip ("IRC: " ++ nick)
                     (world s) in
          (Ret tt,
           {| client := client s; world := snd a;
              trace :=
                trace s
                ++ [EvLog
                      match fst a with
                      | Some err =>
                          "recordips: Unable to record IP: " ++ Error err
                      | None =>
                          "recordips: Recorded IP: " ++ ip ++ " ("
                          ++ nick ++ ")"
                      end] |})
      end.
Proof.
  intros Hc Hp Hlen.
  destruct (lookup_lt_is_Some_2 (strings_Fields notice) 3) as (kind & Hk);
    [lia |].
  destruct (lookup_lt_is_Some_2 (strings_Fields notice) 4) as (nick & Hn);
    [lia |].
  destruct (lookup_lt_is_Some_2 (strings_Fields notice) 7) as (ip & Hi);
    [lia |].
  exists kind, nick, ip. split; [exact Hk |]. split; [exact Hn |].
  split; [exact Hi |].
  hook_open. rewrite Hc, Hp.
  change (negb (Z.of_nat (length [star; notice]) =? 2)) with false.
  cbn [String.eqb Ascii.eqb Bool.eqb negb lookup list_lookup].
  cbv beta iota.
  destruct (Z.ltb_spec (Z.of_nat (length (strings_Fields notice))) 8);
    [lia |].
  rewrite Hk. cbv beta iota.
  destruct (negb (String.eqb kind "CLICONN")); [reflexivity |].
  destruct (Config (client s) !! "record-ip-file") as [ipFile|];
    [| reflexivity].
  rewrite Hn. cbv beta iota. rewrite Hi. cbv beta iota.
  cbn [world client trace].
  destruct (recordips.cidrlist_RecordIP ipFile ip ("IRC: " ++ nick)
              (world s)) as [[err|] w]; reflexivity.
Qed.

(** What the hook does on any frame, in three cases. *)
Lemma recordips_Hook_cases (message : irc.Message) (s : State W) :
  recordips.Hook message s = (Ret tt, s) \/
  exists star notice,
    irc.Command message = "NOTICE" /\
    irc.Params message = [star; notice] /\
    (8 <= length (strings_Fields notice))%nat.
Proof.
  destruct (String.eqb_spec (irc.Command message) "NOTICE") as [Hc|Hc];
    [| left; apply recordips_Hook_other; auto].
  destruct (irc.Params message) as [|star [|notice [|x rest]]] eqn:Ep;
    try (left; apply recordips_Hook_other; right; rewrite Ep; simpl; lia).
  destruct (le_lt_dec 8 (length (strings_Fields notice))) as [Hl|Hl].
  - right. exists star, notice. auto.
  - left. now apply recordips_Hook_short with star notice.
Qed.

(** X14.  The hook is safe on every frame: whatever the command, the
    parameters and the fields are, no index is out of range and the hook
    returns; it sends nothing, does not change the client, and writes at
    most one line to the log. *)
Theorem recordips_Hook_safe (message : irc.Message) (s : State W) :
  let s' := snd (recordips.Hook message s) in
  fst (recordips.Hook message s) = Ret tt /\
  client s' = client s /\
  exists lines,
    trace s' = (trace s ++ map EvLog lines)%list /\ (length lines <= 1)%nat.
Proof.
  cbv zeta.
  assert (Hidle : fst (Ret tt, s) = Ret tt /\
                  client (snd (@Ret unit tt, s)) = client s /\
                  exists lines,
                    trace (snd (@Ret unit tt, s))
                    = (trace s ++ map EvLog lines)%list /\
                    (length lines <= 1)%nat).
  { cbn. split; [reflexivity |]. split; [reflexivity |].
    exists []. cbn. rewrite app_nil_r. auto. }
  destruct (recordips_Hook_cases message s)
    as [-> | (star & notice & Hc & Hp & Hl)]; [exact Hidle |].
  destruct (recordips_Hook_notice message s star notice Hc Hp Hl)
    as (kind & nick & ip & _ & _ & _ & ->).
  destruct (negb (String.eqb kind "CLICONN")); [exact Hidle |].
  destruct (Config (client s) !! "record-ip-file") as [ipFile|];
    [| exact Hidle].
  cbn. split; [reflexivity |]. split; [reflexivity |].
  eexists [_]. cbn. split; [reflexivity | lia].
Qed.

(** X15.  The hook records an address for a CLICONN notice only.  Either it
    leaves the world as it is, or the frame is a NOTICE with two parameters,
    the second one has eight fields or more and the fourth is CLICONN, the
    configuration names a file, and the world is changed by one call of
    [RecordIP]: in that file, the eighth field as the address, with the
    comment [IRC: ] and the fifth field. *)
Theorem recordips_Hook_only_cliconn (message : irc.Message) (s : State W) :
  let s' := snd (recordips.Hook message s) in
  world s' = world s \/
  exists star notice ipFile nick ip,
    irc.Command message = "NOTICE" /\
    irc.Params message = [star; notice] /\
    (8 <= length (strings_Fields notice))%nat /\
    strings_Fields notice !! 3%nat = Some "CLICONN" /\
    strings_Fields notice !! 4%nat = Some nick /\
    strings_Fields notice !! 7%nat = Some ip /\
    Config (client s) !! "record-ip-file" = Some ipFile /\
    world s'
    = snd (recordips.cidrlist_RecordIP ipFile ip ("IRC: " ++ nick)
             (world s)).
Proof.
  cbv zeta.
  destruct (recordips_Hook_cases message s)
    as [-> | (star & notice & Hc & Hp & Hl)]; [left; reflexivity |].
  destruct (recordips_Hook_notice message s star notice Hc Hp Hl)
    as (kind & nick & ip & Hk & Hn & Hi & ->).
  destruct (String.eqb_spec kind "CLICONN") as [Ek|Ek]; cbn [negb];
    [| left; reflexivity].
  subst kind.
  destruct (Config (client s) !! "record-ip-file") as [ipFile|] eqn:Hf;
    [| left; reflexivity].
  right. exists star, notice, ipFile, nick, ip. cbn. auto 10.
Qed.

(** X16.  For a CLICONN notice, with a file named in the configuration, the
    hook makes one call of [RecordIP], with the file, the eighth field as
    the address and [IRC: ] and the fifth field as the comment, and logs the
    outcome: the address and the nick, or the error of the call. *)
Theorem recordips_Hook_records (message : irc.Message) (s : State W)
    (star notice ipFile nick ip : string) :
  irc.Command message = "NOTICE" ->
  irc.Params message = [star; notice] ->
  (8 <= length (strings_Fields notice))%nat ->
  strings_Fields notice !! 3%nat = Some "CLICONN" ->
  strings_Fields notice !! 4%nat = Some nick ->
  strings_Fields notice !! 7%nat = Some ip ->
  Config (client s) !! "record-ip-file" = Some ipFile ->
  let a := recordips.cidrlist_RecordIP ipFile ip ("IRC: " ++ nick)
             (world s) in
  recordips.Hook message s
  = (Ret tt,
     {| client := client s; world := snd a;
        trace :=
          trace s
          ++ [EvLog
                match fst a with
                | Some err => "recordips: Unable to record IP: " ++ Error err
                | None =>
                    "recordips: Recorded IP: " ++ ip ++ " (" ++ nick ++ ")"
                end] |}).
Proof.
  intros Hc Hp Hlen Hk Hn Hi Hf. cbv zeta.
  destruct (recordips_Hook_notice message s star notice Hc Hp Hlen)
    as (kind & nick' & ip' & Hk' & Hn' & Hi' & ->).
  rewrite Hk in Hk'. rewrite Hn in Hn'. rewrite Hi in Hi'.
  inversion Hk'. inversion Hn'. inversion Hi'. subst.
  cbn [String.eqb Ascii.eqb Bool.eqb negb]. now rewrite Hf.
Qed.

End RecordHook.

(** ** Package [twitchstreams]: the users to look up *)

Section DefaultUsers.
Context `{Strings}.

Lemma have_fold (users : list string) (u : string) (b : bool) :
  fold_left (fun have u2 => if String.eqb u2 u then true else have) users b
  = true <-> b = true \/ u ∈ users.
Proof.
  revert b. induction users as [|u2 users IH]; intros b; simpl.
  - split; [auto | intros [E|E]; [exact E | inversion E]].
  - rewrite IH. destruct (String.eqb_spec u2 u) as [->|Hne].
    + split; [intros _; right; left | auto].
    + split; [intros [E|E]; [auto | right; now right] |].
      intros [E|E]; [auto |]. inversion E; subst; [contradiction | auto].
Qed.

Lemma have_spec (users : list string) (u : string) :
  twitchstreams.have users u = true <-> u ∈ users.
Proof.
  unfold twitchstreams.have. rewrite have_fold.
  split; [intros [E|E]; [discriminate | exact E] | auto].
Qed.

(** The loop of [getDefaultUsers], from any list already gathered. *)
Lemma getDefaultUsers_loop (fields acc : list string) :
  NoDup acc ->
  let norm := fun f => strings_ToLower (strings_TrimSpace f) in
  let r :=
    fold_left
      (fun users u =>
         let u := strings_ToLower (strings_TrimSpace u) in
         if String.eqb u "" then users
         else if negb (twitchstreams.have users u) then (users ++ [u])%list
         else users) fields acc in
  NoDup r /\
  (forall u, u ∈ r <-> u ∈ acc \/ (u <> "" /\ exists f, f ∈ fields /\ u = norm f))
  /\ exists ext,
       r = (acc ++ ext)%list /\
       ext `sublist_of` filter (fun u => u <> "") (map norm fields).
Proof.
  cbv zeta. revert acc. induction fields as [|f fields IH]; intros acc Hnd.
  - simpl. split; [exact Hnd |]. split.
    + intros u. split; [auto |]. intros [E|(_ & f & Hf & _)]; [exact E |].
      inversion Hf.
    + exists []. rewrite app_nil_r. split; [reflexivity | constructor].
  - cbn [fold_left map].
    destruct (String.eqb_spec (strings_ToLower (strings_TrimSpace f)) "")
      as [He|He].
    + destruct (IH acc Hnd) as (Hn & Hm & ext & Hr & Hs).
      split; [exact Hn |]. split.
      * intros u. rewrite Hm. split.
        -- intros [E|(Hu & g & Hg & ->)]; [auto |].
           right. split; [exact Hu |]. exists g. split; [now right | auto].
        -- intros [E|(Hu & g & Hg & ->)]; [auto |].
           right. split; [exact Hu |]. inversion Hg; subst; [| eauto].
           contradiction.
      * exists ext. split; [exact Hr |].
        rewrite filter_cons_False by (intros E; now apply E). exact Hs.
    + destruct (twitchstreams.have acc (strings_ToLower (strings_TrimSpace f)))
        eqn:Hh; cbn [negb].
      * apply have_spec in Hh.
        destruct (IH acc Hnd) as (Hn & Hm & ext & Hr & Hs).
        split; [exact Hn |]. split.
        -- intros u. rewrite Hm. split.
           ++ intros [E|(Hu & g & Hg & ->)]; [auto |].
              right. split; [exact Hu |]. exists g.
              split; [now right | auto].
           ++ intros [E|(Hu & g & Hg & ->)]; [auto |].
              inversion Hg; subst; [auto |]. right. eauto.
        -- exists ext. split; [exact Hr |].
           rewrite filter_cons_True by exact He. now apply sublist_cons.
      * assert (Hnot : strings_ToLower (strings_TrimSpace f) ∉ acc).
        { intros Hin. apply have_spec in Hin. congruence. }
        assert (Hnd' : NoDup (acc ++ [strings_ToLower (strings_TrimSpace f)])).
        { apply NoDup_app. split; [exact Hnd |]. split.
          - intros x Hx Hx'. apply list_elem_of_singleton in Hx'. now subst.
          - apply NoDup_singleton. }
        destruct (IH _ Hnd') as (Hn & Hm & ext & Hr & Hs).
        split; [exact Hn |]. split.
        -- intros u. rewrite Hm, elem_of_app, list_elem_of_singleton. split.
           ++ intros [[E|E]|(Hu & g & Hg & ->)]; [auto | |].
              ** subst u. right. split; [exact He |]. exists f.
                 split; [left | reflexivity].
              ** right. split; [exact Hu |]. exists g.
                 split; [now right | auto].
           ++ intros [E|(Hu & g & Hg & ->)]; [auto |].
              inversion Hg; subst; [auto |]. right. eauto.
        -- exists (strings_ToLower (strings_TrimSpace f) :: ext). split.
           ++ rewrite Hr, <- app_assoc. reflexivity.
           ++ rewrite filter_cons_True by exact He. now apply sublist_skip.
Qed.

(** X17.  [getDefaultUsers] gives each user once: the list has no duplicates
    and no empty name; its members are the fields of the configured value
    after trimming and lower-casing, the ones that are not empty; and they
    come in the order in which the fields do. *)
Theorem getDefaultUsers_spec (config : gmap string string) :
  let fields :=
    strings_Fields (default "" (config !! "twitchstreams-users")) in
  let norm := fun f => strings_ToLower (strings_TrimSpace f) in
  NoDup (twitchstreams.getDefaultUsers config) /\
  (forall u,
     u ∈ twitchstreams.getDefaultUsers config
     <-> u <> "" /\ exists f, f ∈ fields /\ u = norm f) /\
  twitchstreams.getDefaultUsers config
    `sublist_of` filter (fun u => u <> "") (map norm fields).
Proof.
  cbv zeta. unfold twitchstreams.getDefaultUsers.
  destruct (getDefaultUsers_loop
              (strings_Fields (default "" (config !! "twitchstreams-users")))
              [] (NoDup_nil_2 (A:=string))) as (Hn & Hm & ext & Hr & Hs).
  cbv zeta in *. split; [exact Hn |]. split.
  - intros u. rewrite Hm. split; [intros [E|E]; [inversion E | exact E] |].
    auto.
  - rewrite Hr. exact Hs.
Qed.

End DefaultUsers.

(** ** The registered flag *)

Section Registered.
Context {W : Type} `{Transport W} `{irc.Codec}.

(** X18.  The registered flag is set by [SetRegistered] only and cleared by
    [Close] only: once set, [IsRegistered] is true, stays true over sends
    and over a new [Connect], and is false after [Close]. *)
Theorem registered_lifecycle (s : State W) (m : irc.Message) :
  let s1 := snd (SetRegistered s) in
  IsRegistered (client s1) = true /\
  IsRegistered (client (snd (WriteMessage m s1))) = true /\
  IsRegistered (client (snd (Connect s1))) = true /\
  IsRegistered (client (snd (Close s1))) = false.
Proof.
  cbv zeta. split; [reflexivity |]. split.
  - destruct (WriteMessage_trace m (snd (SetRegistered s)))
      as (d & _ & _ & ->). reflexivity.
  - split.
    + unfold Connect, bind, get_client, call, modify_client, ret,
        IsRegistered. simpl.
      destruct (net_Dial _ _ _ _ _) as [[cn [err|]] w1]; simpl;
        [reflexivity |].
      destruct (bufio_NewReadWriter cn w1) as [b w2]. reflexivity.
    + rewrite Close_eq. unfold IsRegistered.
      destruct (conn (client (snd (SetRegistered s)))); reflexivity.
Qed.

End Registered.

(** ** The replies of the loop *)

Section Pings.
Context {W : Type} `{Transport W} `{irc.Codec}.
Variable Hooks : list (Hook W).

Lemma Loop_frame_frames (m : irc.Message) (s1 s' : State W) (r : Res Flow) :
  Loop_frame Hooks m s1 = (r, s') ->
  parsed (trace s') = parsed (trace s1) /\
  frames_sent (trace s')
  = (frames_sent (trace s1) ++ option_list (pong_of m))%list.
Proof.
  assert (Hgo : forall s2 : State W,
    (hooks Hooks m ;; ret Next) s2 = (r, s') ->
    parsed (trace s') = parsed (trace s2) /\
    frames_sent (trace s') = frames_sent (trace s2)).
  { intros s2. unfold bind. rewrite hooks_eq. unfold ret.
    intros E. inversion E; subst. cbn [trace].
    rewrite parsed_app, frames_sent_app.
    assert (Hp : parsed (hook_events Hooks m) = []).
    { unfold hook_events, parsed. generalize (seq 0 (length Hooks)).
      induction l as [|i l IH]; simpl; [reflexivity | exact IH]. }
    assert (Hf : frames_sent (hook_events Hooks m) = []).
    { unfold hook_events, frames_sent. generalize (seq 0 (length Hooks)).
      induction l as [|i l IH]; simpl; [reflexivity | exact IH]. }
    now rewrite Hp, Hf, !app_nil_r. }
  unfold Loop_frame, pong_of.
  destruct (String.eqb (irc.Command m) "PING") eqn:Hping.
  - unfold bind at 1. unfold Pong.
    destruct (irc.Params m) as [|p ps]; cbn [lookup list_lookup].
    + unfold panic. intros E. inversion E; subst. cbn.
      now rewrite app_nil_r.
    + destruct (WriteMessage_parsed (irc.mkMessage "PONG" [p]) s1)
        as (Hwp & _ & _).
      pose proof (WriteMessage_frames (irc.mkMessage "PONG" [p]) s1) as Hwf.
      destruct (WriteMessage (irc.mkMessage "PONG" [p]) s1)
        as [[[e|]|w|] s2]; cbn [fst snd option_list] in *.
      * unfold ret. intros E. inversion E; subst. auto.
      * apply String.eqb_eq in Hping. rewrite Hping.
        cbn [String.eqb Ascii.eqb Bool.eqb]. intros E.
        apply Hgo in E. destruct E as (-> & ->). auto.
      * intros E. inversion E; subst. auto.
      * intros E. inversion E; subst. auto.
  - unfold bind at 1. unfold ret at 1. cbn [option_list].
    rewrite app_nil_r.
    destruct (String.eqb (irc.Command m) "ERROR").
    + unfold bind. rewrite Close_eq.
      destruct (conn (client s1)) as [cn|]; unfold ret;
        intros E; inversion E; subst; cbn [trace];
        rewrite ?parsed_app, ?frames_sent_app; cbn;
        now rewrite ?app_nil_r.
    + apply Hgo.
Qed.

Lemma Loop_body_frames (s s' : State W) (r : Res Flow) :
  Loop_body Hooks s = (r, s') ->
  exists ls,
    parsed (trace s') = (parsed (trace s) ++ ls)%list /\
    frames_sent (trace s')
    = (frames_sent (trace s) ++ omap answer_of ls)%list.
Proof.
  unfold Loop_body, bind at 1. unfold ReadMessage, bind at 1.
  destruct (read_wire s) as (d & Ht & Hd & Hcl).
  destruct (on_wire_silent d Hd) as (Hp & _ & Hf & _).
  assert (Hquit : forall r0 : Res Flow,
    (r0, snd (read s)) = (r, s') ->
    exists ls,
      parsed (trace s') = (parsed (trace s) ++ ls)%list /\
      frames_sent (trace s')
      = (frames_sent (trace s) ++ omap answer_of ls)%list).
  { intros r0 E. inversion E; subst. exists [].
    rewrite Ht, parsed_app, frames_sent_app, Hp, Hf. auto. }
  destruct (read s) as [[[buf [err|]]|why|] s0]; cbn [fst snd] in *;
    try (apply Hquit).
  unfold bind at 1, call. cbn [fst snd world client trace].
  assert (Hbase :
    parsed (trace s0 ++ [EvParseMessage buf])
    = (parsed (trace s) ++ [buf])%list /\
    frames_sent (trace s0 ++ [EvParseMessage buf]) = frames_sent (trace s)).
  { rewrite Ht, !parsed_app, !frames_sent_app, Hp, Hf. cbn.
    now rewrite !app_nil_r. }
  destruct Hbase as (Hbp & Hbf).
  unfold answer_of.
  destruct (irc.ParseMessage buf) as [m [e|]] eqn:Hpm.
  - destruct (decide (e = ErrTruncated)) as [He|He].
    + unfold ret at 1. intros E.
      destruct (Loop_frame_frames _ _ _ _ E) as (Hp1 & Hf1).
      cbn [trace] in *. exists [buf]. rewrite Hp1, Hf1, Hbp, Hbf.
      cbn. rewrite Hpm.
      destruct (decide (e = ErrTruncated)); [| contradiction].
      destruct (pong_of m); auto.
    + unfold ret. intros E. inversion E; subst. exists [buf].
      cbn [trace]. rewrite Hbp, Hbf. cbn. rewrite Hpm.
      destruct (decide (e = ErrTruncated)); [contradiction |].
      now rewrite app_nil_r.
  - unfold ret at 1. intros E.
    destruct (Loop_frame_frames _ _ _ _ E) as (Hp1 & Hf1).
    cbn [trace] in *. exists [buf]. rewrite Hp1, Hf1, Hbp, Hbf.
    cbn. rewrite Hpm. destruct (pong_of m); auto.
Qed.

(** X19.  Over a whole run, the loop itself sends the replies to the probes
    and nothing else: the frames it hands to the codec are, in order, one
    PONG for every line it has decoded (if only in part) to a PING with a
    parameter, carrying the first parameter of that PING. *)
Theorem Loop_answers_pings (fuel : nat) (s : State W) :
  let s' := snd (Loop Hooks fuel s) in
  exists ls,
    parsed (trace s') = (parsed (trace s) ++ ls)%list /\
    frames_sent (trace s')
    = (frames_sent (trace s) ++ omap answer_of ls)%list.
Proof.
  cbv zeta. revert s. induction fuel as [|fuel IH]; intros s.
  - exists []. cbn. now rewrite !app_nil_r.
  - rewrite Loop_S.
    destruct (Loop_body Hooks s) as [r s1] eqn:Hb.
    destruct (Loop_body_frames _ _ _ Hb) as (ls & Hp & Hf).
    destruct r as [[|e]|why|]; cbn [snd];
      try (exists ls; split; [exact Hp | exact Hf]).
    destruct (IH s1) as (ls2 & Hp2 & Hf2).
    exists (ls ++ ls2)%list.
    rewrite Hp2, Hf2, Hp, Hf, omap_app, <- !app_assoc. auto.
Qed.

End Pings.

(** ** Package [twitchstreams]: looking streams up *)

Section TwitchLookup.
Context {W : Type} `{Transport W} `{irc.Codec} `{Strings}
        `{twitchstreams.Outside W}.

Lemma get_request (clientID url : string) (p : twitchstreams.Prog W) :
  clientID <> "" -> url <> "" ->
  twitchstreams.http_NewRequest "GET" url = None ->
  let t := default (30 * second)
             (twitchstreams.http_client (twitchstreams.globals p)) in
  let d := twitchstreams.client_Do t url clientID
             (world (twitchstreams.core p)) in
  let resp := fst (fst d) in
  let b := twitchstreams.ioutil_ReadAll (twitchstreams.Body resp) (snd d) in
  let e := twitchstreams.Body_Close (twitchstreams.Body resp) (snd b) in
  twitchstreams.get clientID url p =
  match snd (fst d) with
  | Some err =>
      (Ret (∅, Some (errorString ("error performing HTTP request: "
                                  ++ Error err))),
       after_get p (snd d) [twitchstreams.CallDo url clientID])
  | None =>
      (Ret match snd (fst b), fst e with
           | Some err, _ =>
               (∅, Some (errorString ("error reading response body: "
                                      ++ Error err)))
           | None, Some err =>
               (∅, Some (errorString ("error closing response body: "
                                      ++ Error err)))
           | None, None =>
               if negb (twitchstreams.StatusCode resp =? 200)
               then (∅, Some (errorString
                                ("unsuccessful request: "
                                 ++ twitchstreams.Status resp ++ ": "
                                 ++ fst (fst b))))
               else
                 match twitchstreams.json_Unmarshal (fst (fst b)) with
                 | (_, Some err) =>
                     (∅, Some (errorString
                                 ("error unmarshaling response: "
                                  ++ Error err)))
                 | (m, None) => (m, None)
                 end
           end,
       after_get p (snd e)
         [twitchstreams.CallDo url clientID;
          twitchstreams.CallReadAll (twitchstreams.Body resp);
          twitchstreams.CallClose (twitchstreams.Body resp)])
  end.
Proof.
  intros Hc Hu Hn. cbv zeta. unfold twitchstreams.get, after_get.
  apply String.eqb_neq in Hc. apply String.eqb_neq in Hu.
  rewrite Hc, Hu, Hn. cbn [orb].
  destruct p as [[hc us lp] [c w tr] wb].
  unfold twitchstreams.tbind, twitchstreams.get_globals,
    twitchstreams.put_globals, twitchstreams.tret, twitchstreams.web_call.
  destruct hc as [t|];
    cbn [twitchstreams.globals twitchstreams.http_client
         twitchstreams.usernameStreaming twitchstreams.lastPollTime
         twitchstreams.core twitchstreams.web client world trace default
         fst snd].
  all: destruct (twitchstreams.client_Do _ url clientID w)
         as [[resp [err|]] w1]; cbn [fst snd twitchstreams.globals
         twitchstreams.core twitchstreams.web client world trace];
         [reflexivity |].
  all: destruct (twitchstreams.ioutil_ReadAll (twitchstreams.Body resp) w1)
         as [[buf [err|]] w2]; cbn [fst snd twitchstreams.globals
         twitchstreams.core twitchstreams.web client world trace].
  all: destruct (twitchstreams.Body_Close (twitchstreams.Body resp) w2)
         as [[err2|] w3]; cbn [fst snd twitchstreams.globals
         twitchstreams.core twitchstreams.web client world trace];
         rewrite <- ?app_assoc; cbn [app]; try reflexivity.
  all: destruct (negb (twitchstreams.StatusCode resp =? 200));
         [reflexivity |].
  all: destruct (twitchstreams.json_Unmarshal buf) as [m [err|]];
         reflexivity.
Qed.


(** [get] always returns; it leaves the client, the trace of the client
    and the two maps of the package alone. *)
Lemma get_frame (clientID url : string) (p : twitchstreams.Prog W) :
  let p' := snd (twitchstreams.get clientID url p) in
  (exists r, fst (twitchstreams.get clientID url p) = Ret r) /\
  twitchstreams.usernameStreaming (twitchstreams.globals p')
  = twitchstreams.usernameStreaming (twitchstreams.globals p) /\
  twitchstreams.lastPollTime (twitchstreams.globals p')
  = twitchstreams.lastPollTime (twitchstreams.globals p) /\
  client (twitchstreams.core p') = client (twitchstreams.core p) /\
  trace (twitchstreams.core p') = trace (twitchstreams.core p).
Proof.
  cbv zeta.
  destruct (String.eqb_spec clientID "") as [Hc|Hc].
  { unfold twitchstreams.get. apply String.eqb_eq in Hc. rewrite Hc.
    cbn. eauto 10. }
  destruct (String.eqb_spec url "") as [Hu|Hu].
  { unfold twitchstreams.get. apply String.eqb_eq in Hu. rewrite Hu.
    rewrite orb_true_r. cbn. eauto 10. }
  destruct (twitchstreams.http_NewRequest "GET" url) as [err|] eqn:Hn.
  { unfold twitchstreams.get. apply String.eqb_neq in Hc, Hu.
    rewrite Hc, Hu, Hn. cbn. eauto 10. }
  rewrite (get_request _ _ _ Hc Hu Hn).
  destruct (snd (fst (twitchstreams.client_Do _ url clientID _)));
    cbn; eauto 10.
Qed.

(** X20.  [get] never leaves a response open.  It always returns, and the
    calls it makes are: none at all (an empty client id or url, or a request
    that cannot be built; then nothing changes); or the request alone, when
    the request fails; or the request, one read of the body of the response
    and one close of that same body. *)
Theorem get_closes_body (clientID url : string) (p : twitchstreams.Prog W) :
  let p' := snd (twitchstreams.get clientID url p) in
  let t := default (30 * second)
             (twitchstreams.http_client (twitchstreams.globals p)) in
  let d := twitchstreams.client_Do t url clientID
             (world (twitchstreams.core p)) in
  (exists r, fst (twitchstreams.get clientID url p) = Ret r) /\
  ((p' = p /\
    (clientID = "" \/ url = "" \/
     twitchstreams.http_NewRequest "GET" url <> None)) \/
   (twitchstreams.web p'
    = (twitchstreams.web p ++ [twitchstreams.CallDo url clientID])%list /\
    exists err, snd (fst d) = Some err) \/
   (twitchstreams.web p'
    = (twitchstreams.web p
       ++ [twitchstreams.CallDo url clientID;
           twitchstreams.CallReadAll (twitchstreams.Body (fst (fst d)));
           twitchstreams.CallClose (twitchstreams.Body (fst (fst d)))])%list
    /\ snd (fst d) = None)).
Proof.
  cbv zeta. split; [apply get_frame |].
  destruct (String.eqb_spec clientID "") as [Hc|Hc].
  { left. unfold twitchstreams.get. apply String.eqb_eq in Hc as Hc'.
    rewrite Hc'. cbn. auto. }
  destruct (String.eqb_spec url "") as [Hu|Hu].
  { left. unfold twitchstreams.get. apply String.eqb_eq in Hu as Hu'.
    rewrite Hu', orb_true_r. cbn. auto. }
  destruct (twitchstreams.http_NewRequest "GET" url) as [err|] eqn:Hn.
  { left. unfold twitchstreams.get. apply String.eqb_neq in Hc, Hu.
    rewrite Hc, Hu, Hn. cbn. split; [reflexivity |]. right. right.
    discriminate. }
  right. rewrite (get_request _ _ _ Hc Hu Hn).
  destruct (snd (fst (twitchstreams.client_Do _ url clientID _))) as [err|];
    cbn; eauto.
Qed.

(** X21.  [get] hands a map back only when everything went well: neither
    argument is empty, the request was built and answered, the body was read
    and closed without error, the status is 200 and the body unmarshalled to
    that map. *)
Theorem get_ok (clientID url : string) (p : twitchstreams.Prog W)
    (m : gmap string twitchstreams.JSON) :
  fst (twitchstreams.get clientID url p) = Ret (m, None) ->
  let t := default (30 * second)
             (twitchstreams.http_client (twitchstreams.globals p)) in
  let d := twitchstreams.client_Do t url clientID
             (world (twitchstreams.core p)) in
  let resp := fst (fst d) in
  let b := twitchstreams.ioutil_ReadAll (twitchstreams.Body resp) (snd d) in
  let e := twitchstreams.Body_Close (twitchstreams.Body resp) (snd b) in
  clientID <> "" /\ url <> "" /\
  twitchstreams.http_NewRequest "GET" url = None /\
  snd (fst d) = None /\ snd (fst b) = None /\ fst e = None /\
  twitchstreams.StatusCode resp = 200 /\
  twitchstreams.json_Unmarshal (fst (fst b)) = (m, None) /\
  world (twitchstreams.core (snd (twitchstreams.get clientID url p)))
  = snd e.
Proof.
  cbv zeta.
  destruct (String.eqb_spec clientID "") as [Hc|Hc].
  { unfold twitchstreams.get. apply String.eqb_eq in Hc. rewrite Hc.
    cbn. discriminate. }
  destruct (String.eqb_spec url "") as [Hu|Hu].
  { unfold twitchstreams.get. apply String.eqb_eq in Hu. rewrite Hu.
    rewrite orb_true_r. cbn. discriminate. }
  destruct (twitchstreams.http_NewRequest "GET" url) as [err|] eqn:Hn.
  { unfold twitchstreams.get. apply String.eqb_neq in Hc, Hu.
    rewrite Hc, Hu, Hn. cbn. discriminate. }
  rewrite (get_request _ _ _ Hc Hu Hn).
  destruct (snd (fst (twitchstreams.client_Do _ url clientID _))) as [err|];
    [cbn; discriminate |].
  cbn [fst snd].
  destruct (snd (fst (twitchstreams.ioutil_ReadAll _ _))) as [err|];
    [discriminate |].
  destruct (fst (twitchstreams.Body_Close _ _)) as [err|]; [discriminate |].
  destruct (Z.eqb_spec (twitchstreams.StatusCode
                          (fst (fst (twitchstreams.client_Do
                             (default (30 * second)
                                (twitchstreams.http_client
                                   (twitchstreams.globals p)))
                             url clientID (world (twitchstreams.core p))))))
                       200) as [Hs|Hs]; cbn [negb]; [| discriminate].
  destruct (twitchstreams.json_Unmarshal _) as [m' [err|]] eqn:Hj;
    [discriminate |].
  intros E. inversion E; subst. unfold after_get. cbn. auto 10.
Qed.


Lemma titles_ok (data : list twitchstreams.JSON)
    (acc streams : list twitchstreams.Stream) :
  twitchstreams.titles data acc = (streams, None) <->
  exists ts, streams = (acc ++ map twitchstreams.mkStream ts)%list /\
             Forall2 stream_of data ts.
Proof.
  revert acc. induction data as [|si data IH]; intros acc; simpl.
  - split.
    + intros E. inversion E; subst. exists []. rewrite app_nil_r.
      split; [reflexivity | constructor].
    + intros (ts & -> & Hf). inversion Hf; subst. now rewrite app_nil_r.
  - split.
    + destruct si as [| | | | |obj]; try discriminate.
      destruct (obj !! "title") as [[| | |title| |]|] eqn:Ht;
        try discriminate.
      intros E. apply IH in E. destruct E as (ts & -> & Hf).
      exists (title :: ts). rewrite <- app_assoc. split; [reflexivity |].
      constructor; [| exact Hf]. exists obj. auto.
    + intros (ts & -> & Hf). inversion Hf as [|? t ? ts' Hs Hf']; subst.
      destruct Hs as (obj & -> & Ht). rewrite Ht. apply IH.
      exists ts'. simpl. rewrite <- app_assoc. auto.
Qed.

Lemma titles_error (data : list twitchstreams.JSON)
    (acc streams : list twitchstreams.Stream) (err : error) :
  twitchstreams.titles data acc = (streams, Some err) -> streams = [].
Proof.
  revert acc. induction data as [|si data IH]; intros acc; simpl;
    [discriminate |].
  destruct si as [| | | | |obj];
    try (intros E; inversion E; reflexivity).
  destruct (obj !! "title") as [[| | |title| |]|];
    try (intros E; inversion E; reflexivity).
  apply IH.
Qed.

(** [getStreams], once its two arguments are not blank, is [get] and a
    look at the answer. *)
Lemma getStreams_eq (clientID username : string)
    (p : twitchstreams.Prog W) :
  let cid := strings_TrimSpace clientID in
  let user := strings_ToLower (strings_TrimSpace username) in
  let u := "https://api.twitch.tv/helix/streams?"
           ++ twitchstreams.url_Encode [("user_login", user)] in
  twitchstreams.getStreams clientID username p =
  if String.eqb cid ""
  then (Ret ([], Some (errorString "no client ID given")), p)
  else if String.eqb user ""
  then (Ret ([], Some (errorString "no username given")), p)
  else
    (match fst (twitchstreams.get cid u p) with
     | Ret (_, Some err) =>
         Ret ([], Some (errorString ("error looking up streams: "
                                     ++ Error err)))
     | Ret (resp, None) =>
         match resp !! "data" with
         | None =>
             Ret ([], Some (errorString "response is missing data key"))
         | Some (twitchstreams.JArray data) =>
             Ret (twitchstreams.titles data [])
         | Some _ =>
             Ret ([], Some (errorString "data is not the expected type"))
         end
     | Panic why => Panic why
     | OutOfFuel => OutOfFuel
     end,
     snd (twitchstreams.get cid u p)).
Proof.
  cbv zeta. unfold twitchstreams.getStreams.
  destruct (String.eqb (strings_TrimSpace clientID) ""); [reflexivity |].
  destruct (String.eqb (strings_ToLower (strings_TrimSpace username)) "");
    [reflexivity |].
  unfold twitchstreams.tbind.
  destruct (twitchstreams.get _ _ p) as [[[resp [err|]]|why|] p1];
    cbn [fst snd]; try reflexivity.
  destruct (resp !! "data") as [[| | | |data|]|]; reflexivity.
Qed.

(** X22.  [getStreams] succeeds exactly when the trimmed client id and the
    trimmed, lower-cased user name are not empty, [get] hands back a map
    whose [data] is an array, and every element of the array is an object
    with a string under [title]; the streams are then these titles, one for
    each element and in the order of the array. *)
Theorem getStreams_ok (clientID username : string)
    (p : twitchstreams.Prog W) (streams : list twitchstreams.Stream) :
  let cid := strings_TrimSpace clientID in
  let user := strings_ToLower (strings_TrimSpace username) in
  let u := "https://api.twitch.tv/helix/streams?"
           ++ twitchstreams.url_Encode [("user_login", user)] in
  fst (twitchstreams.getStreams clientID username p) = Ret (streams, None)
  <->
  cid <> "" /\ user <> "" /\
  exists resp data,
    fst (twitchstreams.get cid u p) = Ret (resp, None) /\
    resp !! "data" = Some (twitchstreams.JArray data) /\
    Forall2 stream_of data (map twitchstreams.Title streams).
Proof.
  cbv zeta. rewrite getStreams_eq.
  destruct (String.eqb_spec (strings_TrimSpace clientID) "") as [Hc|Hc].
  { split; [discriminate | intros (Hn & _); contradiction]. }
  destruct (String.eqb_spec (strings_ToLower (strings_TrimSpace username)) "")
    as [Hu|Hu].
  { split; [discriminate | intros (_ & Hn & _); contradiction]. }
  cbn [fst]. split.
  - destruct (fst (twitchstreams.get _ _ p)) as [[resp [err|]]|why|];
      try discriminate.
    destruct (resp !! "data") as [[| | | |data|]|] eqn:Hd; try discriminate.
    intros E. inversion E as [Ht]. apply titles_ok in Ht.
    destruct Ht as (ts & -> & Hf). split; [exact Hc |]. split; [exact Hu |].
    exists resp, data. split; [reflexivity |]. split; [exact Hd |].
    cbn. rewrite map_map. cbn. now rewrite map_id.
  - intros (_ & _ & resp & data & -> & -> & Hf). f_equal.
    apply titles_ok. exists (map twitchstreams.Title streams).
    split; [| exact Hf]. cbn. rewrite map_map.
    clear. induction streams as [|[t] l IH]; cbn; [reflexivity |].
    now rewrite <- IH.
Qed.

Lemma getStreams_frame (clientID username : string)
    (p : twitchstreams.Prog W) :
  let p' := snd (twitchstreams.getStreams clientID username p) in
  (exists r, fst (twitchstreams.getStreams clientID username p) = Ret r) /\
  twitchstreams.usernameStreaming (twitchstreams.globals p')
  = twitchstreams.usernameStreaming (twitchstreams.globals p) /\
  twitchstreams.lastPollTime (twitchstreams.globals p')
  = twitchstreams.lastPollTime (twitchstreams.globals p) /\
  client (twitchstreams.core p') = client (twitchstreams.core p) /\
  trace (twitchstreams.core p') = trace (twitchstreams.core p).
Proof.
  cbv zeta. rewrite getStreams_eq.
  destruct (String.eqb (strings_TrimSpace clientID) "");
    [cbn; eauto 10 |].
  destruct (String.eqb (strings_ToLower (strings_TrimSpace username)) "");
    [cbn; eauto 10 |].
  cbn [fst snd].
  destruct (get_frame (strings_TrimSpace clientID)
              ("https://api.twitch.tv/helix/streams?"
               ++ twitchstreams.url_Encode
                    [("user_login",
                      strings_ToLower (strings_TrimSpace username))]) p)
    as ((r & Hr) & Hrest).
  split; [| exact Hrest]. rewrite Hr. destruct r as [resp [err|]]; eauto.
  destruct (resp !! "data") as [[| | | |data|]|]; eauto.
Qed.

(** X23.  A client id or a user name that is blank (empty once trimmed) is
    turned down before anything is asked from the network: [getStreams]
    returns an error and no streams, and nothing has changed. *)
Theorem getStreams_blank (clientID username : string)
    (p : twitchstreams.Prog W) :
  strings_TrimSpace clientID = "" \/
  strings_ToLower (strings_TrimSpace username) = "" ->
  exists err,
    twitchstreams.getStreams clientID username p = (Ret ([], Some err), p) /\
    (err = errorString "no client ID given" \/
     err = errorString "no username given").
Proof.
  intros Hb. rewrite getStreams_eq. cbv zeta.
  destruct (String.eqb_spec (strings_TrimSpace clientID) "") as [Hc|Hc];
    [eauto |].
  destruct (String.eqb_spec (strings_ToLower (strings_TrimSpace username)) "")
    as [Hu|Hu]; [eauto |].
  destruct Hb; contradiction.
Qed.


Lemma set_streaming_eq (username : string) (b : bool)
    (p : twitchstreams.Prog W) :
  twitchstreams.set_streaming username b p
  = (Ret tt,
     {| twitchstreams.globals :=
          {| twitchstreams.http_client :=
               twitchstreams.http_client (twitchstreams.globals p);
             twitchstreams.usernameStreaming :=
               <[username := b]>
                 (twitchstreams.usernameStreaming (twitchstreams.globals p));
             twitchstreams.lastPollTime :=
               twitchstreams.lastPollTime (twitchstreams.globals p) |};
        twitchstreams.core := twitchstreams.core p;
        twitchstreams.web := twitchstreams.web p |}).
Proof. reflexivity. Qed.

(** The loop over the users sends nothing when no user of the list is
    recorded as not streaming. *)
Lemma poll_users_quiet (users : list string) (p : twitchstreams.Prog W) :
  NoDup users ->
  (forall u, u ∈ users ->
     twitchstreams.usernameStreaming (twitchstreams.globals p) !! u
     <> Some false) ->
  frames_sent (trace (twitchstreams.core
                        (snd (twitchstreams.poll_users users p))))
  = frames_sent (trace (twitchstreams.core p)).
Proof.
  revert p. induction users as [|username rest IH]; intros p Hnd Hq;
    [reflexivity |].
  apply NoDup_cons in Hnd. destruct Hnd as (Hnotin & Hnd).
  cbn [twitchstreams.poll_users].
  unfold twitchstreams.tbind at 1, twitchstreams.lift at 1, get_client at 1.
  cbn [fst snd twitchstreams.core twitchstreams.globals twitchstreams.web].
  unfold twitchstreams.tbind at 1.
  replace {| twitchstreams.globals := twitchstreams.globals p;
             twitchstreams.core := twitchstreams.core p;
             twitchstreams.web := twitchstreams.web p |} with p
    by (now destruct p).
  destruct (getStreams_frame
              (twitchstreams.config (client (twitchstreams.core p))
                 "twitchstreams-client-id") username p)
    as ((r & Hr) & Hus & _ & _ & Htr).
  destruct (twitchstreams.getStreams _ username p) as [r0 p1].
  cbn [fst snd] in *. subst r0. destruct r as [streams [err|]].
  - unfold twitchstreams.tbind, twitchstreams.lift, note,
      twitchstreams.tret. cbn. rewrite Htr, frames_sent_app. cbn.
    now rewrite app_nil_r.
  - assert (Hrest : forall b,
      frames_sent (trace (twitchstreams.core
        (snd (twitchstreams.tbind (twitchstreams.set_streaming username b)
                (fun _ => twitchstreams.poll_users rest) p1))))
      = frames_sent (trace (twitchstreams.core p))).
    { intros b. unfold twitchstreams.tbind. rewrite set_streaming_eq.
      rewrite IH; [cbn; now rewrite Htr | exact Hnd |].
      intros u Hu. cbn. rewrite Hus.
      rewrite lookup_insert_ne by (intros ->; contradiction).
      apply Hq. now right. }
    destruct (Z.of_nat (length streams) =? 0); [apply Hrest |].
    unfold twitchstreams.tbind at 1, twitchstreams.get_globals at 1.
    rewrite Hus.
    destruct (twitchstreams.usernameStreaming (twitchstreams.globals p)
                !! username) as [[|]|] eqn:Hl.
    + rewrite IH; [now rewrite Htr | exact Hnd |].
      intros u Hu. rewrite Hus. apply Hq. now right.
    + exfalso. apply (Hq username); [left | exact Hl].
    + apply Hrest.
Qed.


(** X24.  A poll announces nobody unless somebody was recorded as not
    streaming: when no user of the configuration has [false] in
    [usernameStreaming] (as on the first poll, when the map is empty),
    [pollStreams] sends no frame, whatever the lookups answer. *)
Theorem pollStreams_quiet (p : twitchstreams.Prog W) :
  (forall u,
     u ∈ twitchstreams.getDefaultUsers (Config (client (twitchstreams.core p)))
     -> twitchstreams.usernameStreaming (twitchstreams.globals p) !! u
        <> Some false) ->
  frames_sent (trace (twitchstreams.core (snd (twitchstreams.pollStreams p))))
  = frames_sent (trace (twitchstreams.core p)).
Proof.
  intros Hq. unfold twitchstreams.pollStreams.
  unfold twitchstreams.tbind at 1, twitchstreams.web_call at 1.
  destruct (twitchstreams.time_Now (world (twitchstreams.core p)))
    as [now w1].
  unfold twitchstreams.tbind at 1, twitchstreams.get_globals at 1.
  cbn [twitchstreams.globals twitchstreams.core twitchstreams.web].
  destruct (twitchstreams.time_Sub now _ <? twitchstreams.durationBetweenPolls);
    [reflexivity |].
  unfold twitchstreams.tbind at 1, twitchstreams.put_globals at 1.
  unfold twitchstreams.tbind at 1, twitchstreams.lift at 1, get_client at 1.
  cbn [fst snd twitchstreams.globals twitchstreams.core twitchstreams.web
       client].
  rewrite poll_users_quiet; [reflexivity | |].
  - unfold twitchstreams.getDefaultUsers.
    exact (proj1 (getDefaultUsers_loop _ [] (NoDup_nil_2 (A:=string)))).
  - exact Hq.
Qed.

(** X25.  Within ten minutes of the last poll, the hook does nothing with a
    frame that is no PRIVMSG but read the clock. *)
Theorem twitchstreams_Hook_idle (m : irc.Message)
    (p : twitchstreams.Prog W) :
  irc.Command m <> "PRIVMSG" ->
  let t := twitchstreams.time_Now (world (twitchstreams.core p)) in
  twitchstreams.time_Sub (fst t)
    (twitchstreams.lastPollTime (twitchstreams.globals p))
  < twitchstreams.durationBetweenPolls ->
  twitchstreams.Hook m p
  = (Ret tt,
     {| twitchstreams.globals := twitchstreams.globals p;
        twitchstreams.core :=
          {| client := client (twitchstreams.core p); world := snd t;
             trace := trace (twitchstreams.core p) |};
        twitchstreams.web :=
          twitchstreams.web p ++ [twitchstreams.CallNow] |}).
Proof.
  intros Hc. cbv zeta. intros Ht.
  unfold twitchstreams.Hook, twitchstreams.pollStreams.
  unfold twitchstreams.tbind, twitchstreams.web_call,
    twitchstreams.get_globals.
  destruct (twitchstreams.time_Now (world (twitchstreams.core p)))
    as [now w1]. cbn [fst snd twitchstreams.globals] in *.
  apply Z.ltb_lt in Ht. rewrite Ht.
  apply String.eqb_neq in Hc. rewrite Hc. reflexivity.
Qed.

(** X26.  The hook reads the first two parameters of every PRIVMSG: on a
    PRIVMSG with fewer than two, once the poll has returned, it panics on
    the index. *)
Theorem twitchstreams_Hook_short_privmsg (m : irc.Message)
    (p : twitchstreams.Prog W) :
  fst (twitchstreams.pollStreams p) = Ret tt ->
  irc.Command m = "PRIVMSG" ->
  (length (irc.Params m) < 2)%nat ->
  twitchstreams.Hook m p
  = (Panic "index out of range", snd (twitchstreams.pollStreams p)).
Proof.
  intros Hp Hc Hl. unfold twitchstreams.Hook.
  unfold twitchstreams.tbind at 1.
  destruct (twitchstreams.pollStreams p) as [r p1]. cbn [fst snd] in *.
  subst r. rewrite Hc. cbn [String.eqb Ascii.eqb Bool.eqb negb].
  destruct p1 as [g s wb].
  destruct (irc.Params m) as [|target [|text rest]]; cbn in Hl;
    [| | lia].
  - unfold twitchstreams.tbind, twitchstreams.lift, index, panic. cbn.
    now destruct s.
  - unfold twitchstreams.tbind, twitchstreams.lift, index, panic, ret. cbn.
    now destruct s.
Qed.

Lemma answers_refl (target : string) (p : twitchstreams.Prog W) :
  answers target p p.
Proof.
  repeat split. exists []. cbn. now rewrite app_nil_r.
Qed.

Lemma answers_trans (target : string) (p1 p2 p3 : twitchstreams.Prog W) :
  answers target p1 p2 -> answers target p2 p3 -> answers target p1 p3.
Proof.
  intros (Hu & Hl & Hc & t1 & Hf) (Hu' & Hl' & Hc' & t2 & Hf').
  repeat split; try congruence.
  exists (t1 ++ t2)%list. now rewrite Hf', Hf, map_app, app_assoc.
Qed.

Lemma Message_for_frames (fuel : nat) (target message : string) (i : Z)
    (s : State W) :
  exists texts,
    frames_sent (trace (snd (Message_for fuel target message i s)))
    = (frames_sent (trace s) ++ map (privmsg target) texts)%list.
Proof.
  revert i s. induction fuel as [|fuel IH]; intros i s.
  { exists []. cbn. now rewrite app_nil_r. }
  cbn [Message_for]. destruct (i <? len message).
  2:{ exists []. cbn. now rewrite app_nil_r. }
  destruct (slice message i _) as [piece|].
  2:{ exists []. cbn. now rewrite app_nil_r. }
  unfold bind.
  pose proof (WriteMessage_frames (irc.mkMessage "PRIVMSG" [target; piece]) s)
    as Hf.
  destruct (WriteMessage (irc.mkMessage "PRIVMSG" [target; piece]) s)
    as [[[err|]|why|] s1]; cbn [snd] in *;
    try (exists [piece]; exact Hf).
  destruct (IH (int_add i (int_sub maxMessage overhead)) s1) as (ts & Ht).
  exists (piece :: ts). rewrite Ht, Hf, <- app_assoc. reflexivity.
Qed.

Lemma lift_Message_answers (target message : string)
    (p : twitchstreams.Prog W) :
  answers target p
    (snd (twitchstreams.lift (Message target message) p)).
Proof.
  unfold twitchstreams.lift.
  pose proof (Message_for_frames (S (String.length message)) target message
                0 (twitchstreams.core p)) as (ts & Ht).
  pose proof (Message_for_client (S (String.length message)) target message
                0 (twitchstreams.core p)) as Hc.
  fold (Message target message) in Ht, Hc.
  destruct (Message target message (twitchstreams.core p)) as [r s1].
  cbn [snd] in *. repeat split; cbn; try assumption. now exists ts.
Qed.

Lemma say_streaming_answers (target username : string)
    (streams : list twitchstreams.Stream) (p : twitchstreams.Prog W) :
  answers target p
    (snd (twitchstreams.say_streaming target username streams p)).
Proof.
  revert p. induction streams as [|stream rest IH]; intros p;
    [apply answers_refl |].
  cbn [twitchstreams.say_streaming]. unfold twitchstreams.tbind.
  pose proof (lift_Message_answers target
                (username ++ " is streaming: " ++ twitchstreams.Title stream)
                p) as Hm.
  destruct (twitchstreams.lift _ p) as [[r|why|] p1]; cbn [snd] in *;
    try exact Hm.
  eapply answers_trans; [exact Hm | apply IH].
Qed.

Lemma getStreams_answers (target clientID username : string)
    (p : twitchstreams.Prog W) :
  answers target p (snd (twitchstreams.getStreams clientID username p)).
Proof.
  destruct (getStreams_frame clientID username p)
    as (_ & Hu & Hl & Hc & Ht).
  repeat split; try assumption. exists []. cbn.
  now rewrite Ht, app_nil_r.
Qed.

Lemma outputStreams_answers (target : string) (usernames : list string)
    (p : twitchstreams.Prog W) :
  answers target p
    (snd (twitchstreams.outputStreams target usernames p)).
Proof.
  revert p. induction usernames as [|username rest IH]; intros p;
    [apply answers_refl |].
  cbn [twitchstreams.outputStreams].
  unfold twitchstreams.tbind at 1, twitchstreams.lift at 1, get_client at 1.
  cbn [fst snd]. destruct p as [g s wb]. cbn [twitchstreams.core
    twitchstreams.globals twitchstreams.web]. destruct s as [c w tr].
  cbn [client]. unfold twitchstreams.tbind at 1.
  pose proof (getStreams_answers target
                (twitchstreams.config c "twitchstreams-client-id") username
                {| twitchstreams.globals := g;
                   twitchstreams.core :=
                     {| client := c; world := w; trace := tr |};
                   twitchstreams.web := wb |}) as Hg.
  destruct (twitchstreams.getStreams _ username _)
    as [[[streams [err|]]|why|] p1]; cbn [snd] in *; try exact Hg.
  - unfold twitchstreams.tbind.
    pose proof (lift_Message_answers target
                  ("error retrieving streams for " ++ username ++ ": "
                   ++ Error err) p1) as Hm.
    destruct (twitchstreams.lift _ p1) as [[r|why|] p2]; cbn [snd] in *;
      eapply answers_trans; eauto.
  - destruct (Z.of_nat (length streams) =? 0).
    + unfold twitchstreams.tbind.
      pose proof (lift_Message_answers target (username ++ " is not streaming")
                    p1) as Hm.
      destruct (twitchstreams.lift _ p1) as [[r|why|] p2]; cbn [snd] in *;
        try (eapply answers_trans; eauto; fail).
      eapply answers_trans; [exact Hg |].
      eapply answers_trans; [exact Hm | apply IH].
    + unfold twitchstreams.tbind.
      pose proof (say_streaming_answers target username streams p1) as Hm.
      destruct (twitchstreams.say_streaming _ _ _ p1) as [[r|why|] p2];
        cbn [snd] in *; try (eapply answers_trans; eauto; fail).
      eapply answers_trans; [exact Hg |].
      eapply answers_trans; [exact Hm | apply IH].
Qed.

(** X27.  A request for the streams is answered where it was made and
    touches nothing of the polling: whatever the arguments and whatever the
    lookups answer, every frame [triggerTwitch] sends is a PRIVMSG to
    [target], and the record of who is streaming, the time of the last
    poll and the client are left as they were. *)
Theorem triggerTwitch_answers_target (target args : string)
    (p : twitchstreams.Prog W) :
  let p' := snd (twitchstreams.triggerTwitch target args p) in
  twitchstreams.usernameStreaming (twitchstreams.globals p')
  = twitchstreams.usernameStreaming (twitchstreams.globals p) /\
  twitchstreams.lastPollTime (twitchstreams.globals p')
  = twitchstreams.lastPollTime (twitchstreams.globals p) /\
  client (twitchstreams.core p') = client (twitchstreams.core p) /\
  exists texts,
    frames_sent (trace (twitchstreams.core p'))
    = (frames_sent (trace (twitchstreams.core p))
       ++ map (privmsg target) texts)%list.
Proof.
  cbv zeta. change (answers target p
                      (snd (twitchstreams.triggerTwitch target args p))).
  unfold twitchstreams.triggerTwitch.
  destruct (negb (String.eqb args "")); [apply outputStreams_answers |].
  unfold twitchstreams.tbind, twitchstreams.lift, get_client.
  destruct p as [g [c w tr] wb]. cbn. apply outputStreams_answers.
Qed.

End TwitchLookup.

(** * The further properties on examples *)

Import ScriptedHooks.

Lemma WriteMessage_nil_witness :
  fst (WriteMessage (irc.mkMessage "JOIN" ["#godrop"]) (connected [] 1 None))
  = Ret None /\
  exists cn b,
    conn (client (connected [] 1 None)) = Some cn /\
    rw (client (connected [] 1 None)) = Some b.
Proof.
  assert (h : fst (WriteMessage (irc.mkMessage "JOIN" ["#godrop"])
                     (connected [] 1 None)) = Ret None)
    by (vm_compute; reflexivity).
  split; [exact h |].
  destruct (WriteMessage_nil _ _ h) as (cn & b & _ & _ & _ & Hc & Hb & _).
  exists cn, b. split; [exact Hc | exact Hb].
Defined.

Lemma Loop_read_error_witness :
  fst (read (connected [] 1 None)) = Ret ("", Some (errorString "EOF")) /\
  Loop two_hooks 1 (connected [] 1 None)
  = (Ret (Some (errorString "EOF")), snd (read (connected [] 1 None))).
Proof.
  assert (h : fst (read (connected [] 1 None))
              = Ret ("", Some (errorString "EOF")))
    by (vm_compute; reflexivity).
  split; [exact h |].
  exact (proj1 (Loop_read_error two_hooks _ _ _ 0%nat h)).
Defined.

Lemma Loop_nil_closed_witness :
  Loop two_hooks 3 (connected [notice_line; error_line] 1 None)
  = (Ret None,
     snd (Loop two_hooks 3 (connected [notice_line; error_line] 1 None))) /\
  conn (client (snd (Loop two_hooks 3
                       (connected [notice_line; error_line] 1 None))))
  = None.
Proof.
  assert (h : Loop two_hooks 3 (connected [notice_line; error_line] 1 None)
              = (Ret None,
                 snd (Loop two_hooks 3
                        (connected [notice_line; error_line] 1 None))))
    by (vm_compute; reflexivity).
  split; [exact h |].
  exact (proj1 (Loop_nil_closed two_hooks _ _ _ h)).
Defined.

Lemma Connect_Close_witness :
  fst (Connect (connected [] 1 None)) = Ret None /\
  IsConnected (client (snd (Close (snd (Connect (connected [] 1 None))))))
  = false.
Proof.
  assert (h : fst (Connect (connected [] 1 None)) = Ret None)
    by (vm_compute; reflexivity).
  split; [exact h |].
  exact (proj2 (proj2 (proj2 (Connect_Close _ h)))).
Defined.

Lemma SetTimeoutTime_arms_witness :
  conn (client (connected [] 1 None)) = Some 0%nat /\
  exists rest,
    trace (snd (write "QUIT" (snd (SetTimeoutTime 7 (connected [] 1 None)))))
    = (trace (connected [] 1 None) ++ EvSetDeadline 0%nat 7 :: rest)%list.
Proof.
  split; [reflexivity |].
  exact (proj2 (SetTimeoutTime_arms 7 "QUIT" (connected [] 1 None) 0%nat
                  eq_refl)).
Defined.

Lemma Message_chunk_sizes_witness :
  len long_body + maxMessage <= MaxInt /\
  exists sent,
    frames_sent (trace (snd (Message "#godrop" long_body
                               (connected [] 3 None))))
    = (frames_sent (trace (connected [] 3 None))
       ++ map (privmsg "#godrop") sent)%list /\
    forall j chunk,
      sent !! j = Some chunk ->
      1 <= len chunk <= 400 /\
      (Z.of_nat (S j) < Z.of_nat (length (pieces long_body)) ->
       len chunk = 400).
Proof.
  assert (h1 : len long_body + maxMessage <= MaxInt)
    by (apply Z.leb_le; vm_compute; reflexivity).
  split; [exact h1 |].
  exact (Message_chunk_sizes "#godrop" long_body (connected [] 3 None) h1).
Defined.

Lemma oper_Hook_welcome_witness :
  frames_sent (trace (snd (oper.Hook (irc.mkMessage "001" ["Welcome"])
                             (configured 1))))
  = (frames_sent (trace (configured 1))
     ++ [irc.mkMessage "OPER" ["root"; "hunter2"]])%list.
Proof.
  refine (proj1 (oper_Hook_welcome (irc.mkMessage "001" ["Welcome"])
                   (configured 1) "root" "hunter2" eq_refl _ _ _ _));
    [vm_compute; reflexivity | vm_compute; reflexivity
     | discriminate | discriminate].
Defined.

Lemma oper_Hook_modes_witness :
  frames_sent (trace (snd (oper.Hook (irc.mkMessage "381" ["You are oper"])
                             (configured 1))))
  = (frames_sent (trace (configured 1))
     ++ [irc.mkMessage "MODE" [GetNick (client (configured 1)); "+s"]])%list.
Proof.
  refine (oper_Hook_modes (irc.mkMessage "381" ["You are oper"])
            (configured 1) "+s" _ eq_refl _);
    [discriminate | vm_compute; reflexivity].
Defined.

Lemma recordips_Hook_records_witness :
  world (snd (recordips.Hook cliconn_notice (configured 1)))
  = snd (recordips.cidrlist_RecordIP "/etc/ips" "192.168.1.2" "IRC: will"
           (world (configured 1))).
Proof.
  refine (f_equal (fun r => world (snd r))
            (recordips_Hook_records cliconn_notice (configured 1) "*"
               _ "/etc/ips" "will" "192.168.1.2" eq_refl eq_refl _ _ _ _ _));
    [apply Nat.leb_le; vm_compute; reflexivity
     | vm_compute; reflexivity | vm_compute; reflexivity
     | vm_compute; reflexivity | vm_compute; reflexivity].
Defined.

Lemma get_ok_witness :
  fst (twitchstreams.get "abc" "https://example.com" (fresh ["Speedrun"]))
  = Ret ({["data" :=
             twitchstreams.JArray
               [twitchstreams.JObject
                  {["title" := twitchstreams.JString "Speedrun"]}]]}, None)
  /\
  twitchstreams.StatusCode
    (fst (fst (twitchstreams.client_Do
                 (default (30 * second)
                    (twitchstreams.http_client
                       (twitchstreams.globals (fresh ["Speedrun"]))))
                 "https://example.com" "abc"
                 (world (twitchstreams.core (fresh ["Speedrun"]))))))
  = 200.
Proof.
  assert (h : fst (twitchstreams.get "abc" "https://example.com"
                     (fresh ["Speedrun"]))
              = Ret ({["data" :=
                         twitchstreams.JArray
                           [twitchstreams.JObject
                              {["title" :=
                                  twitchstreams.JString "Speedrun"]}]]},
                     None))
    by (vm_compute; reflexivity).
  split; [exact h |].
  destruct (get_ok _ _ _ _ h) as (_ & _ & _ & _ & _ & _ & Hs & _).
  exact Hs.
Defined.

Lemma getStreams_ok_witness :
  fst (twitchstreams.getStreams "abc" " Alice " (fresh ["Speedrun"]))
  = Ret ([twitchstreams.mkStream "Speedrun"], None) /\
  strings_ToLower (strings_TrimSpace " Alice ") <> "".
Proof.
  assert (h : fst (twitchstreams.getStreams "abc" " Alice "
                     (fresh ["Speedrun"]))
              = Ret ([twitchstreams.mkStream "Speedrun"], None))
    by (vm_compute; reflexivity).
  split; [exact h |].
  destruct (proj1 (getStreams_ok "abc" " Alice " (fresh ["Speedrun"])
                     [twitchstreams.mkStream "Speedrun"]) h)
    as (_ & Hu & _).
  exact Hu.
Defined.

Lemma getStreams_blank_witness :
  exists err,
    twitchstreams.getStreams "   " "alice" (fresh ["Speedrun"])
    = (Ret ([], Some err), fresh ["Speedrun"]) /\
    (err = errorString "no client ID given" \/
     err = errorString "no username given").
Proof.
  apply getStreams_blank. left. vm_compute. reflexivity.
Defined.

Lemma pollStreams_quiet_witness :
  frames_sent (trace (twitchstreams.core
                        (snd (twitchstreams.pollStreams
                                (fresh ["Speedrun"; "Chess"])))))
  = frames_sent (trace (twitchstreams.core (fresh ["Speedrun"; "Chess"]))).
Proof.
  apply pollStreams_quiet. intros u _. simpl.
  rewrite lookup_empty. discriminate.
Defined.

Lemma twitchstreams_Hook_idle_witness :
  irc.Command (irc.mkMessage "NOTICE" ["*"; "hello"]) <> "PRIVMSG" /\
  fst (twitchstreams.Hook (irc.mkMessage "NOTICE" ["*"; "hello"]) polled)
  = Ret tt.
Proof.
  assert (h1 : irc.Command (irc.mkMessage "NOTICE" ["*"; "hello"])
               <> "PRIVMSG") by (simpl; discriminate).
  split; [exact h1 |].
  refine (f_equal fst (twitchstreams_Hook_idle _ polled h1 _)).
  apply Z.ltb_lt. vm_compute. reflexivity.
Defined.

Lemma twitchstreams_Hook_short_privmsg_witness :
  fst (twitchstreams.pollStreams polled) = Ret tt /\
  fst (twitchstreams.Hook (irc.mkMessage "PRIVMSG" ["#godrop"]) polled)
  = Panic "index out of range".
Proof.
  assert (h : fst (twitchstreams.pollStreams polled) = Ret tt)
    by (vm_compute; reflexivity).
  split; [exact h |].
  refine (f_equal fst (twitchstreams_Hook_short_privmsg
                         (irc.mkMessage "PRIVMSG" ["#godrop"]) polled h
                         eq_refl _)).
  simpl. lia.
Defined.
